(** * Routing core of the GitHub plugin: webhook verification, subscription
      store, event fan-out and actor notifications.

    Shallow embedding of [server/plugin/webhook.go] and of the subscription
    and mute code of the plugin (Subscribe, AddSubscription,
    GetSubscribedChannelsForRepository, IsNotificationOff, handleMuteAdd).

    Conventions of the embedding:
    - a Go [string] is a [string] (a sequence of bytes), a [[]byte] is a
      [list byte];
    - the plugin receiver [p *Plugin] is split into an immutable record
      [Plugin] (configuration and the external collaborators: hosting
      platform client, identity mapping, template rendering) and the
      key-value store [KVStore] that is threaded through the writers;
    - the message sink is a trace: every handler returns the list of
      [Effect]s it issues, in program order.  Log calls do not influence
      control flow and are left out of the trace. *)

From Stdlib Require Import ZArith List String Ascii Bool Lia QArith.
From Stdlib Require Import Strings.Byte.
From stdpp Require Import gmap strings list.

Open Scope Z_scope.

(** ** Go standard library: package [strings] *)

Module strings.

(** [strings.HasPrefix(s, prefix)]. *)
Definition HasPrefix (s prefix : string) : bool := String.prefix prefix s.

(** [strings.Contains(s, substr)]: [substr] occurs at some offset of [s]. *)
Fixpoint Contains (s substr : string) : bool :=
  HasPrefix s substr ||
  match s with
  | EmptyString => false
  | String _ s' => Contains s' substr
  end.

(** [strings.ToLower] on texts of ASCII bytes: the letters A-Z are
    lower-cased and every other byte is kept.  Go also lower-cases the
    letters outside ASCII; repository, owner and user names on the hosting
    platform are ASCII. *)
Definition lower (c : ascii) : ascii :=
  let n := nat_of_ascii c in
  if ((65 <=? n) && (n <=? 90))%nat then ascii_of_nat (n + 32) else c.

Fixpoint ToLower (s : string) : string :=
  match s with
  | EmptyString => EmptyString
  | String c s' => String (lower c) (ToLower s')
  end.

Fixpoint rev_string (acc : list ascii) (tl : string) : string :=
  match acc with
  | [] => tl
  | c :: acc' => rev_string acc' (String c tl)
  end.

(** The scanning loop of [strings.Split(s, sep)] for a non-empty [sep]:
    [cur] holds the current field (reversed), [skip] counts the bytes of a
    separator just matched that are still to be passed over. *)
Fixpoint split_loop (sep : string) (skip : nat) (cur : list ascii) (s : string)
  : list string :=
  match s with
  | EmptyString => [rev_string cur EmptyString]
  | String c s' =>
      match skip with
      | S k => split_loop sep k cur s'
      | O =>
          if HasPrefix s sep
          then rev_string cur EmptyString
                 :: split_loop sep (String.length sep - 1) [] s'
          else split_loop sep O (c :: cur) s'
      end
  end.

(** [strings.Split(s, sep)].  Every call site of the plugin passes a
    non-empty literal separator; with an empty separator Go explodes [s]
    into its characters, here into its bytes. *)
Fixpoint explode (s : string) : list string :=
  match s with
  | EmptyString => []
  | String c s' => String c EmptyString :: explode s'
  end.

Definition Split (s sep : string) : list string :=
  match sep with
  | EmptyString => explode s
  | _ => split_loop sep O [] s
  end.

(** [strings.Join(elems, sep)]. *)
Fixpoint Join (elems : list string) (sep : string) : string :=
  match elems with
  | [] => EmptyString
  | [e] => e
  | e :: rest => e +:+ sep +:+ Join rest sep
  end.

(** The slice expression [s[n:]]. *)
Fixpoint slice_from (n : nat) (s : string) : string :=
  match n, s with
  | O, _ => s
  | S n', String _ s' => slice_from n' s'
  | S _, EmptyString => EmptyString
  end.

End strings.

(** ** Go standard library: [encoding/hex], [crypto/subtle], [crypto/sha1],
       [crypto/hmac] *)

Definition byte_of_Z (z : Z) : byte :=
  match Byte.of_N (Z.to_N (z mod 256)) with
  | Some b => b
  | None => x00
  end.

Definition Z_of_byte (b : byte) : Z := Z.of_N (Byte.to_N b).

Module hex.

Inductive error :=
| InvalidByteError (c : ascii)
| ErrLength.

(** [fromHexChar]: the value of a hexadecimal digit, either case. *)
Definition fromHexChar (c : ascii) : option Z :=
  let n := Z.of_nat (nat_of_ascii c) in
  if (48 <=? n) && (n <=? 57) then Some (n - 48)
  else if (97 <=? n) && (n <=? 102) then Some (n - 97 + 10)
  else if (65 <=? n) && (n <=? 70) then Some (n - 65 + 10)
  else None.

(** [hex.Decode]: two digits per byte; the first bad digit is reported,
    and an odd trailing digit is [ErrLength]. *)
Fixpoint Decode (src : string) : error + list byte :=
  match src with
  | EmptyString => inr []
  | String p EmptyString =>
      match fromHexChar p with
      | None => inl (InvalidByteError p)
      | Some _ => inl ErrLength
      end
  | String p (String q rest) =>
      match fromHexChar p with
      | None => inl (InvalidByteError p)
      | Some a =>
          match fromHexChar q with
          | None => inl (InvalidByteError q)
          | Some b =>
              match Decode rest with
              | inl e => inl e
              | inr bs => inr (byte_of_Z (Z.lor (Z.shiftl a 4) b) :: bs)
              end
          end
      end
  end.

Definition hextable (v : Z) : ascii :=
  ascii_of_nat (Z.to_nat (if v <? 10 then 48 + v else 97 + (v - 10))).

(** [hex.EncodeToString]: lower-case digits. *)
Fixpoint EncodeToString (src : list byte) : string :=
  match src with
  | [] => EmptyString
  | b :: rest =>
      String (hextable (Z.shiftr (Z_of_byte b) 4))
        (String (hextable (Z.land (Z_of_byte b) 15)) (EncodeToString rest))
  end.

End hex.

Module subtle.

(** The accumulation loop [v |= x[i] ^ y[i]] over slices of equal length. *)
Fixpoint xor_accumulate (v : Z) (x y : list byte) : Z :=
  match x, y with
  | a :: x', b :: y' =>
      xor_accumulate (Z.lor v (Z.lxor (Z_of_byte a) (Z_of_byte b))) x' y'
  | _, _ => v
  end.

(** [subtle.ConstantTimeCompare(x, y) == 1]. *)
Definition ConstantTimeCompare (x y : list byte) : bool :=
  if negb (length x =? length y)%nat then false
  else xor_accumulate 0 x y =? 0.

End subtle.

Module sha1.

Definition BlockSize : nat := 64.
Definition Size : nat := 20.

Definition mask32 (x : Z) : Z := x mod 2 ^ 32.
Definition add32 (x y : Z) : Z := mask32 (x + y).
Definition rotl32 (n x : Z) : Z :=
  mask32 (Z.lor (Z.shiftl x n) (Z.shiftr x (32 - n))).

(** Big-endian encodings. *)
Definition be32 (x : Z) : list byte :=
  [byte_of_Z (Z.shiftr x 24); byte_of_Z (Z.shiftr x 16);
   byte_of_Z (Z.shiftr x 8); byte_of_Z x].

Definition be64 (x : Z) : list byte :=
  be32 (Z.shiftr x 32) ++ be32 x.

Fixpoint words_of (bs : list byte) : list Z :=
  match bs with
  | a :: b :: c :: d :: rest =>
      Z.lor (Z.shiftl (Z_of_byte a) 24)
        (Z.lor (Z.shiftl (Z_of_byte b) 16)
           (Z.lor (Z.shiftl (Z_of_byte c) 8) (Z_of_byte d)))
      :: words_of rest
  | _ => []
  end.

(** Message padding: a one bit, zeros up to 56 mod 64, the bit length. *)
Definition pad (msg : list byte) : list byte :=
  let len := Z.of_nat (length msg) in
  msg ++ [byte_of_Z 128]
      ++ repeat x00 (Z.to_nat ((55 - len) mod 64))
      ++ be64 (8 * len).

Fixpoint blocks (fuel : nat) (bs : list byte) : list (list byte) :=
  match fuel with
  | O => []
  | S fuel' =>
      match bs with
      | [] => []
      | _ => take BlockSize bs :: blocks fuel' (drop BlockSize bs)
      end
  end.

(** Message schedule, kept most recent word first. *)
Fixpoint schedule (n : nat) (w : list Z) : list Z :=
  match n with
  | O => w
  | S n' =>
      let x := Z.lxor (Z.lxor (nth 2 w 0) (nth 7 w 0))
                      (Z.lxor (nth 13 w 0) (nth 15 w 0)) in
      schedule n' (rotl32 1 x :: w)
  end.

Definition state : Type := Z * Z * Z * Z * Z.

Definition round (st : state) (tw : Z * Z) : state :=
  let '(a, b, c, d, e) := st in
  let '(t, w) := tw in
  let '(f, k) :=
    if t <? 20 then
      (Z.lor (Z.land b c) (Z.land (Z.lxor b 4294967295) d), 1518500249)
    else if t <? 40 then
      (Z.lxor (Z.lxor b c) d, 1859775393)
    else if t <? 60 then
      (Z.lor (Z.lor (Z.land b c) (Z.land b d)) (Z.land c d), 2400959708)
    else
      (Z.lxor (Z.lxor b c) d, 3395469782) in
  let temp := add32 (add32 (add32 (add32 (rotl32 5 a) f) e) k) w in
  (temp, a, rotl32 30 b, c, d).

Definition block (h : state) (chunk : list byte) : state :=
  let w := rev (schedule 64 (rev (words_of chunk))) in
  let '(a, b, c, d, e) :=
    fold_left round (combine (map Z.of_nat (seq 0 80)) w) h in
  let '(h0, h1, h2, h3, h4) := h in
  (add32 h0 a, add32 h1 b, add32 h2 c, add32 h3 d, add32 h4 e).

Definition init : state :=
  (1732584193, 4023233417, 2562383102, 271733878, 3285377520).

(** [sha1.Sum]. *)
Definition Sum (msg : list byte) : list byte :=
  let padded := pad msg in
  let '(h0, h1, h2, h3, h4) :=
    fold_left block (blocks (length padded) padded) init in
  be32 h0 ++ be32 h1 ++ be32 h2 ++ be32 h3 ++ be32 h4.

End sha1.

Module hmac.

Definition xor_pad (c : Z) (key : list byte) : list byte :=
  map (fun b => byte_of_Z (Z.lxor (Z_of_byte b) c)) key.

(** [hmac.New(sha1.New, key)] followed by [Write(msg)] and [Sum(nil)]. *)
Definition Sum (key msg : list byte) : list byte :=
  let key' := if (sha1.BlockSize <? length key)%nat then sha1.Sum key else key in
  let block := key' ++ repeat x00 (sha1.BlockSize - length key') in
  sha1.Sum (xor_pad 92 block ++ sha1.Sum (xor_pad 54 block ++ msg)).

(** [hmac.Equal]. *)
Definition Equal (mac1 mac2 : list byte) : bool :=
  subtle.ConstantTimeCompare mac1 mac2.

End hmac.

(** ** [verifyWebhookSignature] and [signBody] *)

(** Writing to a hash never fails, so the error result of [signBody] is
    always nil and only the digest is kept. *)
Definition signBody (secret body : list byte) : list byte :=
  hmac.Sum secret body.

Definition signaturePrefix : string := "sha1=".
Definition signatureLength : nat := 45.

Definition verifyWebhookSignature (secret : list byte) (signature : string)
    (body : list byte) : bool * option hex.error :=
  if negb (String.length signature =? signatureLength)%nat
     || negb (strings.HasPrefix signature signaturePrefix)
  then (false, None)
  else
    match hex.Decode (strings.slice_from 5 signature) with
    | inl err => (false, Some err)
    | inr actual => (hmac.Equal (signBody secret body) actual, None)
    end.

(** ** Go standard library: package [time], as far as [postIssueEvent] uses it *)

Module time.

(** A [time.Time] is an instant in nanoseconds since the Unix epoch, a
    [time.Duration] a signed 64-bit count of nanoseconds. *)
Definition Time : Type := Z.
Definition Duration : Type := Z.

Definition minDuration : Duration := - 2 ^ 63.
Definition maxDuration : Duration := 2 ^ 63 - 1.
Definition Second : Duration := 1000000000.

(** [t.Sub(u)] saturates at the ends of the [Duration] range. *)
Definition Sub (t u : Time) : Duration :=
  if t - u <? minDuration then minDuration
  else if maxDuration <? t - u then maxDuration
  else t - u.

(** [time.Until(t)], with the clock reading [now] made explicit. *)
Definition Until (now t : Time) : Duration := Sub t now.

(** Multiplication of durations is [int64] multiplication: it wraps. *)
Definition wrap64 (z : Z) : Z := (z + 2 ^ 63) mod 2 ^ 64 - 2 ^ 63.
Definition mul (d k : Duration) : Duration := wrap64 (d * k).

(** [d.Seconds()]: whole seconds plus the fractional part.  Go computes
    the sum in [float64]; the value is kept exact here, which decides the
    comparison with [4.00] the same way (a sum below 4 is at most
    [4 - 1e-9], far more than one unit in the last place away from 4). *)
Definition Seconds (d : Duration) : Q :=
  (inject_Z (Z.quot d Second) + Qmake (Z.rem d Second) 1000000000)%Q.

End time.

(** ** Events of the hosting platform (package [go-github])

    Only the fields the plugin reads are kept.  A user is its login, a label
    its name; a nil user or label reads as the empty string, as the [Get*]
    accessors of go-github do.  The repository of an event stays a pointer
    ([option]) because [handleWebhook] dereferences it. *)

Module Repository.
Record t := { FullName : option string; Private : bool }.
End Repository.

Definition GetFullName (repo : option Repository.t) : string :=
  match repo with
  | Some r => default EmptyString (Repository.FullName r)
  | None => EmptyString
  end.

Definition GetPrivate (repo : option Repository.t) : bool :=
  match repo with
  | Some r => Repository.Private r
  | None => false
  end.

Module PullRequest.
Record t := {
  Labels : list string;
  Body : string;
  User : string;
  Assignee : string
}.
End PullRequest.

Module Issue.
Record t := {
  CreatedAt : time.Time;
  Labels : list string;
  User : string;
  Assignees : list string;
  HTMLURL : string
}.
End Issue.

Module PullRequestEvent.
Record t := {
  Action : string;
  Repo : option Repository.t;
  Sender : string;
  PullRequest : PullRequest.t;
  Label : string;
  RequestedReviewer : string
}.
End PullRequestEvent.

Module IssuesEvent.
Record t := {
  Action : string;
  Repo : option Repository.t;
  Sender : string;
  Issue : Issue.t;
  Label : string;
  Assignee : string
}.
End IssuesEvent.

Module IssueCommentEvent.
Record t := {
  Action : string;
  Repo : option Repository.t;
  Sender : string;
  Issue : Issue.t;
  CommentBody : string
}.
End IssueCommentEvent.

Module PullRequestReviewEvent.
Record t := {
  Action : string;
  Repo : option Repository.t;
  Sender : string;
  PullRequest : PullRequest.t;
  ReviewState : string
}.
End PullRequestReviewEvent.

Module PullRequestReviewCommentEvent.
Record t := {
  Repo : option Repository.t;
  Sender : string;
  PullRequest : PullRequest.t
}.
End PullRequestReviewCommentEvent.

Module PushEvent.
Record t := {
  Repo : option Repository.t;
  Sender : string;
  Commits : list string
}.
End PushEvent.

Module CreateEvent.
Record t := {
  Repo : option Repository.t;
  Sender : string;
  RefType : string
}.
End CreateEvent.

Module DeleteEvent.
Record t := {
  Repo : option Repository.t;
  Sender : string;
  RefType : string
}.
End DeleteEvent.

Module StarEvent.
Record t := {
  Repo : option Repository.t;
  Sender : string
}.
End StarEvent.

(** The result of [github.ParseWebHook]: one of the nine kinds the plugin
    handles, or any other kind of the platform. *)
Inductive Event :=
| EvPullRequest (e : PullRequestEvent.t)
| EvIssues (e : IssuesEvent.t)
| EvIssueComment (e : IssueCommentEvent.t)
| EvPullRequestReview (e : PullRequestReviewEvent.t)
| EvPullRequestReviewComment (e : PullRequestReviewCommentEvent.t)
| EvPush (e : PushEvent.t)
| EvCreate (e : CreateEvent.t)
| EvDelete (e : DeleteEvent.t)
| EvStar (e : StarEvent.t)
| EvOther.

(** ** Subscriptions *)

Record SubscriptionFlags := {
  Flags_ExcludeOrgMembers : bool;
  Flags_ExcludeOrgRepos : bool
}.

Record Subscription := {
  ChannelID : string;
  CreatorID : string;
  Features : string;
  Flags : SubscriptionFlags;
  Repository : string
}.

Record Subscriptions := {
  Repositories : gmap string (list Subscription)
}.

Definition SubscriptionsKey : string := "subscriptions".
Definition excludeOrgMemberFlag : string := "exclude-org-member".
Definition excludeOrgReposFlag : string := "exclude".
Definition SubscribedRepoNotificationOff : string :=
  "subscribed-turned-off-notifications".

Definition featureIssueCreation : string := "issue_creations".
Definition featureIssues : string := "issues".
Definition featurePulls : string := "pulls".
Definition featurePushes : string := "pushes".
Definition featureCreates : string := "creates".
Definition featureDeletes : string := "deletes".
Definition featureIssueComments : string := "issue_comments".
Definition featurePullReviews : string := "pull_reviews".
Definition featureStars : string := "stars".

Definition actionOpened : string := "opened".
Definition actionClosed : string := "closed".
Definition actionReopened : string := "reopened".
Definition actionSubmitted : string := "submitted".
Definition actionLabeled : string := "labeled".
Definition actionAssigned : string := "assigned".
Definition actionCreated : string := "created".
Definition actionDeleted : string := "deleted".
Definition actionEdited : string := "edited".

Definition AddFlag (s : SubscriptionFlags) (flag : string) : SubscriptionFlags :=
  if (flag =? excludeOrgMemberFlag)%string then
    {| Flags_ExcludeOrgMembers := true;
       Flags_ExcludeOrgRepos := Flags_ExcludeOrgRepos s |}
  else if (flag =? excludeOrgReposFlag)%string then
    {| Flags_ExcludeOrgMembers := Flags_ExcludeOrgMembers s;
       Flags_ExcludeOrgRepos := true |}
  else s.

Definition Pulls (s : Subscription) : bool :=
  strings.Contains (Features s) featurePulls.
Definition PullsMerged (s : Subscription) : bool :=
  strings.Contains (Features s) "pulls_merged".
Definition IssueCreations (s : Subscription) : bool :=
  strings.Contains (Features s) "issue_creations".
Definition Issues (s : Subscription) : bool :=
  strings.Contains (Features s) featureIssues.
Definition Pushes (s : Subscription) : bool :=
  strings.Contains (Features s) "pushes".
Definition Creates (s : Subscription) : bool :=
  strings.Contains (Features s) "creates".
Definition Deletes (s : Subscription) : bool :=
  strings.Contains (Features s) "deletes".
Definition IssueComments (s : Subscription) : bool :=
  strings.Contains (Features s) "issue_comments".
Definition PullReviews (s : Subscription) : bool :=
  strings.Contains (Features s) "pull_reviews".
Definition Stars (s : Subscription) : bool :=
  strings.Contains (Features s) featureStars.

Definition quote : string := String (ascii_of_nat 34) EmptyString.

Definition Label (s : Subscription) : string :=
  if negb (strings.Contains (Features s) "label:") then EmptyString
  else
    let labelSplit := strings.Split (Features s) quote in
    if (length labelSplit <? 3)%nat then EmptyString
    else nth 1 labelSplit EmptyString.

Definition ExcludeOrgMembers (s : Subscription) : bool :=
  Flags_ExcludeOrgMembers (Flags s).

(** ** The plugin and its collaborators *)

(** An [error] is its message. *)
Definition error : Type := string.

(** [errors.Wrap(err, message)]. *)
Definition Wrap (err : error) (message : string) : error :=
  message +:+ ": " +:+ err.

(** The outcome of a call on the hosting-platform client: whether the
    returned object is non-nil, and whether the returned error is non-nil. *)
Record Fetched := { found : bool; failed : bool }.

Record GitHubClient := {
  Repositories_Get : string -> string -> Fetched;
  Organizations_Get : string -> Fetched;
  Users_Get : string -> Fetched
}.

(** The stored connection of a chat user, of which only [UserID] is read by
    the code below. *)
Record GitHubUserInfo := { UserID : string; Token : string }.

(** [model.Post], the fields the webhook handlers set. *)
Record Post := {
  UserId : string;
  ChannelId : string;
  PostType : string;
  Message : string
}.

Definition withMessage (post : Post) (m : string) : Post :=
  {| UserId := UserId post; ChannelId := ChannelId post;
     PostType := PostType post; Message := m |}.

Definition withChannelId (post : Post) (c : string) : Post :=
  {| UserId := UserId post; ChannelId := c;
     PostType := PostType post; Message := Message post |}.

(** What a handler asks of the message sink, in program order. *)
Inductive Effect :=
| CreatePost (post : Post)
| CreateBotDMPost (userID message postType : string)
| sendRefreshEvent (userID : string).

Record Plugin := {
  (* configuration *)
  WebhookSecret : string;
  EnablePrivateRepo : bool;
  EnableWebhookEventLogging : bool;
  GitHubOrg : string;
  BotUserID : string;
  getBaseURL : string;
  (* organization lock: [checkOrg] returns an error for an owner outside the
     configured organization *)
  checkOrg : string -> option error;
  isOrganizationLocked : bool;
  parseOwnerAndRepo : string -> string -> string * string;
  (* identities and credentials *)
  getGitHubUserInfo : string -> option GitHubUserInfo;
  githubConnectUser : GitHubUserInfo -> GitHubClient;
  isUserOrganizationMember : GitHubClient -> string -> string -> bool;
  getGitHubToUserIDMapping : string -> string;
  parseGitHubUsernamesFromText : string -> list string;
  GetDirectChannel : string -> string -> option string;
  (* rendering *)
  renderTemplate : string -> Event -> option string;
  sanitizeDescription : string -> string;
  (* request decoding *)
  ParseWebHook : string -> list byte -> option Event;
  MarshalError : Event -> option error;
  (* failures of the key-value store, per key *)
  KVGet_error : string -> option error;
  KVSet_error : string -> option error
}.

(** The persisted state: the subscription document, the
    notification-disabled list and one mute blob per user.  A document that
    was never written is [None] (KVGet returns nil); documents are kept
    decoded, the plugin reading back only what it marshalled itself. *)
Record KVStore := {
  kv_subscriptions : option Subscriptions;
  kv_excluded : option (list string);
  kv_muted : gmap string string
}.

(** Modelled from the spec: [fullNameFromOwnerAndRepo] is not part of the
    sources at hand; the spec gives the key as ["owner/repo"], and
    ["owner/"] (empty repo segment) for an organization. *)
Definition fullNameFromOwnerAndRepo (owner repo : string) : string :=
  owner +:+ "/" +:+ repo.

(** Modelled from the spec: [ItemExists] is not part of the sources at hand;
    the notification-disabled list is a set of repository full names, case
    preserved, so the test is exact membership (with the index of the first
    occurrence, -1 when absent), like [contains] and [findInSlice] below. *)
Fixpoint ItemExists_from (index : Z) (items : list string) (s : string) : bool * Z :=
  match items with
  | [] => (false, -1)
  | a :: rest =>
      if (a =? s)%string then (true, index)
      else ItemExists_from (index + 1) rest s
  end.

Definition ItemExists (items : list string) (s : string) : bool * Z :=
  ItemExists_from 0 items s.

(** ** Subscription store *)

Definition GetSubscriptions (p : Plugin) (kv : KVStore) : error + Subscriptions :=
  match KVGet_error p SubscriptionsKey with
  | Some appErr => inl (Wrap appErr "could not get subscriptions from KVStore")
  | None =>
      match kv_subscriptions kv with
      | None => inr {| Repositories := ∅ |}
      | Some subscriptions => inr subscriptions
      end
  end.

Definition StoreSubscriptions (p : Plugin) (kv : KVStore) (s : Subscriptions)
  : option error * KVStore :=
  match KVSet_error p SubscriptionsKey with
  | Some appErr =>
      (Some (Wrap appErr "could not store subscriptions in KV store"), kv)
  | None =>
      (None, {| kv_subscriptions := Some s;
                kv_excluded := kv_excluded kv;
                kv_muted := kv_muted kv |})
  end.

(** The search loop of [AddSubscription]: the first entry of the same
    channel is overwritten ([repoSubs[index] = sub]) and the loop stops. *)
Fixpoint replaceExisting (sub : Subscription) (repoSubs : list Subscription)
  : bool * list Subscription :=
  match repoSubs with
  | [] => (false, [])
  | s :: rest =>
      if (ChannelID s =? ChannelID sub)%string then (true, sub :: rest)
      else
        let '(exists_, rest') := replaceExisting sub rest in
        (exists_, s :: rest')
  end.

Definition AddSubscription (p : Plugin) (kv : KVStore) (repo : string)
    (sub : Subscription) : option error * KVStore :=
  match GetSubscriptions p kv with
  | inl err => (Some (Wrap err "could not get subscriptions"), kv)
  | inr subs =>
      let repoSubs :=
        match Repositories subs !! repo with
        | None => [sub]
        | Some repoSubs =>
            let '(exists_, repoSubs') := replaceExisting sub repoSubs in
            if negb exists_ then repoSubs' ++ [sub] else repoSubs'
        end in
      let subs' := {| Repositories := <[repo := repoSubs]> (Repositories subs) |} in
      match StoreSubscriptions p kv subs' with
      | (Some err, kv') => (Some (Wrap err "could not store subscriptions"), kv')
      | (None, kv') => (None, kv')
      end
  end.

Definition Subscribe (p : Plugin) (kv : KVStore) (githubClient : GitHubClient)
    (userID owner repo channelID features : string) (flags : SubscriptionFlags)
  : option error * KVStore :=
  if (owner =? "")%string then (Some "invalid repository", kv)
  else
    let owner := strings.ToLower owner in
    let repo := strings.ToLower repo in
    match checkOrg p owner with
    | Some err => (Some (Wrap err "organization not supported"), kv)
    | None =>
        if Flags_ExcludeOrgMembers flags && negb (isOrganizationLocked p) then
          (Some "Unable to set --exclude-org-member flag. The GitHub plugin is not locked to a single organization.",
           kv)
        else
          (* [inl]: an early return; [inr err]: whether [err] is non-nil
             after the lookups *)
          let lookup : error + bool :=
            if (repo =? "")%string then
              let ghOrg := Organizations_Get githubClient owner in
              if negb (found ghOrg) then
                let ghUser := Users_Get githubClient owner in
                if negb (found ghUser) then
                  inl ("Unknown organization " +:+ owner)
                else inr (failed ghUser)
              else inr (failed ghOrg)
            else
              let ghRepo := Repositories_Get githubClient owner repo in
              if negb (found ghRepo) then
                inl ("unknown repository "
                     +:+ fullNameFromOwnerAndRepo owner repo)
              else inr (failed ghRepo) in
          match lookup with
          | inl err => (Some err, kv)
          | inr true =>
              (Some ("Encountered an error subscribing to "
                     +:+ fullNameFromOwnerAndRepo owner repo), kv)
          | inr false =>
              let sub := {| ChannelID := channelID;
                            CreatorID := userID;
                            Features := features;
                            Repository := fullNameFromOwnerAndRepo owner repo;
                            Flags := flags |} in
              match AddSubscription p kv (fullNameFromOwnerAndRepo owner repo) sub with
              | (Some err, kv') => (Some (Wrap err "could not add subscription"), kv')
              | (None, kv') => (None, kv')
              end
          end
    end.

Definition SubscribeOrg (p : Plugin) (kv : KVStore) (githubClient : GitHubClient)
    (userID org channelID features : string) (flags : SubscriptionFlags)
  : option error * KVStore :=
  if (org =? "")%string then (Some "invalid organization", kv)
  else Subscribe p kv githubClient userID org "" channelID features flags.

(** The removal loop of [Unsubscribe]: the first entry of the channel is
    cut out of the slice. *)
Fixpoint removeFirst (channelID : string) (repoSubs : list Subscription)
  : bool * list Subscription :=
  match repoSubs with
  | [] => (false, [])
  | sub :: rest =>
      if (ChannelID sub =? channelID)%string then (true, rest)
      else
        let '(removed, rest') := removeFirst channelID rest in
        (removed, sub :: rest')
  end.

Definition Unsubscribe (p : Plugin) (kv : KVStore) (channelID repo : string)
  : option error * KVStore :=
  let '(owner, repo) := parseOwnerAndRepo p repo (getBaseURL p) in
  if (owner =? "")%string && (repo =? "")%string then
    (Some "invalid repository", kv)
  else
    let owner := strings.ToLower owner in
    let repo := strings.ToLower repo in
    let repoWithOwner := owner +:+ "/" +:+ repo in
    match GetSubscriptions p kv with
    | inl err => (Some (Wrap err "could not get subscriptions"), kv)
    | inr subs =>
        match Repositories subs !! repoWithOwner with
        | None => (None, kv)
        | Some repoSubs =>
            let '(removed, repoSubs') := removeFirst channelID repoSubs in
            if removed then
              let subs' :=
                {| Repositories := <[repoWithOwner := repoSubs']> (Repositories subs) |} in
              match StoreSubscriptions p kv subs' with
              | (Some err, kv') =>
                  (Some (Wrap err "could not store subscriptions"), kv')
              | (None, kv') => (None, kv')
              end
            else (None, kv)
        end
    end.

(** ** Notification-disabled repositories *)

Definition GetExcludedNotificationRepos (p : Plugin) (kv : KVStore)
  : error + list string :=
  match KVGet_error p SubscribedRepoNotificationOff with
  | Some appErr => inl (Wrap appErr "could not get subscriptions from KVStore")
  | None =>
      match kv_excluded kv with
      | None => inr []
      | Some subscriptions => inr subscriptions
      end
  end.

Definition IsNotificationOff (p : Plugin) (kv : KVStore) (repoName : string) : bool :=
  match GetExcludedNotificationRepos p kv with
  | inl _ => false
  | inr repos =>
      if (length repos =? 0)%nat then false
      else fst (ItemExists repos repoName)
  end.

(** ** Permission oracle and subscription matcher *)

Definition permissionToRepo (p : Plugin) (userID ownerAndRepo : string) : bool :=
  if (userID =? "")%string then false
  else
    let '(owner, repo) := parseOwnerAndRepo p ownerAndRepo (getBaseURL p) in
    if (owner =? "")%string then false
    else
      match checkOrg p owner with
      | Some _ => false
      | None =>
          match getGitHubUserInfo p userID with
          | None => false
          | Some info =>
              let githubClient := githubConnectUser p info in
              let result := Repositories_Get githubClient owner repo in
              if negb (found result) || failed result then false else true
          end
      end.

Definition excludeConfigOrgMember (p : Plugin) (user : string)
    (subscription : Subscription) : bool :=
  if negb (ExcludeOrgMembers subscription) then false
  else
    match getGitHubUserInfo p (CreatorID subscription) with
    | None => false
    | Some info =>
        let githubClient := githubConnectUser p info in
        let organization := GitHubOrg p in
        isUserOrganizationMember p githubClient user organization
    end.

(** The filtering loop of [GetSubscribedChannelsForRepository]. *)
Fixpoint visibleSubscriptions (p : Plugin) (private : bool) (name : string)
    (subsForRepo : list Subscription) : list Subscription :=
  match subsForRepo with
  | [] => []
  | sub :: rest =>
      if private && negb (permissionToRepo p (CreatorID sub) name)
      then visibleSubscriptions p private name rest
      else sub :: visibleSubscriptions p private name rest
  end.

Definition GetSubscribedChannelsForRepository (p : Plugin) (kv : KVStore)
    (repo : option Repository.t) : list Subscription :=
  let name := strings.ToLower (GetFullName repo) in
  let org := hd EmptyString (strings.Split name "/") in
  match GetSubscriptions p kv with
  | inl _ => []
  | inr subs =>
      let subsForRepo := default [] (Repositories subs !! name) in
      let orgKey := fullNameFromOwnerAndRepo org "" in
      let subsForRepo := subsForRepo ++ default [] (Repositories subs !! orgKey) in
      if (length subsForRepo =? 0)%nat then []
      else visibleSubscriptions p (GetPrivate repo) name subsForRepo
  end.

(** ** Mute lists *)

Definition mutedUsersKey (userID : string) : string := userID +:+ "-muted-users".

(** [p.API.KVGet(userID + "-muted-users")]: on an error the returned bytes
    are nil. *)
Definition KVGet_muted (p : Plugin) (kv : KVStore) (userID : string)
  : string * option error :=
  match KVGet_error p (mutedUsersKey userID) with
  | Some appErr => (EmptyString, Some appErr)
  | None => (default EmptyString (kv_muted kv !! mutedUsersKey userID), None)
  end.

Definition senderMutedByReceiver (p : Plugin) (kv : KVStore)
    (userID sender : string) : bool :=
  let '(mutedUsernameBytes, _) := KVGet_muted p kv userID in
  let mutedUsernames := mutedUsernameBytes in
  strings.Contains mutedUsernames sender.

Definition getMutedUsernames (p : Plugin) (kv : KVStore) (userInfo : GitHubUserInfo)
  : list string :=
  match KVGet_muted p kv (UserID userInfo) with
  | (_, Some _) => []
  | (mutedUsernames, None) =>
      if (String.length mutedUsernames =? 0)%nat then []
      else strings.Split mutedUsernames ","
  end.

Fixpoint contains_from (index : Z) (s : list string) (e : string) : bool * Z :=
  match s with
  | [] => (false, -1)
  | a :: rest =>
      if (a =? e)%string then (true, index) else contains_from (index + 1) rest e
  end.

Definition contains (s : list string) (e : string) : bool * Z :=
  contains_from 0 s e.

Definition KVSet_muted (p : Plugin) (kv : KVStore) (userID value : string)
  : option error * KVStore :=
  match KVSet_error p (mutedUsersKey userID) with
  | Some appErr => (Some appErr, kv)
  | None =>
      (None, {| kv_subscriptions := kv_subscriptions kv;
                kv_excluded := kv_excluded kv;
                kv_muted := <[mutedUsersKey userID := value]> (kv_muted kv) |})
  end.

Definition handleMuteAdd (p : Plugin) (kv : KVStore) (username : string)
    (userInfo : GitHubUserInfo) : string * KVStore :=
  let mutedUsernames := getMutedUsernames p kv userInfo in
  if fst (contains mutedUsernames username) then
    (username +:+ " is already muted", kv)
  else if strings.Contains username "," then
    ("Invalid username provided", kv)
  else
    let mutedUsers :=
      if (0 <? length mutedUsernames)%nat
      then strings.Join mutedUsernames "," +:+ "," +:+ username
      else username in
    match KVSet_muted p kv (UserID userInfo) mutedUsers with
    | (Some _, kv') => ("Error occurred saving list of muted users", kv')
    | (None, kv') =>
        ("`" +:+ username +:+ "`"
         +:+ " is now muted. You will no longer receive notifications for comments in your PRs and issues.",
         kv')
    end.

(** ** Channel fan-out: one handler per event kind *)

(** The scan [for _, v := range labels { if v == label { contained = true } }]. *)
Definition containsLabel (labels : list string) (label : string) : bool :=
  existsb (fun v => (v =? label)%string) labels.

(** Control flow of one iteration of the pull-request loop. *)
Inductive Flow :=
| Continue
| Return
| Proceed (post : Post).

Fixpoint postPullRequestEvent_loop (p : Plugin) (event : PullRequestEvent.t)
    (action eventLabel : string) (labels : list string)
    (newPRMessage closedPRMessage : string) (post : Post)
    (subs : list Subscription) : list Effect :=
  match subs with
  | [] => []
  | sub :: rest =>
      let continue :=
        postPullRequestEvent_loop p event action eventLabel labels
          newPRMessage closedPRMessage post rest in
      if negb (Pulls sub) && negb (PullsMerged sub) then continue
      else if PullsMerged sub && negb (action =? actionClosed)%string then continue
      else if excludeConfigOrgMember p (PullRequestEvent.Sender event) sub then continue
      else
        let label := Label sub in
        let contained := containsLabel labels label in
        if negb contained && negb (label =? "")%string then continue
        else
          let labelled : Flow :=
            if (action =? actionLabeled)%string then
              if negb (label =? "")%string && (label =? eventLabel)%string then
                match renderTemplate p "pullRequestLabelled" (EvPullRequest event) with
                | None => Return
                | Some pullRequestLabelledMessage =>
                    Proceed (withMessage post pullRequestLabelledMessage)
                end
              else Continue
            else Proceed post in
          match labelled with
          | Continue => continue
          | Return => []
          | Proceed post =>
              let post :=
                if (action =? actionOpened)%string
                then withMessage post (sanitizeDescription p newPRMessage)
                else post in
              let post :=
                if (action =? actionClosed)%string
                then withMessage post closedPRMessage
                else post in
              let post := withChannelId post (ChannelID sub) in
              CreatePost post
                :: postPullRequestEvent_loop p event action eventLabel labels
                     newPRMessage closedPRMessage post rest
          end
  end.

Definition postPullRequestEvent (p : Plugin) (kv : KVStore)
    (event : PullRequestEvent.t) : list Effect :=
  let repo := PullRequestEvent.Repo event in
  let subs := GetSubscribedChannelsForRepository p kv repo in
  if (length subs =? 0)%nat then []
  else
    let action := PullRequestEvent.Action event in
    if negb (action =? actionOpened)%string
       && negb (action =? actionLabeled)%string
       && negb (action =? actionClosed)%string
    then []
    else
      let pr := PullRequestEvent.PullRequest event in
      let eventLabel := PullRequestEvent.Label event in
      let labels := PullRequest.Labels pr in
      match renderTemplate p "newPR" (EvPullRequest event) with
      | None => []
      | Some newPRMessage =>
          match renderTemplate p "closedPR" (EvPullRequest event) with
          | None => []
          | Some closedPRMessage =>
              let post := {| UserId := BotUserID p; PostType := "custom_git_pr";
                             ChannelId := ""; Message := "" |} in
              postPullRequestEvent_loop p event action eventLabel labels
                newPRMessage closedPRMessage post subs
          end
      end.

(** The body of the fan-out loop of [postIssueEvent] for one subscription. *)
Definition postIssueEvent_sub (p : Plugin) (event : IssuesEvent.t)
    (action eventLabel : string) (labels : list string) (post : Post)
    (sub : Subscription) : list Effect :=
  if negb (Issues sub) && negb (IssueCreations sub) then []
  else if IssueCreations sub && negb (action =? actionOpened)%string then []
  else if excludeConfigOrgMember p (IssuesEvent.Sender event) sub then []
  else
    let label := Label sub in
    let contained := containsLabel labels label in
    if negb contained && negb (label =? "")%string then []
    else if (action =? actionLabeled)%string
            && ((label =? "")%string || negb (label =? eventLabel)%string)
    then []
    else [CreatePost (withChannelId post (ChannelID sub))].

Definition postIssueEvent (p : Plugin) (kv : KVStore) (now : time.Time)
    (event : IssuesEvent.t) : list Effect :=
  let repo := IssuesEvent.Repo event in
  let issue := IssuesEvent.Issue event in
  let action := IssuesEvent.Action event in
  let timeDiff := time.mul (time.Until now (Issue.CreatedAt issue)) (-1) in
  if (action =? actionLabeled)%string
     && (if Qlt_le_dec (time.Seconds timeDiff) (inject_Z 4) then true else false)
  then []
  else
    let subscribedChannels := GetSubscribedChannelsForRepository p kv repo in
    if (length subscribedChannels =? 0)%nat then []
    else
      let issueTemplate : option string :=
        if (action =? actionOpened)%string then Some "newIssue"
        else if (action =? actionClosed)%string then Some "closedIssue"
        else if (action =? actionReopened)%string then Some "reopenedIssue"
        else if (action =? actionLabeled)%string then Some "issueLabelled"
        else None in
      match issueTemplate with
      | None => []
      | Some issueTemplate =>
          match renderTemplate p issueTemplate (EvIssues event) with
          | None => []
          | Some renderedMessage =>
              let renderedMessage := sanitizeDescription p renderedMessage in
              let post := {| UserId := BotUserID p; PostType := "custom_git_issue";
                             Message := renderedMessage; ChannelId := "" |} in
              let eventLabel := IssuesEvent.Label event in
              let labels := Issue.Labels issue in
              flat_map (postIssueEvent_sub p event action eventLabel labels post)
                subscribedChannels
          end
      end.

Definition ConvertPushEventRepositoryToRepository (pushRepo : option Repository.t)
  : Repository.t :=
  {| Repository.FullName := Some (GetFullName pushRepo);
     Repository.Private := GetPrivate pushRepo |}.

(** The loop shared in shape by the push, create, delete and star handlers:
    a feature gate and the organization-member exclusion. *)
Definition postFeature_sub (p : Plugin) (feature : Subscription -> bool)
    (sender : string) (post : Post) (sub : Subscription) : list Effect :=
  if negb (feature sub) then []
  else if excludeConfigOrgMember p sender sub then []
  else [CreatePost (withChannelId post (ChannelID sub))].

Definition postPushEvent (p : Plugin) (kv : KVStore) (event : PushEvent.t)
  : list Effect :=
  let repo := PushEvent.Repo event in
  let subs :=
    GetSubscribedChannelsForRepository p kv
      (Some (ConvertPushEventRepositoryToRepository repo)) in
  if (length subs =? 0)%nat then []
  else
    let commits := PushEvent.Commits event in
    if (length commits =? 0)%nat then []
    else
      match renderTemplate p "pushedCommits" (EvPush event) with
      | None => []
      | Some pushedCommitsMessage =>
          let post := {| UserId := BotUserID p; PostType := "custom_git_push";
                         Message := pushedCommitsMessage; ChannelId := "" |} in
          flat_map (postFeature_sub p Pushes (PushEvent.Sender event) post) subs
      end.

Definition postCreateEvent (p : Plugin) (kv : KVStore) (event : CreateEvent.t)
  : list Effect :=
  let repo := CreateEvent.Repo event in
  let subs := GetSubscribedChannelsForRepository p kv repo in
  if (length subs =? 0)%nat then []
  else
    let typ := CreateEvent.RefType event in
    if negb (typ =? "tag")%string && negb (typ =? "branch")%string then []
    else
      match renderTemplate p "newCreateMessage" (EvCreate event) with
      | None => []
      | Some newCreateMessage =>
          let post := {| UserId := BotUserID p; PostType := "custom_git_create";
                         Message := newCreateMessage; ChannelId := "" |} in
          flat_map (postFeature_sub p Creates (CreateEvent.Sender event) post) subs
      end.

Definition postDeleteEvent (p : Plugin) (kv : KVStore) (event : DeleteEvent.t)
  : list Effect :=
  let repo := DeleteEvent.Repo event in
  let subs := GetSubscribedChannelsForRepository p kv repo in
  if (length subs =? 0)%nat then []
  else
    let typ := DeleteEvent.RefType event in
    if negb (typ =? "tag")%string && negb (typ =? "branch")%string then []
    else
      match renderTemplate p "newDeleteMessage" (EvDelete event) with
      | None => []
      | Some newDeleteMessage =>
          let post := {| UserId := BotUserID p; PostType := "custom_git_delete";
                         Message := newDeleteMessage; ChannelId := "" |} in
          flat_map (postFeature_sub p Deletes (DeleteEvent.Sender event) post) subs
      end.

Definition postStarEvent (p : Plugin) (kv : KVStore) (event : StarEvent.t)
  : list Effect :=
  let repo := StarEvent.Repo event in
  let subs := GetSubscribedChannelsForRepository p kv repo in
  if (length subs =? 0)%nat then []
  else
    match renderTemplate p "newRepoStar" (EvStar event) with
    | None => []
    | Some newStarMessage =>
        let post := {| UserId := BotUserID p; PostType := "custom_git_star";
                       Message := newStarMessage; ChannelId := "" |} in
        flat_map (postFeature_sub p Stars (StarEvent.Sender event) post) subs
    end.

(** The loop shared in shape by the comment and review handlers: a feature
    gate, the organization-member exclusion and the label filter. *)
Definition postLabelled_sub (p : Plugin) (feature : Subscription -> bool)
    (sender : string) (labels : list string) (post : Post) (sub : Subscription)
  : list Effect :=
  if negb (feature sub) then []
  else if excludeConfigOrgMember p sender sub then []
  else
    let label := Label sub in
    let contained := containsLabel labels label in
    if negb contained && negb (label =? "")%string then []
    else [CreatePost (withChannelId post (ChannelID sub))].

Definition postIssueCommentEvent (p : Plugin) (kv : KVStore)
    (event : IssueCommentEvent.t) : list Effect :=
  let repo := IssueCommentEvent.Repo event in
  let subs := GetSubscribedChannelsForRepository p kv repo in
  if (length subs =? 0)%nat then []
  else if negb (IssueCommentEvent.Action event =? actionCreated)%string then []
  else
    match renderTemplate p "issueComment" (EvIssueComment event) with
    | None => []
    | Some message =>
        let post := {| UserId := BotUserID p; PostType := "custom_git_comment";
                       Message := ""; ChannelId := "" |} in
        let labels := Issue.Labels (IssueCommentEvent.Issue event) in
        (* the action is [created] here, so every iteration sets the message *)
        let post :=
          if (IssueCommentEvent.Action event =? actionCreated)%string
          then withMessage post message else post in
        flat_map
          (postLabelled_sub p IssueComments (IssueCommentEvent.Sender event)
             labels post)
          subs
    end.

Definition postPullRequestReviewEvent (p : Plugin) (kv : KVStore)
    (event : PullRequestReviewEvent.t) : list Effect :=
  let repo := PullRequestReviewEvent.Repo event in
  let subs := GetSubscribedChannelsForRepository p kv repo in
  if (length subs =? 0)%nat then []
  else
    let action := PullRequestReviewEvent.Action event in
    if negb (action =? actionSubmitted)%string then []
    else
      let state := PullRequestReviewEvent.ReviewState event in
      if negb ((state =? "APPROVED")%string || (state =? "COMMENTED")%string
               || (state =? "CHANGES_REQUESTED")%string)
      then []
      else
        match renderTemplate p "pullRequestReviewEvent" (EvPullRequestReview event) with
        | None => []
        | Some newReviewMessage =>
            let post := {| UserId := BotUserID p;
                           PostType := "custom_git_pull_review";
                           Message := newReviewMessage; ChannelId := "" |} in
            let labels :=
              PullRequest.Labels (PullRequestReviewEvent.PullRequest event) in
            flat_map
              (postLabelled_sub p PullReviews (PullRequestReviewEvent.Sender event)
                 labels post)
              subs
        end.

Definition postPullRequestReviewCommentEvent (p : Plugin) (kv : KVStore)
    (event : PullRequestReviewCommentEvent.t) : list Effect :=
  let repo := PullRequestReviewCommentEvent.Repo event in
  let subs := GetSubscribedChannelsForRepository p kv repo in
  if (length subs =? 0)%nat then []
  else
    match renderTemplate p "newReviewComment" (EvPullRequestReviewComment event) with
    | None => []
    | Some newReviewMessage =>
        let post := {| UserId := BotUserID p;
                       PostType := "custom_git_pull_review_comment";
                       Message := newReviewMessage; ChannelId := "" |} in
        let labels :=
          PullRequest.Labels (PullRequestReviewCommentEvent.PullRequest event) in
        flat_map
          (postLabelled_sub p PullReviews
             (PullRequestReviewCommentEvent.Sender event) labels post)
          subs
    end.

(** ** Actor notifications *)

Definition newline : string := String (ascii_of_nat 10) EmptyString.

(** One iteration of the mention loops: [author] is the login whose
    notification is handled by another path. *)
Definition mention_user (p : Plugin) (sender author : string)
    (repo : option Repository.t) (post : Post) (username : string) : list Effect :=
  if (username =? sender)%string then []
  else if (username =? author)%string then []
  else
    let userID := getGitHubToUserIDMapping p username in
    if (userID =? "")%string then []
    else if GetPrivate repo && negb (permissionToRepo p userID (GetFullName repo))
    then []
    else
      match GetDirectChannel p userID (BotUserID p) with
      | None => []
      | Some channelId =>
          [CreatePost (withChannelId post channelId); sendRefreshEvent userID]
      end.

Definition handlePRDescriptionMentionNotification (p : Plugin)
    (event : PullRequestEvent.t) : list Effect :=
  let action := PullRequestEvent.Action event in
  if negb (action =? actionOpened)%string then []
  else
    let body := PullRequest.Body (PullRequestEvent.PullRequest event) in
    let mentionedUsernames := parseGitHubUsernamesFromText p body in
    match renderTemplate p "pullRequestMentionNotification" (EvPullRequest event) with
    | None => []
    | Some message =>
        let post := {| UserId := BotUserID p; Message := message;
                       PostType := "custom_git_mention"; ChannelId := "" |} in
        flat_map
          (mention_user p (PullRequestEvent.Sender event)
             (PullRequest.User (PullRequestEvent.PullRequest event))
             (PullRequestEvent.Repo event) post)
          mentionedUsernames
    end.

Definition handleCommentMentionNotification (p : Plugin)
    (event : IssueCommentEvent.t) : list Effect :=
  let action := IssueCommentEvent.Action event in
  if (action =? actionEdited)%string || (action =? actionDeleted)%string then []
  else
    let body := IssueCommentEvent.CommentBody event in
    (* Try to parse out email footer junk *)
    let body :=
      if strings.Contains body "notifications@github.com"
      then hd EmptyString (strings.Split body (newline +:+ newline +:+ "On"))
      else body in
    let mentionedUsernames := parseGitHubUsernamesFromText p body in
    match renderTemplate p "commentMentionNotification" (EvIssueComment event) with
    | None => []
    | Some message =>
        let post := {| UserId := BotUserID p; Message := message;
                       PostType := "custom_git_mention"; ChannelId := "" |} in
        flat_map
          (mention_user p (IssueCommentEvent.Sender event)
             (Issue.User (IssueCommentEvent.Issue event))
             (IssueCommentEvent.Repo event) post)
          mentionedUsernames
    end.

(** [splitURL[len(splitURL)-2]], once [len(splitURL) >= 2] is known. *)
Definition issueType (splitURL : list string) : string :=
  nth (length splitURL - 2) splitURL EmptyString.

Definition handleCommentAuthorNotification (p : Plugin) (kv : KVStore)
    (event : IssueCommentEvent.t) : list Effect :=
  let author := Issue.User (IssueCommentEvent.Issue event) in
  if (author =? IssueCommentEvent.Sender event)%string then []
  else
    let action := IssueCommentEvent.Action event in
    if (action =? actionEdited)%string || (action =? actionDeleted)%string then []
    else
      let authorUserID := getGitHubToUserIDMapping p author in
      if (authorUserID =? "")%string then []
      else if GetPrivate (IssueCommentEvent.Repo event)
              && negb (permissionToRepo p authorUserID
                         (GetFullName (IssueCommentEvent.Repo event)))
      then []
      else
        let splitURL :=
          strings.Split (Issue.HTMLURL (IssueCommentEvent.Issue event)) "/" in
        if (length splitURL <? 2)%nat then []
        else
          let templateName : option string :=
            if (issueType splitURL =? "pull")%string
            then Some "commentAuthorPullRequestNotification"
            else if (issueType splitURL =? "issues")%string
            then Some "commentAuthorIssueNotification"
            else None in
          match templateName with
          | None => []
          | Some templateName =>
              if senderMutedByReceiver p kv authorUserID
                   (IssueCommentEvent.Sender event)
              then []
              else
                match renderTemplate p templateName (EvIssueComment event) with
                | None => []
                | Some message =>
                    [CreateBotDMPost authorUserID message "custom_git_author";
                     sendRefreshEvent authorUserID]
                end
          end.

(** One iteration of the assignee loop of
    [handleCommentAssigneeNotification]. *)
Definition commentAssignee (p : Plugin) (kv : KVStore)
    (event : IssueCommentEvent.t) (author repoName templateName assignee : string)
  : list Effect :=
  let userID := getGitHubToUserIDMapping p assignee in
  if (userID =? "")%string then []
  else if (author =? assignee)%string then []
  else if (IssueCommentEvent.Sender event =? assignee)%string then []
  else if negb (permissionToRepo p userID repoName) then []
  else
    let assigneeID := getGitHubToUserIDMapping p assignee in
    if (assigneeID =? "")%string then []
    else if senderMutedByReceiver p kv assigneeID (IssueCommentEvent.Sender event)
    then []
    else
      match renderTemplate p templateName (EvIssueComment event) with
      | None => []
      | Some message =>
          [CreateBotDMPost assigneeID message "custom_git_assignee";
           sendRefreshEvent assigneeID]
      end.

Definition handleCommentAssigneeNotification (p : Plugin) (kv : KVStore)
    (event : IssueCommentEvent.t) : list Effect :=
  let author := Issue.User (IssueCommentEvent.Issue event) in
  let assignees := Issue.Assignees (IssueCommentEvent.Issue event) in
  let repoName := GetFullName (IssueCommentEvent.Repo event) in
  let splitURL :=
    strings.Split (Issue.HTMLURL (IssueCommentEvent.Issue event)) "/" in
  if (length splitURL <? 2)%nat then []
  else
    let templateName : option string :=
      if (issueType splitURL =? "pull")%string
      then Some "commentAssigneePullRequestNotification"
      else if (issueType splitURL =? "issues")%string
      then Some "commentAssigneeIssueNotification"
      else None in
    match templateName with
    | None => []
    | Some templateName =>
        flat_map (commentAssignee p kv event author repoName templateName) assignees
    end.

Definition postIssueNotification (message authorUserID assigneeUserID : string)
  : list Effect :=
  (if (0 <? String.length authorUserID)%nat
   then [CreateBotDMPost authorUserID message "custom_git_author";
         sendRefreshEvent authorUserID]
   else [])
  ++
  (if (0 <? String.length assigneeUserID)%nat
   then [CreateBotDMPost assigneeUserID message "custom_git_assigned";
         sendRefreshEvent assigneeUserID]
   else []).

(** The lookup every branch of the action switches performs: the chat
    identity of [login], blanked when the repository is private and that
    user may not see it. *)
Definition permittedUserID (p : Plugin) (isPrivate : bool) (repoName login : string)
  : string :=
  let userID := getGitHubToUserIDMapping p login in
  if isPrivate && negb (permissionToRepo p userID repoName) then EmptyString
  else userID.

(** The identities selected by an action switch: requested reviewer, author
    and assignee (empty when not selected). *)
Record Targets := {
  requestedUserID : string;
  authorUserID : string;
  assigneeUserID : string
}.

Definition handlePullRequestNotification (p : Plugin)
    (event : PullRequestEvent.t) : list Effect :=
  let author := PullRequest.User (PullRequestEvent.PullRequest event) in
  let sender := PullRequestEvent.Sender event in
  let repoName := GetFullName (PullRequestEvent.Repo event) in
  let isPrivate := GetPrivate (PullRequestEvent.Repo event) in
  let action := PullRequestEvent.Action event in
  let targets : option Targets :=
    if (action =? "review_requested")%string then
      let requestedReviewer := PullRequestEvent.RequestedReviewer event in
      if (requestedReviewer =? sender)%string then None
      else Some {| requestedUserID :=
                     permittedUserID p isPrivate repoName requestedReviewer;
                   authorUserID := ""; assigneeUserID := "" |}
    else if (action =? actionClosed)%string then
      if (author =? sender)%string then None
      else Some {| requestedUserID := "";
                   authorUserID := permittedUserID p isPrivate repoName author;
                   assigneeUserID := "" |}
    else if (action =? actionReopened)%string then
      if (author =? sender)%string then None
      else Some {| requestedUserID := "";
                   authorUserID := permittedUserID p isPrivate repoName author;
                   assigneeUserID := "" |}
    else if (action =? actionAssigned)%string then
      let assignee := PullRequest.Assignee (PullRequestEvent.PullRequest event) in
      if (assignee =? sender)%string then None
      else Some {| requestedUserID := ""; authorUserID := "";
                   assigneeUserID :=
                     permittedUserID p isPrivate repoName assignee |}
    else None in
  match targets with
  | None => []
  | Some targets =>
      match renderTemplate p "pullRequestNotification" (EvPullRequest event) with
      | None => []
      | Some message =>
          (if (0 <? String.length (requestedUserID targets))%nat
           then [CreateBotDMPost (requestedUserID targets) message
                   "custom_git_review_request";
                 sendRefreshEvent (requestedUserID targets)]
           else [])
          ++ postIssueNotification message (authorUserID targets)
               (assigneeUserID targets)
      end
  end.

Definition handleIssueNotification (p : Plugin) (event : IssuesEvent.t)
  : list Effect :=
  let author := Issue.User (IssuesEvent.Issue event) in
  let sender := IssuesEvent.Sender event in
  if (author =? sender)%string then []
  else
    let repoName := GetFullName (IssuesEvent.Repo event) in
    let isPrivate := GetPrivate (IssuesEvent.Repo event) in
    let action := IssuesEvent.Action event in
    let targets : option Targets :=
      if (action =? actionClosed)%string then
        Some {| requestedUserID := "";
                authorUserID := permittedUserID p isPrivate repoName author;
                assigneeUserID := "" |}
      else if (action =? actionReopened)%string then
        Some {| requestedUserID := "";
                authorUserID := permittedUserID p isPrivate repoName author;
                assigneeUserID := "" |}
      else if (action =? actionAssigned)%string then
        let assignee := IssuesEvent.Assignee event in
        if (assignee =? sender)%string then None
        else Some {| requestedUserID := ""; authorUserID := "";
                     assigneeUserID :=
                       permittedUserID p isPrivate repoName assignee |}
      else None in
    match targets with
    | None => []
    | Some targets =>
        match renderTemplate p "issueNotification" (EvIssues event) with
        | None => []
        | Some message =>
            postIssueNotification message (authorUserID targets)
              (assigneeUserID targets)
        end
    end.

Definition handlePullRequestReviewNotification (p : Plugin)
    (event : PullRequestReviewEvent.t) : list Effect :=
  let author := PullRequest.User (PullRequestReviewEvent.PullRequest event) in
  if (author =? PullRequestReviewEvent.Sender event)%string then []
  else if negb (PullRequestReviewEvent.Action event =? actionSubmitted)%string then []
  else
    let authorUserID := getGitHubToUserIDMapping p author in
    if (authorUserID =? "")%string then []
    else if GetPrivate (PullRequestReviewEvent.Repo event)
            && negb (permissionToRepo p authorUserID
                       (GetFullName (PullRequestReviewEvent.Repo event)))
    then []
    else
      match renderTemplate p "pullRequestReviewNotification"
              (EvPullRequestReview event) with
      | None => []
      | Some message =>
          [CreateBotDMPost authorUserID message "custom_git_review";
           sendRefreshEvent authorUserID]
      end.

(** ** [handleWebhook] *)

(** How the processing of an event ends: normally, with the effects issued,
    or in the nil-pointer panic of [*repo.FullName]. *)
Inductive Outcome :=
| Completed (effects : list Effect)
| Panicked.

Definition dispatched (o : Outcome) : list Effect :=
  match o with
  | Completed effects => effects
  | Panicked => []
  end.

(** [*repo.FullName]. *)
Definition deref_FullName (repo : option Repository.t) : option string :=
  match repo with
  | Some r => Repository.FullName r
  | None => None
  end.

(** The tail of [handleWebhook], after the type switch chose [repo] and
    [handler]. *)
Definition runHandler (p : Plugin) (repo : option Repository.t)
    (handler : list Effect) : Outcome :=
  match repo with
  | None => Completed []
  | Some _ =>
      if GetPrivate repo && negb (EnablePrivateRepo p) then Completed []
      else Completed handler
  end.

(** A case of the type switch that consults the kill-switch. *)
Definition guarded (p : Plugin) (kv : KVStore) (repo : option Repository.t)
    (handler : list Effect) : Outcome :=
  match deref_FullName repo with
  | None => Panicked
  | Some fullName =>
      if IsNotificationOff p kv fullName then Completed []
      else runHandler p repo handler
  end.

(** The type switch of [handleWebhook] and what follows it: the part of the
    function that runs once the signature has been accepted. *)
Definition dispatchEvent (p : Plugin) (kv : KVStore) (now : time.Time)
    (event : Event) : Outcome :=
  match event with
  | EvPullRequest event =>
      guarded p kv (PullRequestEvent.Repo event)
        (postPullRequestEvent p kv event
         ++ handlePullRequestNotification p event
         ++ handlePRDescriptionMentionNotification p event)
  | EvIssues event =>
      guarded p kv (IssuesEvent.Repo event)
        (postIssueEvent p kv now event
         ++ handleIssueNotification p event)
  | EvIssueComment event =>
      guarded p kv (IssueCommentEvent.Repo event)
        (postIssueCommentEvent p kv event
         ++ handleCommentMentionNotification p event
         ++ handleCommentAuthorNotification p kv event
         ++ handleCommentAssigneeNotification p kv event)
  | EvPullRequestReview event =>
      guarded p kv (PullRequestReviewEvent.Repo event)
        (postPullRequestReviewEvent p kv event
         ++ handlePullRequestReviewNotification p event)
  | EvPullRequestReviewComment event =>
      guarded p kv (PullRequestReviewCommentEvent.Repo event)
        (postPullRequestReviewCommentEvent p kv event)
  | EvPush event =>
      guarded p kv
        (Some (ConvertPushEventRepositoryToRepository (PushEvent.Repo event)))
        (postPushEvent p kv event)
  | EvCreate event =>
      guarded p kv (CreateEvent.Repo event) (postCreateEvent p kv event)
  | EvDelete event =>
      guarded p kv (DeleteEvent.Repo event) (postDeleteEvent p kv event)
  | EvStar event =>
      runHandler p (StarEvent.Repo event) (postStarEvent p kv event)
  | EvOther => Completed []
  end.

Record Request := {
  X_Hub_Signature : string;
  WebHookType : string;
  Body : option (list byte)     (* [None]: reading the body failed *)
}.

Record Response := {
  StatusCode : Z;
  outcome : Outcome
}.

Definition StatusOK : Z := 200.
Definition StatusBadRequest : Z := 400.
Definition StatusUnauthorized : Z := 401.
Definition StatusInternalServerError : Z := 500.

Definition httpError (code : Z) : Response :=
  {| StatusCode := code; outcome := Completed [] |}.

Definition handleWebhook (p : Plugin) (kv : KVStore) (now : time.Time)
    (r : Request) : Response :=
  let signature := X_Hub_Signature r in
  match Body r with
  | None => httpError StatusBadRequest
  | Some body =>
      match ParseWebHook p (WebHookType r) body with
      | None => httpError StatusBadRequest
      | Some event =>
          match (if EnableWebhookEventLogging p then MarshalError p event else None) with
          | Some _ => httpError StatusBadRequest
          | None =>
              match verifyWebhookSignature
                      (list_byte_of_string (WebhookSecret p)) signature body with
              | (_, Some _) => httpError StatusInternalServerError
              | (false, None) => httpError StatusUnauthorized
              | (true, None) =>
                  {| StatusCode := StatusOK;
                     outcome := dispatchEvent p kv now event |}
              end
          end
      end
  end.

(** ** A sample installation

    A concrete plugin and store on which the statements below are
    exercised: every account is connected and sees every repository, the
    chat identity of login [l] is [id-l], templates render to their name. *)

Definition noFlags : SubscriptionFlags :=
  {| Flags_ExcludeOrgMembers := false; Flags_ExcludeOrgRepos := false |}.

Definition sampleClient : GitHubClient :=
  {| Repositories_Get := fun _ _ => {| found := true; failed := false |};
     Organizations_Get := fun _ => {| found := true; failed := false |};
     Users_Get := fun _ => {| found := true; failed := false |} |}.

Definition samplePluginWith (kvGetError : string -> option error)
    (visible : string -> bool) : Plugin :=
  {| WebhookSecret := "It's a Secret to Everybody";
     EnablePrivateRepo := true;
     EnableWebhookEventLogging := false;
     GitHubOrg := "";
     BotUserID := "bot";
     getBaseURL := "https://github.com/";
     checkOrg := fun _ => None;
     isOrganizationLocked := false;
     parseOwnerAndRepo := fun full _ =>
       let parts := strings.Split full "/" in
       (hd EmptyString parts, nth 1 parts EmptyString);
     getGitHubUserInfo := fun userID =>
       if visible userID then Some {| UserID := userID; Token := "token" |}
       else None;
     githubConnectUser := fun _ => sampleClient;
     isUserOrganizationMember := fun _ _ _ => false;
     getGitHubToUserIDMapping := fun login =>
       if (login =? "")%string then EmptyString else "id-" +:+ login;
     parseGitHubUsernamesFromText := fun body =>
       if strings.Contains body "@bob" then ["bob"] else [];
     GetDirectChannel := fun userID _ => Some ("dm-" +:+ userID);
     renderTemplate := fun name _ => Some name;
     sanitizeDescription := fun description => description;
     ParseWebHook := fun _ _ => None;
     MarshalError := fun _ => None;
     KVGet_error := kvGetError;
     KVSet_error := fun _ => None |}.

Definition samplePlugin : Plugin :=
  samplePluginWith (fun _ => None) (fun _ => true).

Definition emptyStore : KVStore :=
  {| kv_subscriptions := None; kv_excluded := None; kv_muted := ∅ |}.

Definition sampleUser (userID : string) : GitHubUserInfo :=
  {| UserID := userID; Token := "token" |}.


(** ** The invariant of the subscription store *)

(** The list stored under a repository or organization key. *)
Definition storedFor (kv : KVStore) (repo : string) : list Subscription :=
  match kv_subscriptions kv with
  | None => []
  | Some subs => default [] (Repositories subs !! repo)
  end.

(** The subscriptions of a channel to a repository. *)
Definition subscriptionsOf (kv : KVStore) (channelID repo : string)
  : list Subscription :=
  filter (fun s => ChannelID s = channelID) (storedFor kv repo).

(** At most one subscription per (channelID, repository) pair. *)
Definition atMostOnePerChannel (kv : KVStore) : Prop :=
  forall repo, NoDup (ChannelID <$> storedFor kv repo).

(** The stores the plugin can be in: a store whose subscription document
    was never written, and whatever the writers of that document,
    [AddSubscription] (behind [Subscribe]) and [Unsubscribe], leave. *)
Inductive reachable : KVStore -> Prop :=
| reachable_initial kv :
    kv_subscriptions kv = None -> reachable kv
| reachable_AddSubscription p kv repo sub :
    reachable kv -> reachable (snd (AddSubscription p kv repo sub))
| reachable_Unsubscribe p kv channelID repo :
    reachable kv -> reachable (snd (Unsubscribe p kv channelID repo)).

(** The list [AddSubscription] computes for the key it was called for,
    from what the document held under that key. *)
Definition listAfterAdd (sub : Subscription) (previous : option (list Subscription))
  : list Subscription :=
  match previous with
  | None => [sub]
  | Some repoSubs =>
      let '(exists_, repoSubs') := replaceExisting sub repoSubs in
      if negb exists_ then repoSubs' ++ [sub] else repoSubs'
  end.

(** The raw entry of the subscription document under a key. *)
Definition entryFor (kv : KVStore) (repo : string) : option (list Subscription) :=
  match kv_subscriptions kv with
  | None => None
  | Some subs => Repositories subs !! repo
  end.

Definition sampleSubscription (channelID creatorID features repository : string)
  : Subscription :=
  {| ChannelID := channelID; CreatorID := creatorID; Features := features;
     Flags := noFlags; Repository := repository |}.

(** The candidate subscriptions of a repository: those stored under its
    lower-cased full name, then those stored under the key of its
    organization. *)
Definition candidateSubscriptions (kv : KVStore) (repo : option Repository.t)
  : list Subscription :=
  let name := strings.ToLower (GetFullName repo) in
  let org := hd EmptyString (strings.Split name "/") in
  storedFor kv name ++ storedFor kv (fullNameFromOwnerAndRepo org "").

(** A store where alice and mallory both subscribed channels to a
    repository of the organization "acme", and an installation in which
    mallory's account has no usable credential any more. *)
Definition acmeStore : KVStore :=
  {| kv_subscriptions :=
       Some {| Repositories :=
                 {[ "acme/widgets" :=
                      [sampleSubscription "town-square" "id-alice" "pulls,stars"
                         "acme/widgets"];
                    "acme/" :=
                      [sampleSubscription "off-topic" "id-mallory" "pulls,issues"
                         "acme/"] ]} |};
     kv_excluded := Some ["acme/widgets"];
     kv_muted := {[ mutedUsersKey "id-bob" := "alice" ]} |}.

Definition mallorySeesNothing : Plugin :=
  samplePluginWith (fun _ => None)
    (fun userID => negb (userID =? "id-mallory")%string).

Definition privateWidgets : option Repository.t :=
  Some {| Repository.FullName := Some "Acme/Widgets";
          Repository.Private := true |}.

Definition publicWidgets : option Repository.t :=
  Some {| Repository.FullName := Some "acme/widgets";
          Repository.Private := false |}.

(** ** What lets a subscription through the pull-request and issue loops *)

Record passesFilters (p : Plugin) (sender action eventLabel : string)
    (labels : list string) (sub : Subscription) : Prop := {
  passes_exclusion : excludeConfigOrgMember p sender sub = false;
  passes_label_filter :
    Label sub = EmptyString \/ containsLabel labels (Label sub) = true;
  passes_labeled :
    action = actionLabeled ->
    Label sub <> EmptyString /\ Label sub = eventLabel
}.

(** An effect is a post to the channel of one of [subs] that passes the
    filters. *)
Definition postedFor (p : Plugin) (sender action eventLabel : string)
    (labels : list string) (subs : list Subscription) (e : Effect) : Prop :=
  exists sub post,
    e = CreatePost post /\ sub ∈ subs /\ ChannelId post = ChannelID sub
    /\ passesFilters p sender action eventLabel labels sub.

Definition labelSubscription (channelID label : string) : Subscription :=
  sampleSubscription channelID "id-alice"
    ("pulls,issues,label:" +:+ quote +:+ label +:+ quote) "acme/widgets".

Definition bugStore : KVStore :=
  {| kv_subscriptions :=
       Some {| Repositories :=
                 {[ "acme/widgets" := [labelSubscription "triage" "bug"] ]} |};
     kv_excluded := None;
     kv_muted := ∅ |}.

Definition labeledPullRequest (eventLabel : string) : PullRequestEvent.t :=
  {| PullRequestEvent.Action := actionLabeled;
     PullRequestEvent.Repo := publicWidgets;
     PullRequestEvent.Sender := "alice";
     PullRequestEvent.PullRequest :=
       {| PullRequest.Labels := ["bug"; eventLabel];
          PullRequest.Body := "";
          PullRequest.User := "carol";
          PullRequest.Assignee := "" |};
     PullRequestEvent.Label := eventLabel;
     PullRequestEvent.RequestedReviewer := "" |}.

Definition labeledIssue (createdAt : time.Time) (eventLabel : string)
  : IssuesEvent.t :=
  {| IssuesEvent.Action := actionLabeled;
     IssuesEvent.Repo := publicWidgets;
     IssuesEvent.Sender := "alice";
     IssuesEvent.Issue :=
       {| Issue.CreatedAt := createdAt;
          Issue.Labels := ["bug"; eventLabel];
          Issue.User := "carol";
          Issue.Assignees := [];
          Issue.HTMLURL := "https://github.com/acme/widgets/issues/7" |};
     IssuesEvent.Label := eventLabel;
     IssuesEvent.Assignee := "" |}.

(** ** Hexadecimal text, as the signature header is specified *)

(** A hexadecimal digit of either case. *)
Definition isHexDigit (c : ascii) : bool :=
  existsb (Ascii.eqb c) (list_ascii_of_string "0123456789abcdefABCDEF").

Fixpoint allHexDigits (s : string) : bool :=
  match s with
  | EmptyString => true
  | String c s' => isHexDigit c && allHexDigits s'
  end.

(** ** Sample events for the kill-switch and the mute list *)

(** The [repo] variable as the type switch of [handleWebhook] sets it. *)
Definition switchRepository (event : Event) : option Repository.t :=
  match event with
  | EvPullRequest e => PullRequestEvent.Repo e
  | EvIssues e => IssuesEvent.Repo e
  | EvIssueComment e => IssueCommentEvent.Repo e
  | EvPullRequestReview e => PullRequestReviewEvent.Repo e
  | EvPullRequestReviewComment e => PullRequestReviewCommentEvent.Repo e
  | EvPush e => Some (ConvertPushEventRepositoryToRepository (PushEvent.Repo e))
  | EvCreate e => CreateEvent.Repo e
  | EvDelete e => DeleteEvent.Repo e
  | EvStar e => StarEvent.Repo e
  | EvOther => None
  end.

Definition isStarEvent (event : Event) : bool :=
  match event with
  | EvStar _ => true
  | _ => false
  end.

Definition starOfWidgets : StarEvent.t :=
  {| StarEvent.Repo := publicWidgets; StarEvent.Sender := "alice" |}.

(** Bob has muted alice; nobody subscribed to anything. *)
Definition bobMutedAlice : KVStore :=
  {| kv_subscriptions := None; kv_excluded := None;
     kv_muted := {[ mutedUsersKey "id-bob" := "alice" ]} |}.

(** Alice comments on her own issue and mentions bob. *)
Definition mentionByAlice : IssueCommentEvent.t :=
  {| IssueCommentEvent.Action := actionCreated;
     IssueCommentEvent.Repo := publicWidgets;
     IssueCommentEvent.Sender := "alice";
     IssueCommentEvent.Issue :=
       {| Issue.CreatedAt := 0;
          Issue.Labels := [];
          Issue.User := "alice";
          Issue.Assignees := [];
          Issue.HTMLURL := "https://github.com/acme/widgets/issues/7" |};
     IssueCommentEvent.CommentBody := "what do you think, @bob?" |}.

(** Alice comments on an issue bob wrote and is assigned to. *)
Definition commentOnBobsIssue : IssueCommentEvent.t :=
  {| IssueCommentEvent.Action := actionCreated;
     IssueCommentEvent.Repo := publicWidgets;
     IssueCommentEvent.Sender := "alice";
     IssueCommentEvent.Issue :=
       {| Issue.CreatedAt := 0;
          Issue.Labels := [];
          Issue.User := "bob";
          Issue.Assignees := ["bob"; "carol"];
          Issue.HTMLURL := "https://github.com/acme/widgets/issues/7" |};
     IssueCommentEvent.CommentBody := "done" |}.

(** Alice requests bob's review of her pull request. *)
Definition reviewRequestByAlice : PullRequestEvent.t :=
  {| PullRequestEvent.Action := "review_requested";
     PullRequestEvent.Repo := publicWidgets;
     PullRequestEvent.Sender := "alice";
     PullRequestEvent.PullRequest :=
       {| PullRequest.Labels := [];
          PullRequest.Body := "";
          PullRequest.User := "alice";
          PullRequest.Assignee := "" |};
     PullRequestEvent.Label := "";
     PullRequestEvent.RequestedReviewer := "bob" |}.

(** Alice assigns to bob an issue that carol wrote. *)
Definition assignmentByAlice : IssuesEvent.t :=
  {| IssuesEvent.Action := actionAssigned;
     IssuesEvent.Repo := publicWidgets;
     IssuesEvent.Sender := "alice";
     IssuesEvent.Issue :=
       {| Issue.CreatedAt := 0;
          Issue.Labels := [];
          Issue.User := "carol";
          Issue.Assignees := ["bob"];
          Issue.HTMLURL := "https://github.com/acme/widgets/issues/8" |};
     IssuesEvent.Label := "";
     IssuesEvent.Assignee := "bob" |}.

(** ** The handler closures of [handleWebhook], by halves *)

(** The first call of each handler closure: the channel fan-out. *)
Definition channelFanOut (p : Plugin) (kv : KVStore) (now : time.Time)
    (event : Event) : list Effect :=
  match event with
  | EvPullRequest e => postPullRequestEvent p kv e
  | EvIssues e => postIssueEvent p kv now e
  | EvIssueComment e => postIssueCommentEvent p kv e
  | EvPullRequestReview e => postPullRequestReviewEvent p kv e
  | EvPullRequestReviewComment e => postPullRequestReviewCommentEvent p kv e
  | EvPush e => postPushEvent p kv e
  | EvCreate e => postCreateEvent p kv e
  | EvDelete e => postDeleteEvent p kv e
  | EvStar e => postStarEvent p kv e
  | EvOther => []
  end.

(** The remaining calls of each handler closure: the actor notifications. *)
Definition actorNotifications (p : Plugin) (kv : KVStore) (event : Event)
  : list Effect :=
  match event with
  | EvPullRequest e =>
      handlePullRequestNotification p e
      ++ handlePRDescriptionMentionNotification p e
  | EvIssues e => handleIssueNotification p e
  | EvIssueComment e =>
      handleCommentMentionNotification p e
      ++ handleCommentAuthorNotification p kv e
      ++ handleCommentAssigneeNotification p kv e
  | EvPullRequestReview e => handlePullRequestReviewNotification p e
  | _ => []
  end.

(** The sender login of an event. *)
Definition eventSender (event : Event) : string :=
  match event with
  | EvPullRequest e => PullRequestEvent.Sender e
  | EvIssues e => IssuesEvent.Sender e
  | EvIssueComment e => IssueCommentEvent.Sender e
  | EvPullRequestReview e => PullRequestReviewEvent.Sender e
  | EvPullRequestReviewComment e => PullRequestReviewCommentEvent.Sender e
  | EvPush e => PushEvent.Sender e
  | EvCreate e => CreateEvent.Sender e
  | EvDelete e => DeleteEvent.Sender e
  | EvStar e => StarEvent.Sender e
  | EvOther => EmptyString
  end.

(** The events a channel fan-out goes on with, once subscriptions were
    found: the accepted actions, reference types and review states, and a
    push that carries commits. *)
Definition eligible (event : Event) : bool :=
  match event with
  | EvPullRequest e =>
      let action := PullRequestEvent.Action e in
      (action =? actionOpened)%string || (action =? actionLabeled)%string
      || (action =? actionClosed)%string
  | EvIssues e =>
      let action := IssuesEvent.Action e in
      (action =? actionOpened)%string || (action =? actionClosed)%string
      || (action =? actionReopened)%string || (action =? actionLabeled)%string
  | EvIssueComment e => (IssueCommentEvent.Action e =? actionCreated)%string
  | EvPullRequestReview e =>
      let state := PullRequestReviewEvent.ReviewState e in
      (PullRequestReviewEvent.Action e =? actionSubmitted)%string
      && ((state =? "APPROVED")%string || (state =? "COMMENTED")%string
          || (state =? "CHANGES_REQUESTED")%string)
  | EvPullRequestReviewComment _ => true
  | EvPush e => negb (length (PushEvent.Commits e) =? 0)%nat
  | EvCreate e =>
      (CreateEvent.RefType e =? "tag")%string
      || (CreateEvent.RefType e =? "branch")%string
  | EvDelete e =>
      (DeleteEvent.RefType e =? "tag")%string
      || (DeleteEvent.RefType e =? "branch")%string
  | EvStar _ => true
  | EvOther => false
  end.


(** The plugin with another payload parser. *)
Definition withParseWebHook (p : Plugin)
    (parse : string -> list byte -> option Event) : Plugin :=
  {| WebhookSecret := WebhookSecret p;
     EnablePrivateRepo := EnablePrivateRepo p;
     EnableWebhookEventLogging := EnableWebhookEventLogging p;
     GitHubOrg := GitHubOrg p;
     BotUserID := BotUserID p;
     getBaseURL := getBaseURL p;
     checkOrg := checkOrg p;
     isOrganizationLocked := isOrganizationLocked p;
     parseOwnerAndRepo := parseOwnerAndRepo p;
     getGitHubUserInfo := getGitHubUserInfo p;
     githubConnectUser := githubConnectUser p;
     isUserOrganizationMember := isUserOrganizationMember p;
     getGitHubToUserIDMapping := getGitHubToUserIDMapping p;
     parseGitHubUsernamesFromText := parseGitHubUsernamesFromText p;
     GetDirectChannel := GetDirectChannel p;
     renderTemplate := renderTemplate p;
     sanitizeDescription := sanitizeDescription p;
     ParseWebHook := parse;
     MarshalError := MarshalError p;
     KVGet_error := KVGet_error p;
     KVSet_error := KVSet_error p |}.

(** A sample installation that decodes every "star" payload to a star of
    acme/widgets, and a request signed with its secret. *)
Definition starringPlugin : Plugin :=
  withParseWebHook samplePlugin
    (fun webHookType _ =>
       if (webHookType =? "star")%string then Some (EvStar starOfWidgets)
       else None).

Definition signedStarRequest : Request :=
  {| X_Hub_Signature := "sha1=01dc10d0c83e72ed246219cdd91669667fe2ca59";
     WebHookType := "star";
     Body := Some (list_byte_of_string "Hello, World!") |}.

Definition privateStar : StarEvent.t :=
  {| StarEvent.Repo := privateWidgets; StarEvent.Sender := "alice" |}.

(** The sample installation with private repositories switched off. *)
Definition publicOnlyPlugin : Plugin :=
  {| WebhookSecret := WebhookSecret samplePlugin;
     EnablePrivateRepo := false;
     EnableWebhookEventLogging := EnableWebhookEventLogging samplePlugin;
     GitHubOrg := GitHubOrg samplePlugin;
     BotUserID := BotUserID samplePlugin;
     getBaseURL := getBaseURL samplePlugin;
     checkOrg := checkOrg samplePlugin;
     isOrganizationLocked := isOrganizationLocked samplePlugin;
     parseOwnerAndRepo := parseOwnerAndRepo samplePlugin;
     getGitHubUserInfo := getGitHubUserInfo samplePlugin;
     githubConnectUser := githubConnectUser samplePlugin;
     isUserOrganizationMember := isUserOrganizationMember samplePlugin;
     getGitHubToUserIDMapping := getGitHubToUserIDMapping samplePlugin;
     parseGitHubUsernamesFromText := parseGitHubUsernamesFromText samplePlugin;
     GetDirectChannel := GetDirectChannel samplePlugin;
     renderTemplate := renderTemplate samplePlugin;
     sanitizeDescription := sanitizeDescription samplePlugin;
     ParseWebHook := ParseWebHook samplePlugin;
     MarshalError := MarshalError samplePlugin;
     KVGet_error := KVGet_error samplePlugin;
     KVSet_error := KVSet_error samplePlugin |}.

(** ** What a channel post of the fan-out rests on *)

(** The feature gate of the loop that serves an event kind. *)
Definition fanOutGate (event : Event) (sub : Subscription) : Prop :=
  match event with
  | EvPullRequest e =>
      (Pulls sub = true \/ PullsMerged sub = true)
      /\ (PullsMerged sub = true -> PullRequestEvent.Action e = actionClosed)
  | EvIssues e =>
      (Issues sub = true \/ IssueCreations sub = true)
      /\ (IssueCreations sub = true -> IssuesEvent.Action e = actionOpened)
  | EvIssueComment _ => IssueComments sub = true
  | EvPullRequestReview _ => PullReviews sub = true
  | EvPullRequestReviewComment _ => PullReviews sub = true
  | EvPush _ => Pushes sub = true
  | EvCreate _ => Creates sub = true
  | EvDelete _ => Deletes sub = true
  | EvStar _ => Stars sub = true
  | EvOther => False
  end.

(** The labels of the issue or pull request of an event, for the kinds
    whose loop applies the label filter. *)
Definition eventLabels (event : Event) : option (list string) :=
  match event with
  | EvPullRequest e => Some (PullRequest.Labels (PullRequestEvent.PullRequest e))
  | EvIssues e => Some (Issue.Labels (IssuesEvent.Issue e))
  | EvIssueComment e => Some (Issue.Labels (IssueCommentEvent.Issue e))
  | EvPullRequestReview e =>
      Some (PullRequest.Labels (PullRequestReviewEvent.PullRequest e))
  | EvPullRequestReviewComment e =>
      Some (PullRequest.Labels (PullRequestReviewCommentEvent.PullRequest e))
  | _ => None
  end.

Record fanOutOrigin (p : Plugin) (kv : KVStore) (event : Event) (e : Effect)
    (sub : Subscription) (post : Post) : Prop := {
  origin_effect : e = CreatePost post;
  origin_subscription :
    sub ∈ GetSubscribedChannelsForRepository p kv (switchRepository event);
  origin_channel : ChannelId post = ChannelID sub;
  origin_author : UserId post = BotUserID p;
  origin_gate : fanOutGate event sub;
  origin_exclusion : excludeConfigOrgMember p (eventSender event) sub = false;
  origin_label :
    match eventLabels event with
    | Some labels => Label sub = EmptyString \/ Label sub ∈ labels
    | None => True
    end
}.


Definition openedPullRequest (labels : list string) (sender : string)
  : PullRequestEvent.t :=
  {| PullRequestEvent.Action := actionOpened;
     PullRequestEvent.Repo := publicWidgets;
     PullRequestEvent.Sender := sender;
     PullRequestEvent.PullRequest :=
       {| PullRequest.Labels := labels;
          PullRequest.Body := "";
          PullRequest.User := sender;
          PullRequest.Assignee := "" |};
     PullRequestEvent.Label := "";
     PullRequestEvent.RequestedReviewer := "" |}.

Definition editedPullRequest : PullRequestEvent.t :=
  {| PullRequestEvent.Action := actionEdited;
     PullRequestEvent.Repo := publicWidgets;
     PullRequestEvent.Sender := "alice";
     PullRequestEvent.PullRequest :=
       {| PullRequest.Labels := ["bug"];
          PullRequest.Body := "";
          PullRequest.User := "alice";
          PullRequest.Assignee := "" |};
     PullRequestEvent.Label := "";
     PullRequestEvent.RequestedReviewer := "" |}.

(** ** Who an actor notification reaches *)



Definition isDirectMessage (e : Effect) : bool :=
  match e with
  | CreateBotDMPost _ _ _ => true
  | _ => false
  end.

(** The guard of [postIssueEvent] lets an event through: it is not a
    labeling, or the issue is at least 4 seconds old (and its age fits a
    [Duration]). *)
Definition guardOpen (now : time.Time) (event : IssuesEvent.t) : Prop :=
  IssuesEvent.Action event <> actionLabeled
  \/ 4 * time.Second <= now - Issue.CreatedAt (IssuesEvent.Issue event) < 2 ^ 63.

Definition editedComment : IssueCommentEvent.t :=
  {| IssueCommentEvent.Action := actionEdited;
     IssueCommentEvent.Repo := publicWidgets;
     IssueCommentEvent.Sender := "alice";
     IssueCommentEvent.Issue :=
       {| Issue.CreatedAt := 0;
          Issue.Labels := [];
          Issue.User := "bob";
          Issue.Assignees := ["carol"];
          Issue.HTMLURL := "https://github.com/acme/widgets/issues/7" |};
     IssueCommentEvent.CommentBody := "typo fixed, @bob" |}.


(** ** The rest of the subscription, mute and repository-name code *)

(** [p.API.KVSet(SubscribedRepoNotificationOff, b)] with [b] the marshalled
    list. *)
Definition KVSet_excluded (p : Plugin) (kv : KVStore) (repoNames : list string)
  : option error * KVStore :=
  match KVSet_error p SubscribedRepoNotificationOff with
  | Some appErr =>
      (Some (Wrap appErr "could not store subscriptions in KV store"), kv)
  | None =>
      (None, {| kv_subscriptions := kv_subscriptions kv;
                kv_excluded := Some repoNames;
                kv_muted := kv_muted kv |})
  end.

Definition StoreExcludedNotificationRepo (p : Plugin) (kv : KVStore) (s : string)
  : option error * KVStore :=
  match GetExcludedNotificationRepos p kv with
  | inl err => (Some (Wrap err "error while getting previous value of key"), kv)
  | inr repoNames =>
      let isDer := fst (ItemExists repoNames s) in
      let repoNames :=
        if (0 <? length repoNames)%nat && negb isDer then repoNames ++ [s]
        else if (length repoNames =? 0)%nat then repoNames ++ [s]
        else repoNames in
      KVSet_excluded p kv repoNames
  end.

(** [append(repoNames[:index], repoNames[index+1:]...)]. *)
Definition removeAt (index : Z) (repoNames : list string) : list string :=
  take (Z.to_nat index) repoNames ++ drop (Z.to_nat index + 1) repoNames.

Definition EnableNotificationTurnedOffRepo (p : Plugin) (kv : KVStore) (s : string)
  : option error * KVStore :=
  match GetExcludedNotificationRepos p kv with
  | inl err => (Some (Wrap err "error while getting previous value of key"), kv)
  | inr repoNames =>
      if (0 <? length repoNames)%nat then
        let '(exists_, index) := ItemExists repoNames s in
        if exists_ then KVSet_excluded p kv (removeAt index repoNames)
        else (None, kv)
      else (None, kv)
  end.

Definition handleUnsubscribe (p : Plugin) (kv : KVStore) (channelId : string)
    (parameters : list string) : string * KVStore :=
  match parameters with
  | [] => ("Please specify a repository.", kv)
  | repo :: _ =>
      match EnableNotificationTurnedOffRepo p kv repo with
      | (Some _, kv') =>
          ("Encountered an error trying to remove from notify disabled list. Please try again.",
           kv')
      | (None, kv') =>
          match Unsubscribe p kv' channelId repo with
          | (Some _, kv'') =>
              ("Encountered an error trying to unsubscribe. Please try again.", kv'')
          | (None, kv'') =>
              ("Successfully unsubscribed from " +:+ repo +:+ ".", kv'')
          end
      end
  end.

(** [arrayDifference]: the elements of [a] that are not in [b]; the
    lookup table built from [b] is a set. *)
Definition arrayDifference (a b : list string) : list string :=
  let mb : gset string := list_to_set b in
  filter (fun x => x ∉ mb) a.

Definition handleUnmute (p : Plugin) (kv : KVStore) (username : string)
    (userInfo : GitHubUserInfo) : string * KVStore :=
  let mutedUsernames := getMutedUsernames p kv userInfo in
  let userToMute := [username] in
  let newMutedList := arrayDifference mutedUsernames userToMute in
  match KVSet_muted p kv (UserID userInfo) (strings.Join newMutedList ",") with
  | (Some _, kv') => ("Error occurred unmuting users", kv')
  | (None, kv') => ("`" +:+ username +:+ "`" +:+ " is no longer muted", kv')
  end.

Definition handleUnmuteAll (p : Plugin) (kv : KVStore) (userInfo : GitHubUserInfo)
  : string * KVStore :=
  match KVSet_muted p kv (UserID userInfo) "" with
  | (Some _, kv') => ("Error occurred unmuting users", kv')
  | (None, kv') => ("Unmuted all users", kv')
  end.

Definition handleMuteList (p : Plugin) (kv : KVStore) (userInfo : GitHubUserInfo)
  : string :=
  let mutedUsernames := getMutedUsernames p kv userInfo in
  let mutedUsers :=
    fold_left (fun text user => text +:+ "- " +:+ user +:+ newline)
      mutedUsernames EmptyString in
  if (String.length mutedUsers =? 0)%nat then "You have no muted users"
  else "Your muted users:" +:+ newline +:+ mutedUsers.

Definition subCommandList : string := "list".
Definition subCommandView : string := "view".
Definition subCommandAdd : string := "add".
Definition subCommandDelete : string := "delete".
Definition subCommandDeleteAll : string := "delete-all".

Definition handleMuteCommand (p : Plugin) (kv : KVStore) (parameters : list string)
    (userInfo : GitHubUserInfo) : string * KVStore :=
  match parameters with
  | [] =>
      ("Invalid mute command. Available commands are 'list', 'add' and 'delete'.",
       kv)
  | command :: _ =>
      if (command =? subCommandList)%string then (handleMuteList p kv userInfo, kv)
      else if (command =? subCommandAdd)%string then
        if negb (length parameters =? 2)%nat
        then ("Invalid number of parameters supplied to " +:+ command, kv)
        else handleMuteAdd p kv (nth 1 parameters EmptyString) userInfo
      else if (command =? subCommandDelete)%string then
        if negb (length parameters =? 2)%nat
        then ("Invalid number of parameters supplied to " +:+ command, kv)
        else handleUnmute p kv (nth 1 parameters EmptyString) userInfo
      else if (command =? subCommandDeleteAll)%string then
        handleUnmuteAll p kv userInfo
      else ("Unknown subcommand " +:+ command, kv)
  end.

(** The table [validFeatures]; a feature is known when it is a key. *)
Definition validFeatures : gmap string bool :=
  list_to_map
    [(featureIssueCreation, true); (featureIssues, true); (featurePulls, true);
     (featurePushes, true); (featureCreates, true); (featureDeletes, true);
     (featureIssueComments, true); (featurePullReviews, true);
     (featureStars, true)].

(** The first loop of [validateFeatures]: [valid], [invalidFeatures] and
    [hasLabel] after the scan. *)
Fixpoint validateFeatures_scan (features : list string) (valid : bool)
    (invalidFeatures : list string) (hasLabel : bool)
  : bool * list string * bool :=
  match features with
  | [] => (valid, invalidFeatures, hasLabel)
  | f :: rest =>
      match validFeatures !! f with
      | Some _ => validateFeatures_scan rest valid invalidFeatures hasLabel
      | None =>
          if strings.HasPrefix f "label"
          then validateFeatures_scan rest valid invalidFeatures true
          else validateFeatures_scan rest false (invalidFeatures ++ [f]) hasLabel
      end
  end.

(** The second loop: is "pulls" or "issues" among the features? *)
Fixpoint hasPullsOrIssues (features : list string) : bool :=
  match features with
  | [] => false
  | f :: rest =>
      if (f =? featurePulls)%string || (f =? featureIssues)%string then true
      else hasPullsOrIssues rest
  end.

Definition validateFeatures (features : list string) : bool * list string :=
  let '(valid, invalidFeatures, hasLabel) :=
    validateFeatures_scan features true [] false in
  if valid && hasLabel then
    if hasPullsOrIssues features then (valid, invalidFeatures)
    else (false, invalidFeatures)
  else (valid, invalidFeatures).

(** [parseRepo]. *)
Definition parseRepo (repoParam : string) : error + string * string :=
  if (repoParam =? "")%string then inl "repository cannot be blank"
  else
    let splitted := strings.Split repoParam "/" in
    if negb (length splitted =? 2)%nat then inl "invalid repository"
    else inr (nth 0 splitted EmptyString, nth 1 splitted EmptyString).

(** [getRepoOwnerAndNameFromURL]; [None] is the index-out-of-range panic
    of [splitted[len(splitted)-2]] for a text without a slash. *)
Definition getRepoOwnerAndNameFromURL (url : string) : option (string * string) :=
  let splitted := strings.Split url "/" in
  if (length splitted <? 2)%nat then None
  else Some (nth (length splitted - 2) splitted EmptyString,
             nth (length splitted - 1) splitted EmptyString).

(** ** Sample values for the code above *)

Definition slash : ascii := ascii_of_nat 47.
Definition comma : ascii := ascii_of_nat 44.
Definition doubleQuote : ascii := ascii_of_nat 34.

Definition carolAndDave : KVStore :=
  {| kv_subscriptions := None; kv_excluded := Some ["acme/widgets"; "acme/gears"];
     kv_muted := {[ mutedUsersKey "id-bob" := "carol,dave" ]} |}.

Definition mixedCaseWidgets : option Repository.t :=
  Some {| Repository.FullName := Some "Acme/Widgets";
          Repository.Private := false |}.

(** A client for which every lookup fails. *)
Definition failingClient : GitHubClient :=
  {| Repositories_Get := fun _ _ => {| found := false; failed := true |};
     Organizations_Get := fun _ => {| found := false; failed := true |};
     Users_Get := fun _ => {| found := false; failed := true |} |}.

(** The notification-disabled list as stored. *)
Definition excludedList (kv : KVStore) : list string :=
  default [] (kv_excluded kv).

(** The list read back from a stored text. *)
Definition usernamesOf (stored : string) : list string :=
  if (String.length stored =? 0)%nat then [] else strings.Split stored ",".

(** The mute list of a user as the store holds it: the names of the
    comma-separated text under the user's key. *)
Definition mutedList (kv : KVStore) (userID : string) : list string :=
  usernamesOf (default EmptyString (kv_muted kv !! mutedUsersKey userID)).

(** A feature [validateFeatures] reports: neither in the table nor a
    label filter. *)
Definition unknownFeature (f : string) : bool :=
  match validFeatures !! f with
  | Some _ => false
  | None => negb (strings.HasPrefix f "label")
  end.

(** * Properties *)

(** ** Test vectors for the library models *)

Example sha1_abc :
  hex.EncodeToString (sha1.Sum (list_byte_of_string "abc"))
  = "a9993e364706816aba3e25717850c26c9cd0d89d".
Proof. vm_compute. reflexivity. Qed.

Example hmac_sha1_fox :
  hex.EncodeToString
    (hmac.Sum (list_byte_of_string "key")
       (list_byte_of_string "The quick brown fox jumps over the lazy dog"))
  = "de7c9b85b8b78aa6bc8a7a36f70a90701c9db4d9".
Proof. vm_compute. reflexivity. Qed.

Example Split_commas : strings.Split "a,b,,c" "," = ["a"; "b"; ""; "c"].
Proof. reflexivity. Qed.

Example Split_long_separator : strings.Split "x--y--" "--" = ["x"; "y"; ""].
Proof. reflexivity. Qed.

Example Label_of_features :
  Label {| ChannelID := "c"; CreatorID := "u";
           Features := "pulls,label:" +:+ quote +:+ "bug" +:+ quote;
           Flags := {| Flags_ExcludeOrgMembers := false;
                       Flags_ExcludeOrgRepos := false |};
           Repository := "o/r" |} = "bug".
Proof. reflexivity. Qed.

(** ** Strings: prefixes and substrings *)

Section StringFacts.

Lemma append_cons (x : ascii) (a b : string) :
  String x a +:+ b = String x (a +:+ b).
Proof. reflexivity. Qed.

Lemma append_empty_l (a : string) : "" +:+ a = a.
Proof. reflexivity. Qed.

Lemma append_assoc (a b c : string) : (a +:+ b) +:+ c = a +:+ (b +:+ c).
Proof.
  induction a as [|x a IH]; [reflexivity |].
  now rewrite !append_cons, IH.
Qed.

Lemma append_empty_r (a : string) : a +:+ "" = a.
Proof.
  induction a as [|x a IH]; [reflexivity |].
  now rewrite append_cons, IH.
Qed.

Lemma HasPrefix_spec (s t : string) :
  strings.HasPrefix s t = true <-> exists r, s = t +:+ r.
Proof.
  unfold strings.HasPrefix. revert s.
  induction t as [|c t IH]; intros s.
  - split; [intros _; now exists s | now destruct s].
  - destruct s as [|d s]; simpl.
    + split; [discriminate | intros [r Hr]; discriminate].
    + destruct (Ascii.ascii_dec c d) as [->|Hne].
      * rewrite IH. split; intros [r Hr]; exists r;
          rewrite ?append_cons in *; congruence.
      * split; [discriminate |].
        intros [r Hr]. rewrite append_cons in Hr. congruence.
Qed.

Lemma Contains_empty (t : string) :
  strings.Contains "" t = strings.HasPrefix "" t || false.
Proof. reflexivity. Qed.

Lemma Contains_String (c : ascii) (s t : string) :
  strings.Contains (String c s) t
  = strings.HasPrefix (String c s) t || strings.Contains s t.
Proof. reflexivity. Qed.

Lemma Contains_spec (s t : string) :
  strings.Contains s t = true <-> exists a b, s = a +:+ t +:+ b.
Proof.
  induction s as [|c s IH]; [rewrite Contains_empty | rewrite Contains_String].
  - rewrite orb_false_r, HasPrefix_spec. split.
    + intros [r Hr]. now exists ""%string, r.
    + intros [a [b Hab]]. destruct a as [|d a].
      * now exists b.
      * rewrite append_cons in Hab. discriminate.
  - rewrite orb_true_iff, HasPrefix_spec, IH. split.
    + intros [[r Hr] | [a [b Hab]]].
      * now exists ""%string, r.
      * exists (String c a), b. rewrite append_cons. now rewrite Hab.
    + intros [a [b Hab]]. destruct a as [|d a].
      * left. now exists b.
      * right. exists a, b. rewrite append_cons in Hab. congruence.
Qed.

(** A substring of a substring is a substring. *)
Lemma Contains_trans (s t u : string) :
  strings.Contains s t = true -> strings.Contains t u = true ->
  strings.Contains s u = true.
Proof.
  rewrite !Contains_spec. intros [a [b ->]] [a' [b' ->]].
  exists (a +:+ a'), (b' +:+ b). now rewrite !append_assoc.
Qed.

Lemma Contains_empty_l (t : string) :
  strings.Contains "" t = (t =? "")%string.
Proof. destruct t; reflexivity. Qed.


End StringFacts.

(** ** Feature predicates (C10) *)

Lemma pulls_in_pulls_merged : strings.Contains "pulls_merged" featurePulls = true.
Proof. reflexivity. Qed.

(** C10.  The feature predicates are substring tests on the comma-joined
    features string: a subscription whose features contain "pulls_merged"
    also answers true to [Pulls], since "pulls" occurs in "pulls_merged".
    The two gates are told apart only in the fan-out loop of
    [postPullRequestEvent]: such a subscription is skipped for every action
    other than "closed". *)
Theorem pulls_merged_is_pulls (sub : Subscription) :
  strings.Contains (Features sub) "pulls_merged" = true ->
  PullsMerged sub = true
  /\ Pulls sub = true
  /\ forall p event action eventLabel labels newPRMessage closedPRMessage post rest,
       action <> actionClosed ->
       postPullRequestEvent_loop p event action eventLabel labels
         newPRMessage closedPRMessage post (sub :: rest)
       = postPullRequestEvent_loop p event action eventLabel labels
           newPRMessage closedPRMessage post rest.
Proof.
  intros Hmerged. split; [exact Hmerged |]. split.
  - unfold Pulls. eapply Contains_trans; [exact Hmerged | exact pulls_in_pulls_merged].
  - intros p event action eventLabel labels newPR closedPR post rest Hne.
    apply String.eqb_neq in Hne. simpl.
    unfold PullsMerged. rewrite Hmerged, Hne. simpl.
    now rewrite andb_false_r.
Qed.

Lemma pulls_merged_is_pulls_witness :
  Pulls {| ChannelID := "town-square"; CreatorID := "u1";
           Features := "pulls_merged"; Flags := noFlags;
           Repository := "acme/widgets" |} = true.
Proof.
  refine (proj1 (proj2 (pulls_merged_is_pulls _ _))). reflexivity.
Defined.

(** ** Mute lists (C9) *)

Section Mute.

Lemma rev_string_append (cur : list ascii) (t : string) :
  strings.rev_string cur t = strings.rev_string cur "" +:+ t.
Proof.
  revert t. induction cur as [|c cur IH]; intros t; [reflexivity |].
  simpl. rewrite IH, (IH (String c "")), append_assoc. reflexivity.
Qed.

(** Every field produced by splitting on a comma is a piece of the text. *)
Lemma split_comma_piece (s : string) :
  forall cur e,
    In e (strings.split_loop "," 0 cur s) ->
    exists a b, strings.rev_string cur s = a +:+ e +:+ b.
Proof.
  induction s as [|c s IH]; intros cur e Hin.
  - destruct Hin as [<- | []].
    exists ""%string, ""%string. now rewrite append_empty_l, append_empty_r.
  - cbn [strings.split_loop] in Hin.
    destruct (strings.HasPrefix (String c s) ",") eqn:Hp.
    + destruct Hin as [<- | Hin].
      * exists ""%string, (String c s).
        now rewrite append_empty_l, <- rev_string_append.
      * change (String.length "," - 1)%nat with 0%nat in Hin.
        destruct (IH [] e Hin) as [a [b Hab]]. simpl in Hab.
        exists (strings.rev_string cur "" +:+ String c a), b.
        rewrite rev_string_append, Hab, !append_assoc.
        now rewrite append_cons.
    + destruct (IH (c :: cur) e Hin) as [a [b Hab]].
      exists a, b. exact Hab.
Qed.




End Mute.




(** ** Subscribing (C8, C6) *)

(** C8.  A subscribe operation that carries the exclude-org-member flag
    while the installation is not locked to one organization returns an
    error and leaves the store as it was. *)
Theorem Subscribe_exclude_org_member_unlocked (p : Plugin) (kv : KVStore)
    (githubClient : GitHubClient) (userID owner repo channelID features : string)
    (flags : SubscriptionFlags) :
  Flags_ExcludeOrgMembers flags = true ->
  isOrganizationLocked p = false ->
  exists err,
    Subscribe p kv githubClient userID owner repo channelID features flags
    = (Some err, kv).
Proof.
  intros Hflag Hlock. unfold Subscribe.
  destruct (owner =? "")%string; [eauto |].
  destruct (checkOrg p (strings.ToLower owner)); [eauto |].
  rewrite Hflag, Hlock. simpl. eauto.
Qed.

Lemma Subscribe_exclude_org_member_unlocked_witness :
  exists err,
    Subscribe samplePlugin emptyStore sampleClient "id-alice" "Acme" "widgets"
      "town-square" "pulls"
      {| Flags_ExcludeOrgMembers := true; Flags_ExcludeOrgRepos := false |}
    = (Some err, emptyStore).
Proof.
  apply Subscribe_exclude_org_member_unlocked; reflexivity.
Defined.

Section Store.

Lemma replaceExisting_found (sub : Subscription) (l l' : list Subscription) :
  replaceExisting sub l = (true, l') ->
  ChannelID <$> l' = ChannelID <$> l /\ length l' = length l /\ sub ∈ l'.
Proof.
  revert l'. induction l as [|s l IH]; intros l'; simpl; [discriminate |].
  destruct (String.eqb_spec (ChannelID s) (ChannelID sub)) as [Heq | Hne].
  - intros [= <-]. rewrite !fmap_cons, Heq. repeat split. apply list_elem_of_here.
  - destruct (replaceExisting sub l) as [e r] eqn:Hr. intros [= -> <-].
    destruct (IH r eq_refl) as (Hc & Hl & Hin).
    rewrite !fmap_cons, !length_cons, Hc, Hl. repeat split.
    now apply list_elem_of_further.
Qed.

Lemma replaceExisting_absent (sub : Subscription) (l l' : list Subscription) :
  replaceExisting sub l = (false, l') ->
  l' = l /\ ChannelID sub ∉ ChannelID <$> l.
Proof.
  revert l'. induction l as [|s l IH]; intros l'; simpl.
  - intros [= <-]. split; [reflexivity | apply not_elem_of_nil].
  - destruct (String.eqb_spec (ChannelID s) (ChannelID sub)) as [Heq | Hne];
      [discriminate |].
    destruct (replaceExisting sub l) as [e r] eqn:Hr. intros [= -> <-].
    destruct (IH r eq_refl) as [-> Hnot]. split; [reflexivity |].
    rewrite not_elem_of_cons. split; [congruence | exact Hnot].
Qed.

(** The overwrite happens at the position of the existing entry. *)
Lemma replaceExisting_in_place (sub old : Subscription) (l : list Subscription)
    (i : nat) :
  NoDup (ChannelID <$> l) ->
  l !! i = Some old -> ChannelID old = ChannelID sub ->
  replaceExisting sub l = (true, <[i := sub]> l).
Proof.
  revert i. induction l as [|s l IH]; intros i Hnd Hi Hch; [discriminate |].
  simpl. rewrite fmap_cons, NoDup_cons in Hnd. destruct Hnd as [Hs Hnd].
  destruct (String.eqb_spec (ChannelID s) (ChannelID sub)) as [Heq | Hne].
  - destruct i as [|i]; [reflexivity |]. exfalso. apply Hs.
    rewrite Heq, <- Hch. apply list_elem_of_fmap_2.
    eapply list_elem_of_lookup_2. exact Hi.
  - destruct i as [|i]; [simpl in Hi; congruence |].
    simpl in Hi. now rewrite (IH i Hnd Hi Hch).
Qed.

Lemma filter_channel_absent (c : string) (l : list Subscription) :
  c ∉ ChannelID <$> l -> filter (fun s => ChannelID s = c) l = [].
Proof.
  induction l as [|s l IH]; [reflexivity |].
  rewrite fmap_cons, not_elem_of_cons. intros [Hne Hnot].
  rewrite filter_cons_False by congruence. now apply IH.
Qed.

Lemma replaceExisting_single (sub : Subscription) (l l' : list Subscription) :
  NoDup (ChannelID <$> l) ->
  replaceExisting sub l = (true, l') ->
  filter (fun s => ChannelID s = ChannelID sub) l' = [sub].
Proof.
  revert l'. induction l as [|s l IH]; intros l' Hnd; simpl; [discriminate |].
  rewrite fmap_cons, NoDup_cons in Hnd. destruct Hnd as [Hs Hnd].
  destruct (String.eqb_spec (ChannelID s) (ChannelID sub)) as [Heq | Hne].
  - intros [= <-]. rewrite filter_cons_True by reflexivity.
    rewrite filter_channel_absent; [reflexivity | now rewrite <- Heq].
  - destruct (replaceExisting sub l) as [e r] eqn:Hr. intros [= -> <-].
    rewrite filter_cons_False by exact Hne. now apply IH.
Qed.

Lemma removeFirst_sublist (c : string) (l : list Subscription) :
  sublist (snd (removeFirst c l)) l.
Proof.
  induction l as [|s l IH]; simpl; [constructor |].
  destruct (ChannelID s =? c)%string; simpl.
  - now apply sublist_cons.
  - destruct (removeFirst c l) as [e r]. simpl in *. now apply sublist_skip.
Qed.

Lemma storedFor_stored (kv : KVStore) (subs : Subscriptions) (repo : string) :
  storedFor {| kv_subscriptions := Some subs; kv_excluded := kv_excluded kv;
               kv_muted := kv_muted kv |} repo
  = default [] (Repositories subs !! repo).
Proof. reflexivity. Qed.

Lemma AddSubscription_cases (p : Plugin) (kv : KVStore) (repo : string)
    (sub : Subscription) :
  (exists err, AddSubscription p kv repo sub = (Some err, kv))
  \/ (exists kv',
        AddSubscription p kv repo sub = (None, kv')
        /\ kv_muted kv' = kv_muted kv /\ kv_excluded kv' = kv_excluded kv
        /\ forall key,
             storedFor kv' key
             = if decide (repo = key)
               then listAfterAdd sub (entryFor kv repo)
               else storedFor kv key).
Proof.
  unfold AddSubscription, GetSubscriptions, StoreSubscriptions.
  destruct (KVGet_error p SubscriptionsKey); [left; eexists; reflexivity |].
  destruct (KVSet_error p SubscriptionsKey);
    [left; destruct (kv_subscriptions kv); eexists; reflexivity |].
  right. unfold storedFor, entryFor.
  destruct (kv_subscriptions kv) as [subs |]; simpl.
  - eexists. split; [reflexivity |]. split; [reflexivity |].
    split; [reflexivity |]. intros key. simpl. rewrite lookup_insert.
    case_decide; [| reflexivity]. simpl.
    destruct (Repositories subs !! repo); reflexivity.
  - eexists. split; [reflexivity |]. split; [reflexivity |].
    split; [reflexivity |]. intros key. simpl. rewrite lookup_insert.
    case_decide; [reflexivity |]. now rewrite !lookup_empty.
Qed.

Lemma listAfterAdd_NoDup (sub : Subscription) (previous : option (list Subscription)) :
  NoDup (ChannelID <$> default [] previous) ->
  NoDup (ChannelID <$> listAfterAdd sub previous).
Proof.
  destruct previous as [l |]; simpl.
  - intros Hnd. destruct (replaceExisting sub l) as [[|] l'] eqn:Hr; simpl.
    + apply replaceExisting_found in Hr as (Hc & _). now rewrite Hc.
    + apply replaceExisting_absent in Hr as [-> Hnot].
      rewrite fmap_app. apply NoDup_app. split; [exact Hnd |].
      split; [| apply NoDup_singleton].
      intros x Hx Hx'. apply list_elem_of_singleton in Hx'. now subst.
  - intros _. apply NoDup_singleton.
Qed.

Lemma listAfterAdd_single (sub : Subscription) (previous : option (list Subscription)) :
  NoDup (ChannelID <$> default [] previous) ->
  filter (fun s => ChannelID s = ChannelID sub) (listAfterAdd sub previous) = [sub].
Proof.
  destruct previous as [l |]; simpl.
  - intros Hnd. destruct (replaceExisting sub l) as [[|] l'] eqn:Hr; simpl.
    + now apply (replaceExisting_single sub l).
    + apply replaceExisting_absent in Hr as [-> Hnot].
      rewrite filter_app, filter_channel_absent by exact Hnot.
      now rewrite filter_cons_True.
  - intros _. now rewrite filter_cons_True.
Qed.

Lemma storedFor_previous (kv : KVStore) (repo : string) :
  default [] (entryFor kv repo) = storedFor kv repo.
Proof. unfold storedFor, entryFor. now destruct (kv_subscriptions kv). Qed.

Lemma listAfterAdd_in_place (sub old : Subscription)
    (previous : option (list Subscription)) (i : nat) :
  NoDup (ChannelID <$> default [] previous) ->
  default [] previous !! i = Some old -> ChannelID old = ChannelID sub ->
  listAfterAdd sub previous = <[i := sub]> (default [] previous).
Proof.
  destruct previous as [l |]; simpl; [| discriminate].
  intros Hnd Hi Hch. now rewrite (replaceExisting_in_place sub old l i).
Qed.

Lemma listAfterAdd_append (sub : Subscription)
    (previous : option (list Subscription)) :
  (forall old, old ∈ default [] previous -> ChannelID old <> ChannelID sub) ->
  listAfterAdd sub previous = default [] previous ++ [sub].
Proof.
  destruct previous as [l |]; simpl; [| reflexivity].
  intros Hnone. destruct (replaceExisting sub l) as [[|] l'] eqn:Hr; simpl.
  - exfalso. apply replaceExisting_found in Hr as (Hc & _ & Hin).
    apply (list_elem_of_fmap_2 ChannelID) in Hin. rewrite Hc in Hin.
    apply list_elem_of_fmap in Hin as (old & Heq & Hold).
    now apply (Hnone old Hold).
  - now apply replaceExisting_absent in Hr as [-> _].
Qed.

Lemma AddSubscription_invariant (p : Plugin) (kv : KVStore) (repo : string)
    (sub : Subscription) :
  atMostOnePerChannel kv ->
  atMostOnePerChannel (snd (AddSubscription p kv repo sub)).
Proof.
  intros Hinv.
  destruct (AddSubscription_cases p kv repo sub)
    as [[err ->] | (kv' & -> & _ & _ & Hstored)]; [exact Hinv |].
  intros key. simpl. rewrite Hstored. case_decide; [| apply Hinv].
  apply listAfterAdd_NoDup. rewrite storedFor_previous. apply Hinv.
Qed.

Lemma Unsubscribe_sublist (p : Plugin) (kv : KVStore) (channelID repo key : string) :
  sublist (storedFor (snd (Unsubscribe p kv channelID repo)) key)
    (storedFor kv key).
Proof.
  unfold Unsubscribe.
  destruct (parseOwnerAndRepo p repo (getBaseURL p)) as [owner repo'].
  destruct ((owner =? "")%string && (repo' =? "")%string); [reflexivity |].
  unfold GetSubscriptions, StoreSubscriptions.
  destruct (KVGet_error p SubscriptionsKey); [reflexivity |].
  set (key0 := strings.ToLower owner +:+ "/" +:+ strings.ToLower repo').
  destruct (kv_subscriptions kv) as [subs |] eqn:Hkv; simpl.
  - destruct (Repositories subs !! key0) as [l |] eqn:Hl; [| reflexivity].
    pose proof (removeFirst_sublist channelID l) as Hsub.
    destruct (removeFirst channelID l) as [[|] r]; [| reflexivity].
    destruct (KVSet_error p SubscriptionsKey); [reflexivity |].
    unfold storedFor. rewrite Hkv. simpl. rewrite lookup_insert.
    case_decide as Hk; [| reflexivity].
    subst key. rewrite Hl. exact Hsub.
  - rewrite lookup_empty. reflexivity.
Qed.

Lemma Unsubscribe_invariant (p : Plugin) (kv : KVStore) (channelID repo : string) :
  atMostOnePerChannel kv ->
  atMostOnePerChannel (snd (Unsubscribe p kv channelID repo)).
Proof.
  intros Hinv key.
  eapply sublist_NoDup; [apply (Hinv key) |].
  apply fmap_sublist, Unsubscribe_sublist.
Qed.

Lemma reachable_atMostOnePerChannel (kv : KVStore) :
  reachable kv -> atMostOnePerChannel kv.
Proof.
  induction 1 as [kv Hnone | p kv repo sub _ IH | p kv channelID repo _ IH].
  - intros repo. unfold storedFor. rewrite Hnone. apply NoDup_nil_2.
  - now apply AddSubscription_invariant.
  - now apply Unsubscribe_invariant.
Qed.

End Store.

(** C6.  In every store the plugin can reach, an add leaves at most one
    subscription per (channelID, repository) pair.  When it succeeds, the
    pair of the added subscription has exactly that subscription: an
    existing entry of the channel is overwritten at its position, a new one
    is appended only when the channel had none, other keys are untouched;
    a second add for the same pair leaves exactly the second subscription.
    When it fails the store is unchanged. *)
Theorem AddSubscription_at_most_one (p : Plugin) (kv : KVStore) (repo : string)
    (sub : Subscription) :
  reachable kv ->
  let result := AddSubscription p kv repo sub in
  atMostOnePerChannel (snd result)
  /\ (fst result = None ->
      subscriptionsOf (snd result) (ChannelID sub) repo = [sub]
      /\ (forall i old,
            storedFor kv repo !! i = Some old -> ChannelID old = ChannelID sub ->
            storedFor (snd result) repo = <[i := sub]> (storedFor kv repo))
      /\ ((forall old, old ∈ storedFor kv repo -> ChannelID old <> ChannelID sub) ->
          storedFor (snd result) repo = storedFor kv repo ++ [sub])
      /\ (forall key, key <> repo -> storedFor (snd result) key = storedFor kv key)
      /\ (forall p2 sub2,
            ChannelID sub2 = ChannelID sub ->
            fst (AddSubscription p2 (snd result) repo sub2) = None ->
            subscriptionsOf (snd (AddSubscription p2 (snd result) repo sub2))
              (ChannelID sub) repo = [sub2]))
  /\ (fst result <> None -> snd result = kv).
Proof.
  intros Hreach result.
  assert (Hsingle : forall q kv0 sub0,
             atMostOnePerChannel kv0 ->
             fst (AddSubscription q kv0 repo sub0) = None ->
             subscriptionsOf (snd (AddSubscription q kv0 repo sub0))
               (ChannelID sub0) repo = [sub0]).
  { intros q kv0 sub0 Hinv0 Hok.
    destruct (AddSubscription_cases q kv0 repo sub0)
      as [[err Herr] | (kv' & Hadd & _ & _ & Hstored)];
      [rewrite Herr in Hok; discriminate |].
    rewrite Hadd. simpl. unfold subscriptionsOf. rewrite Hstored.
    rewrite decide_True by reflexivity.
    apply listAfterAdd_single. rewrite storedFor_previous. apply Hinv0. }
  pose proof (reachable_atMostOnePerChannel kv Hreach) as Hinv.
  pose proof (AddSubscription_invariant p kv repo sub Hinv) as Hinv'.
  fold result in Hinv'.
  split; [exact Hinv' |]. split.
  - intros Hok. split; [now apply Hsingle |].
    destruct (AddSubscription_cases p kv repo sub)
      as [[err Herr] | (kv' & Hadd & _ & _ & Hstored)];
      [unfold result in Hok; rewrite Herr in Hok; discriminate |].
    unfold result. rewrite Hadd. simpl. repeat split.
    + intros i old Hi Hch. rewrite Hstored, decide_True by reflexivity.
      rewrite <- storedFor_previous in Hi |- *.
      apply (listAfterAdd_in_place sub old); [| exact Hi | exact Hch].
      rewrite storedFor_previous. apply Hinv.
    + intros Hnone. rewrite Hstored, decide_True by reflexivity.
      rewrite <- storedFor_previous in Hnone |- *.
      now apply listAfterAdd_append.
    + intros key Hkey. rewrite Hstored. now rewrite decide_False by congruence.
    + intros p2 sub2 Hch Hok2. rewrite <- Hch.
      apply Hsingle; [| exact Hok2].
      unfold result in Hinv'. now rewrite Hadd in Hinv'.
  - intros Hfail.
    destruct (AddSubscription_cases p kv repo sub)
      as [[err Herr] | (kv' & Hadd & _)]; unfold result in *.
    + now rewrite Herr.
    + rewrite Hadd in Hfail. now contradiction Hfail.
Qed.

Lemma AddSubscription_at_most_one_witness :
  subscriptionsOf
    (snd (AddSubscription samplePlugin
            (snd (AddSubscription samplePlugin emptyStore "acme/widgets"
                    (sampleSubscription "town-square" "id-alice" "pulls"
                       "acme/widgets")))
            "acme/widgets"
            (sampleSubscription "town-square" "id-alice" "issues,creates"
               "acme/widgets")))
    "town-square" "acme/widgets"
  = [sampleSubscription "town-square" "id-alice" "issues,creates" "acme/widgets"].
Proof.
  refine (proj1 (proj1 (proj2
    (AddSubscription_at_most_one samplePlugin
       (snd (AddSubscription samplePlugin emptyStore "acme/widgets"
               (sampleSubscription "town-square" "id-alice" "pulls"
                  "acme/widgets")))
       "acme/widgets"
       (sampleSubscription "town-square" "id-alice" "issues,creates"
          "acme/widgets")
       _)) _)).
  - apply reachable_AddSubscription, reachable_initial. reflexivity.
  - reflexivity.
Defined.

(** ** Subscription matcher (C4) *)

Section Matcher.

Lemma visibleSubscriptions_filter (p : Plugin) (private : bool) (name : string)
    (subs : list Subscription) :
  visibleSubscriptions p private name subs
  = filter (fun sub => private = false
                       \/ permissionToRepo p (CreatorID sub) name = true) subs.
Proof.
  induction subs as [|sub subs IH]; [reflexivity |].
  simpl. destruct private; simpl.
  - destruct (permissionToRepo p (CreatorID sub) name) eqn:Hperm; simpl.
    + rewrite filter_cons_True by (now right). now rewrite IH.
    + rewrite filter_cons_False by (intros [? | ?]; congruence). exact IH.
  - rewrite filter_cons_True by (now left). now rewrite IH.
Qed.

(** What a positive answer of [permissionToRepo] rests on: a live fetch of
    the repository with the credential stored for that user. *)
Lemma permissionToRepo_true (p : Plugin) (userID ownerAndRepo : string) :
  permissionToRepo p userID ownerAndRepo = true ->
  userID <> EmptyString
  /\ exists info,
       getGitHubUserInfo p userID = Some info
       /\ Repositories_Get (githubConnectUser p info)
            (fst (parseOwnerAndRepo p ownerAndRepo (getBaseURL p)))
            (snd (parseOwnerAndRepo p ownerAndRepo (getBaseURL p)))
          = {| found := true; failed := false |}.
Proof.
  unfold permissionToRepo.
  destruct (String.eqb_spec userID "") as [-> | Hne]; [discriminate |].
  destruct (parseOwnerAndRepo p ownerAndRepo (getBaseURL p)) as [owner repo].
  destruct (owner =? "")%string; [discriminate |].
  destruct (checkOrg p owner); [discriminate |].
  destruct (getGitHubUserInfo p userID) as [info |]; [| discriminate].
  simpl.
  destruct (Repositories_Get (githubConnectUser p info) owner repo)
    as [[|] [|]] eqn:Hget; simpl; try discriminate.
  intros _. split; [exact Hne |]. now exists info.
Qed.

Lemma GetSubscribedChannelsForRepository_candidates (p : Plugin) (kv : KVStore)
    (repo : option Repository.t) :
  GetSubscribedChannelsForRepository p kv repo
  = match KVGet_error p SubscriptionsKey with
    | Some _ => []
    | None =>
        visibleSubscriptions p (GetPrivate repo)
          (strings.ToLower (GetFullName repo)) (candidateSubscriptions kv repo)
    end.
Proof.
  unfold GetSubscribedChannelsForRepository, GetSubscriptions,
    candidateSubscriptions, storedFor.
  destruct (KVGet_error p SubscriptionsKey); [reflexivity |].
  destruct (kv_subscriptions kv) as [subs |]; simpl.
  - match goal with
    | |- context [(length ?l =? 0)%nat] => destruct l; reflexivity
    end.
  - now rewrite !lookup_empty.
Qed.

End Matcher.

(** C4.  For a private repository the matcher keeps a candidate
    subscription, repo-level or organization-level, only if the permission
    oracle, asked with the creatorID of that subscription, answers that the
    creator sees the repository, which rests on a live fetch with the
    creator's credential.  The others are dropped without any error: the
    result is the sub-list of the permitted candidates, in order. *)
Theorem private_repository_needs_creator_permission (p : Plugin) (kv : KVStore)
    (repo : option Repository.t) :
  GetPrivate repo = true ->
  let name := strings.ToLower (GetFullName repo) in
  (forall sub,
     sub ∈ GetSubscribedChannelsForRepository p kv repo ->
     sub ∈ candidateSubscriptions kv repo
     /\ permissionToRepo p (CreatorID sub) name = true
     /\ exists info,
          getGitHubUserInfo p (CreatorID sub) = Some info
          /\ Repositories_Get (githubConnectUser p info)
               (fst (parseOwnerAndRepo p name (getBaseURL p)))
               (snd (parseOwnerAndRepo p name (getBaseURL p)))
             = {| found := true; failed := false |})
  /\ (KVGet_error p SubscriptionsKey = None ->
      GetSubscribedChannelsForRepository p kv repo
      = filter (fun sub => permissionToRepo p (CreatorID sub) name = true)
          (candidateSubscriptions kv repo)).
Proof.
  intros Hprivate name.
  assert (Hfilter : visibleSubscriptions p true name (candidateSubscriptions kv repo)
                    = filter (fun sub => permissionToRepo p (CreatorID sub) name = true)
                        (candidateSubscriptions kv repo)).
  { rewrite visibleSubscriptions_filter. apply list_filter_iff.
    intros sub. split; [intros [? | ?]; [discriminate | assumption] | now right]. }
  rewrite GetSubscribedChannelsForRepository_candidates, Hprivate.
  fold name. rewrite Hfilter. split.
  - intros sub Hin.
    destruct (KVGet_error p SubscriptionsKey); [now apply elem_of_nil in Hin |].
    apply list_elem_of_filter in Hin as [Hperm Hin].
    split; [exact Hin |]. split; [exact Hperm |].
    now apply permissionToRepo_true in Hperm as [_ ?].
  - now intros ->.
Qed.

Lemma private_repository_needs_creator_permission_witness :
  GetSubscribedChannelsForRepository mallorySeesNothing acmeStore privateWidgets
  = filter (fun sub => permissionToRepo mallorySeesNothing (CreatorID sub)
                         "acme/widgets" = true)
      (candidateSubscriptions acmeStore privateWidgets).
Proof.
  refine (proj2 (private_repository_needs_creator_permission mallorySeesNothing
                   acmeStore privateWidgets _) _); reflexivity.
Defined.

Example private_repository_drops_mallory :
  GetSubscribedChannelsForRepository mallorySeesNothing acmeStore privateWidgets
  = [sampleSubscription "town-square" "id-alice" "pulls,stars" "acme/widgets"]
  /\ GetSubscribedChannelsForRepository mallorySeesNothing acmeStore publicWidgets
     = [sampleSubscription "town-square" "id-alice" "pulls,stars" "acme/widgets";
        sampleSubscription "off-topic" "id-mallory" "pulls,issues" "acme/"].
Proof. split; reflexivity. Qed.

(** ** Label filters on "labeled" events (C5) *)

Section Labels.

Lemma postPullRequestEvent_loop_origin (p : Plugin) (event : PullRequestEvent.t)
    (action eventLabel : string) (labels : list string)
    (newPRMessage closedPRMessage : string) (subs : list Subscription) :
  forall post e,
    e ∈ postPullRequestEvent_loop p event action eventLabel labels
          newPRMessage closedPRMessage post subs ->
    postedFor p (PullRequestEvent.Sender event) action eventLabel labels subs e.
Proof.
  induction subs as [|sub subs IH]; intros post e Hin;
    [now apply elem_of_nil in Hin |].
  assert (Hrest : forall post',
             e ∈ postPullRequestEvent_loop p event action eventLabel labels
                   newPRMessage closedPRMessage post' subs ->
             postedFor p (PullRequestEvent.Sender event) action eventLabel
               labels (sub :: subs) e).
  { intros post' H. destruct (IH post' e H) as (s0 & q & -> & Hs0 & Hq & Hpass).
    exists s0, q. split; [reflexivity |].
    split; [now apply list_elem_of_further |]. now split. }
  cbn [postPullRequestEvent_loop] in Hin.
  destruct (negb (Pulls sub) && negb (PullsMerged sub)); [now apply Hrest in Hin |].
  destruct (PullsMerged sub && negb (action =? actionClosed)%string);
    [now apply Hrest in Hin |].
  destruct (excludeConfigOrgMember p (PullRequestEvent.Sender event) sub) eqn:Hex;
    [now apply Hrest in Hin |].
  destruct (containsLabel labels (Label sub)) eqn:Hcont;
    destruct (String.eqb_spec (Label sub) "") as [Hl | Hl]; simpl in Hin;
    try (now apply Hrest in Hin).
  all: destruct (String.eqb_spec action actionLabeled) as [Ha | Ha];
    simpl in Hin; try (now apply Hrest in Hin).
  all: try (destruct (String.eqb_spec (Label sub) eventLabel) as [He | He];
            simpl in Hin; try (now apply Hrest in Hin)).
  all: try (destruct (renderTemplate p "pullRequestLabelled" (EvPullRequest event));
            [| now apply elem_of_nil in Hin]).
  all: apply elem_of_cons in Hin as [-> | Hin]; [| now apply Hrest in Hin].
  all: eexists sub, _; split; [reflexivity |]; split; [apply list_elem_of_here |];
    split; [reflexivity |]; split; auto; intros; try congruence; auto.
Qed.

Lemma postIssueEvent_sub_origin (p : Plugin) (event : IssuesEvent.t)
    (action eventLabel : string) (labels : list string) (post : Post)
    (sub : Subscription) (e : Effect) :
  e ∈ postIssueEvent_sub p event action eventLabel labels post sub ->
  e = CreatePost (withChannelId post (ChannelID sub))
  /\ passesFilters p (IssuesEvent.Sender event) action eventLabel labels sub.
Proof.
  unfold postIssueEvent_sub.
  destruct (negb (Issues sub) && negb (IssueCreations sub));
    [intros H; now apply elem_of_nil in H |].
  destruct (IssueCreations sub && negb (action =? actionOpened)%string);
    [intros H; now apply elem_of_nil in H |].
  destruct (excludeConfigOrgMember p (IssuesEvent.Sender event) sub) eqn:Hex;
    [intros H; now apply elem_of_nil in H |].
  destruct (containsLabel labels (Label sub)) eqn:Hcont;
    destruct (String.eqb_spec (Label sub) "") as [Hl | Hl]; simpl;
    destruct (String.eqb_spec action actionLabeled) as [Ha | Ha]; simpl;
    try destruct (String.eqb_spec (Label sub) eventLabel) as [He | He]; simpl;
    intros H; try (now apply elem_of_nil in H);
    apply list_elem_of_singleton in H; (split; [exact H |]);
    split; auto; intros; try congruence; auto.
Qed.

Lemma postIssueEvent_origin (p : Plugin) (kv : KVStore) (now : time.Time)
    (event : IssuesEvent.t) (e : Effect) :
  e ∈ postIssueEvent p kv now event ->
  postedFor p (IssuesEvent.Sender event) (IssuesEvent.Action event)
    (IssuesEvent.Label event) (Issue.Labels (IssuesEvent.Issue event))
    (GetSubscribedChannelsForRepository p kv (IssuesEvent.Repo event)) e.
Proof.
  unfold postIssueEvent.
  repeat match goal with
         | |- _ ∈ (if ?c then _ else _) -> _ =>
             destruct c; [intros H; now apply elem_of_nil in H |]
         | |- _ ∈ (if ?c then [] else _) -> _ =>
             destruct c; [intros H; now apply elem_of_nil in H |]
         end.
  match goal with
  | |- _ ∈ match ?t with _ => _ end -> _ => destruct t as [template |]
  end; [| intros H; now apply elem_of_nil in H].
  destruct (renderTemplate p template (EvIssues event)) as [message |];
    [| intros H; now apply elem_of_nil in H].
  intros H. apply list_elem_of_In, in_flat_map in H as (sub & Hsub & H).
  apply list_elem_of_In in Hsub, H.
  apply postIssueEvent_sub_origin in H as [-> Hpass].
  now exists sub, (withChannelId
                     {| UserId := BotUserID p; ChannelId := "";
                        PostType := "custom_git_issue";
                        Message := sanitizeDescription p message |}
                     (ChannelID sub)).
Qed.

Lemma postPullRequestEvent_origin (p : Plugin) (kv : KVStore)
    (event : PullRequestEvent.t) (e : Effect) :
  e ∈ postPullRequestEvent p kv event ->
  postedFor p (PullRequestEvent.Sender event) (PullRequestEvent.Action event)
    (PullRequestEvent.Label event)
    (PullRequest.Labels (PullRequestEvent.PullRequest event))
    (GetSubscribedChannelsForRepository p kv (PullRequestEvent.Repo event)) e.
Proof.
  unfold postPullRequestEvent.
  destruct (length _ =? 0)%nat; [intros H; now apply elem_of_nil in H |].
  destruct (negb _ && negb _ && negb _); [intros H; now apply elem_of_nil in H |].
  destruct (renderTemplate p "newPR" _); [| intros H; now apply elem_of_nil in H].
  destruct (renderTemplate p "closedPR" _); [| intros H; now apply elem_of_nil in H].
  apply postPullRequestEvent_loop_origin.
Qed.

End Labels.

(** C5.  On a "labeled" pull-request or issue event, every channel message
    goes to a subscription whose label filter is set and equals the label
    the event itself applied.  A subscription filtering on another label X
    gets nothing from the event, whatever labels the object carries (X
    included). *)
Theorem labeled_event_needs_its_own_label (p : Plugin) (kv : KVStore)
    (now : time.Time) (pull : PullRequestEvent.t) (issues : IssuesEvent.t) :
  (PullRequestEvent.Action pull = actionLabeled ->
   forall e,
     e ∈ postPullRequestEvent p kv pull ->
     exists sub post,
       e = CreatePost post
       /\ sub ∈ GetSubscribedChannelsForRepository p kv (PullRequestEvent.Repo pull)
       /\ ChannelId post = ChannelID sub
       /\ Label sub <> EmptyString
       /\ Label sub = PullRequestEvent.Label pull)
  /\ (IssuesEvent.Action issues = actionLabeled ->
      forall e,
        e ∈ postIssueEvent p kv now issues ->
        exists sub post,
          e = CreatePost post
          /\ sub ∈ GetSubscribedChannelsForRepository p kv (IssuesEvent.Repo issues)
          /\ ChannelId post = ChannelID sub
          /\ Label sub <> EmptyString
          /\ Label sub = IssuesEvent.Label issues)
  /\ (forall sub eventLabel labels newPRMessage closedPRMessage post rest,
        Label sub <> eventLabel ->
        postPullRequestEvent_loop p pull actionLabeled eventLabel labels
          newPRMessage closedPRMessage post (sub :: rest)
        = postPullRequestEvent_loop p pull actionLabeled eventLabel labels
            newPRMessage closedPRMessage post rest)
  /\ (forall sub eventLabel labels post,
        Label sub <> eventLabel ->
        postIssueEvent_sub p issues actionLabeled eventLabel labels post sub = []).
Proof.
  split; [| split; [| split]].
  - intros Ha e He.
    apply postPullRequestEvent_origin in He as (sub & post & -> & Hsub & Hch & Hpass).
    destruct (passes_labeled _ _ _ _ _ _ Hpass Ha) as [Hne Heq].
    now exists sub, post.
  - intros Ha e He.
    apply postIssueEvent_origin in He as (sub & post & -> & Hsub & Hch & Hpass).
    destruct (passes_labeled _ _ _ _ _ _ Hpass Ha) as [Hne Heq].
    now exists sub, post.
  - intros sub eventLabel labels newPR closedPR post rest Hne.
    apply String.eqb_neq in Hne. cbn [postPullRequestEvent_loop].
    rewrite Hne, andb_false_r.
    change (actionLabeled =? actionLabeled)%string with true. cbv iota.
    repeat match goal with
           | |- (if ?c then ?x else ?y) = ?x => destruct c; [reflexivity |]
           end.
    reflexivity.
  - intros sub eventLabel labels post Hne.
    apply String.eqb_neq in Hne. unfold postIssueEvent_sub.
    rewrite Hne. change (actionLabeled =? actionLabeled)%string with true.
    simpl. rewrite orb_true_r.
    repeat match goal with
           | |- (if ?c then [] else _) = [] => destruct c; [reflexivity |]
           end.
    reflexivity.
Qed.

Lemma labeled_event_needs_its_own_label_witness :
  (forall e,
     e ∈ postPullRequestEvent samplePlugin bugStore (labeledPullRequest "bug") ->
     exists sub post,
       e = CreatePost post
       /\ sub ∈ GetSubscribedChannelsForRepository samplePlugin bugStore publicWidgets
       /\ ChannelId post = ChannelID sub
       /\ Label sub <> EmptyString
       /\ Label sub = "bug")
  /\ postIssueEvent_sub samplePlugin (labeledIssue 0 "wontfix") actionLabeled
       "wontfix" ["bug"; "wontfix"]
       {| UserId := "bot"; ChannelId := ""; PostType := "custom_git_issue";
          Message := "issueLabelled" |}
       (labelSubscription "triage" "bug") = [].
Proof.
  split.
  - apply (proj1 (labeled_event_needs_its_own_label samplePlugin bugStore 0
                    (labeledPullRequest "bug") (labeledIssue 0 "bug"))).
    reflexivity.
  - apply (proj2 (proj2 (proj2
             (labeled_event_needs_its_own_label samplePlugin bugStore 0
                (labeledPullRequest "bug") (labeledIssue 0 "wontfix"))))).
    discriminate.
Defined.

Example labeled_bug_is_posted :
  postPullRequestEvent samplePlugin bugStore (labeledPullRequest "bug")
  = [CreatePost {| UserId := "bot"; ChannelId := "triage";
                   PostType := "custom_git_pr";
                   Message := "pullRequestLabelled" |}]
  /\ postPullRequestEvent samplePlugin bugStore (labeledPullRequest "wontfix") = []
  /\ postIssueEvent samplePlugin bugStore 5000000000 (labeledIssue 0 "bug")
     = [CreatePost {| UserId := "bot"; ChannelId := "triage";
                      PostType := "custom_git_issue";
                      Message := "issueLabelled" |}]
  /\ postIssueEvent samplePlugin bugStore 5000000000 (labeledIssue 0 "wontfix") = [].
Proof. repeat split; vm_compute; reflexivity. Qed.

(** ** The anti-duplication guard of issue labeling (C7) *)

Section Timing.

Lemma Seconds_below_4 (d : time.Duration) :
  0 <= d < 4 * time.Second -> (time.Seconds d < inject_Z 4)%Q.
Proof.
  unfold time.Seconds, time.Second. intros Hd.
  pose proof (Z.quot_rem' d 1000000000) as Hqr.
  pose proof (Z.rem_bound_pos d 1000000000 ltac:(lia) ltac:(lia)) as Hr.
  unfold Qlt, Qplus, inject_Z. simpl Qnum. simpl Qden.
  lia.
Qed.

Lemma timeDiff_recent (now createdAt : time.Time) :
  0 <= now - createdAt < 4 * time.Second ->
  time.mul (time.Until now createdAt) (-1) = now - createdAt.
Proof.
  unfold time.mul, time.Until, time.Sub, time.minDuration, time.maxDuration,
    time.wrap64, time.Second.
  intros Hd.
  destruct (Z.ltb_spec (createdAt - now) (- 2 ^ 63)); [lia |].
  destruct (Z.ltb_spec (2 ^ 63 - 1) (createdAt - now)); [lia |].
  replace ((createdAt - now) * -1 + 2 ^ 63) with (now - createdAt + 2 ^ 63) by lia.
  rewrite Z.mod_small by lia. lia.
Qed.

Lemma handleIssueNotification_labeled (p : Plugin) (event : IssuesEvent.t) :
  IssuesEvent.Action event = actionLabeled ->
  handleIssueNotification p event = [].
Proof.
  intros Ha. unfold handleIssueNotification. rewrite Ha.
  now destruct (_ =? _)%string.
Qed.

Lemma guarded_silent (p : Plugin) (kv : KVStore) (repo : option Repository.t) :
  dispatched (guarded p kv repo []) = [].
Proof.
  unfold guarded, runHandler.
  destruct (deref_FullName repo); [| reflexivity].
  destruct (IsNotificationOff p kv s); [reflexivity |].
  destruct repo; [| reflexivity].
  now destruct (_ && _).
Qed.

End Timing.

(** C7.  An issue event with action "labeled" whose issue was created less
    than 4 seconds before the event is processed produces no message: the
    channel fan-out is suppressed, the actor-notification path has nothing
    for the labeled action, and so the whole pipeline issues nothing. *)
Theorem issue_labeled_within_4_seconds_is_silent (p : Plugin) (kv : KVStore)
    (now : time.Time) (event : IssuesEvent.t) :
  IssuesEvent.Action event = actionLabeled ->
  0 <= now - Issue.CreatedAt (IssuesEvent.Issue event) < 4 * time.Second ->
  postIssueEvent p kv now event = []
  /\ handleIssueNotification p event = []
  /\ dispatched (dispatchEvent p kv now (EvIssues event)) = [].
Proof.
  intros Ha Hrecent.
  assert (Hpost : postIssueEvent p kv now event = []).
  { unfold postIssueEvent. rewrite Ha, (timeDiff_recent _ _ Hrecent).
    destruct (Qlt_le_dec _ _) as [_ | Hge]; [reflexivity |].
    exfalso. apply (Qlt_not_le _ _ (Seconds_below_4 _ Hrecent)). exact Hge. }
  pose proof (handleIssueNotification_labeled p event Ha) as Hnotify.
  split; [exact Hpost |]. split; [exact Hnotify |].
  cbn [dispatchEvent]. rewrite Hpost, Hnotify. apply guarded_silent.
Qed.

Lemma issue_labeled_within_4_seconds_is_silent_witness :
  dispatched
    (dispatchEvent samplePlugin bugStore 1700000003999999999
       (EvIssues (labeledIssue 1700000000000000000 "bug"))) = [].
Proof.
  refine (proj2 (proj2 (issue_labeled_within_4_seconds_is_silent samplePlugin
                          bugStore 1700000003999999999
                          (labeledIssue 1700000000000000000 "bug") _ _))).
  - reflexivity.
  - unfold time.Second. simpl. lia.
Defined.

Example issue_labeled_after_4_seconds_is_posted :
  dispatched
    (dispatchEvent samplePlugin bugStore 1700000004000000000
       (EvIssues (labeledIssue 1700000000000000000 "bug")))
  = [CreatePost {| UserId := "bot"; ChannelId := "triage";
                   PostType := "custom_git_issue";
                   Message := "issueLabelled" |}].
Proof. vm_compute. reflexivity. Qed.

(** ** Signature verification (C3) *)

Section Signature.

Lemma Z_of_byte_inj (a b : byte) : Z_of_byte a = Z_of_byte b -> a = b.
Proof.
  unfold Z_of_byte. intros H. apply N2Z.inj in H.
  pose proof (Byte.of_to_N a) as Ha. rewrite H, Byte.of_to_N in Ha.
  congruence.
Qed.

Lemma Z_of_byte_nonneg (a : byte) : 0 <= Z_of_byte a.
Proof. unfold Z_of_byte. lia. Qed.

Lemma xor_accumulate_zero (x y : list byte) :
  forall v, 0 <= v -> length x = length y ->
    (subtle.xor_accumulate v x y = 0 <-> v = 0 /\ x = y).
Proof.
  revert y. induction x as [|a x IH]; intros [|b y] v Hv Hlen;
    try discriminate; simpl.
  - tauto.
  - pose proof (Z_of_byte_nonneg a). pose proof (Z_of_byte_nonneg b).
    rewrite IH.
    + rewrite Z.lor_eq_0_iff, Z.lxor_eq_0_iff. split.
      * intros [[-> Hab] ->]. apply Z_of_byte_inj in Hab. now subst.
      * intros [-> [= -> ->]]. tauto.
    + apply Z.lor_nonneg. split; [exact Hv |]. now apply Z.lxor_nonneg.
    + now injection Hlen.
Qed.

(** The constant-time comparison decides equality of the digests. *)
Lemma hmac_Equal_eq (x y : list byte) : hmac.Equal x y = true <-> x = y.
Proof.
  unfold hmac.Equal, subtle.ConstantTimeCompare.
  destruct (Nat.eqb_spec (length x) (length y)) as [Hlen | Hlen]; simpl.
  - rewrite Z.eqb_eq, xor_accumulate_zero by (lia || assumption). tauto.
  - split; [discriminate | intros ->; contradiction].
Qed.

Lemma sha1_Sum_length (msg : list byte) : length (sha1.Sum msg) = 20%nat.
Proof.
  unfold sha1.Sum.
  destruct (fold_left sha1.block _ sha1.init) as [[[[h0 h1] h2] h3] h4].
  reflexivity.
Qed.

Lemma signBody_length (secret body : list byte) :
  length (signBody secret body) = 20%nat.
Proof. apply sha1_Sum_length. Qed.

Lemma fromHexChar_isHexDigit (c : ascii) :
  isHexDigit c = true <-> exists v, hex.fromHexChar c = Some v.
Proof.
  destruct c as [b0 b1 b2 b3 b4 b5 b6 b7].
  destruct b0, b1, b2, b3, b4, b5, b6, b7; vm_compute;
    (split; [intros H; try discriminate H; eexists; reflexivity
            | intros [v H]; try discriminate H; reflexivity]).
Qed.

Lemma fromHexChar_hextable (c : ascii) (v : Z) :
  hex.fromHexChar c = Some v -> hex.hextable v = strings.lower c.
Proof.
  destruct c as [b0 b1 b2 b3 b4 b5 b6 b7].
  destruct b0, b1, b2, b3, b4, b5, b6, b7; intros H; vm_compute in H;
    try discriminate H; injection H as <-; reflexivity.
Qed.

Lemma fromHexChar_range (c : ascii) (v : Z) :
  hex.fromHexChar c = Some v -> 0 <= v < 16.
Proof.
  unfold hex.fromHexChar.
  repeat match goal with
         | |- context [(?a <=? ?b)] => destruct (Z.leb_spec a b); simpl
         end; intros [= <-]; lia.
Qed.

Lemma nibbles_of_byte (a b : Z) :
  0 <= a < 16 -> 0 <= b < 16 ->
  Z.shiftr (Z_of_byte (byte_of_Z (Z.lor (Z.shiftl a 4) b))) 4 = a
  /\ Z.land (Z_of_byte (byte_of_Z (Z.lor (Z.shiftl a 4) b))) 15 = b.
Proof.
  intros Ha Hb.
  rewrite <- (Z2Nat.id a), <- (Z2Nat.id b) by lia.
  assert (Hna : (Z.to_nat a < 16)%nat) by lia.
  assert (Hnb : (Z.to_nat b < 16)%nat) by lia.
  generalize dependent (Z.to_nat b). generalize dependent (Z.to_nat a).
  intros n Hn m Hm.
  do 16 (destruct n as [|n]; [do 16 (destruct m as [|m]; [now vm_compute |]); lia |]).
  lia.
Qed.

Lemma byte_of_nibbles (b : byte) :
  hex.fromHexChar (hex.hextable (Z.shiftr (Z_of_byte b) 4))
  = Some (Z.shiftr (Z_of_byte b) 4)
  /\ hex.fromHexChar (hex.hextable (Z.land (Z_of_byte b) 15))
     = Some (Z.land (Z_of_byte b) 15)
  /\ byte_of_Z (Z.lor (Z.shiftl (Z.shiftr (Z_of_byte b) 4) 4)
                  (Z.land (Z_of_byte b) 15)) = b.
Proof. destruct b; vm_compute; repeat split. Qed.

(** Decoding inverts encoding. *)
Lemma Decode_EncodeToString (d : list byte) :
  hex.Decode (hex.EncodeToString d) = inr d.
Proof.
  induction d as [|b d IH]; [reflexivity |].
  destruct (byte_of_nibbles b) as (Hhi & Hlo & Hb).
  cbn [hex.EncodeToString hex.Decode]. now rewrite Hhi, Hlo, IH, Hb.
Qed.

Lemma Decode_inr_inv (s : string) (d : list byte) :
  hex.Decode s = inr d ->
  (s = EmptyString /\ d = [])
  \/ exists p q rest a b d',
       s = String p (String q rest) /\ d = byte_of_Z (Z.lor (Z.shiftl a 4) b) :: d'
       /\ hex.fromHexChar p = Some a /\ hex.fromHexChar q = Some b
       /\ hex.Decode rest = inr d'.
Proof.
  destruct s as [|p [|q rest]]; cbn [hex.Decode].
  - intros [= <-]. now left.
  - destruct (hex.fromHexChar p); discriminate.
  - destruct (hex.fromHexChar p) as [a |] eqn:Hp; [| discriminate].
    destruct (hex.fromHexChar q) as [b |] eqn:Hq; [| discriminate].
    destruct (hex.Decode rest) as [e | d'] eqn:Hd; [discriminate |].
    intros [= <-]. right. now exists p, q, rest, a, b, d'.
Qed.

(** What was decoded, encoded again, is the text in lower case; all of
    its characters were digits, two per byte. *)
Lemma Decode_inr (d : list byte) :
  forall s, hex.Decode s = inr d ->
    hex.EncodeToString d = strings.ToLower s
    /\ allHexDigits s = true
    /\ String.length s = (2 * length d)%nat.
Proof.
  induction d as [|x d IH]; intros s Hs;
    apply Decode_inr_inv in Hs
      as [[-> Hd] | (p & q & rest & a & b & d' & -> & Hd & Hp & Hq & Hrest)];
    try discriminate.
  - now repeat split.
  - injection Hd as -> ->.
    destruct (IH rest Hrest) as (Henc & Hall & Hlen).
    destruct (nibbles_of_byte a b (fromHexChar_range _ _ Hp)
                (fromHexChar_range _ _ Hq)) as [Hhi Hlo].
    cbn [hex.EncodeToString strings.ToLower allHexDigits String.length length].
    rewrite Hhi, Hlo, (fromHexChar_hextable _ _ Hp), (fromHexChar_hextable _ _ Hq).
    rewrite Henc, Hall, Hlen.
    rewrite (proj2 (fromHexChar_isHexDigit p)), (proj2 (fromHexChar_isHexDigit q))
      by eauto.
    repeat split. lia.
Qed.

(** An even number of hexadecimal digits always decodes. *)
Lemma Decode_allHexDigits (n : nat) :
  forall s, String.length s = (2 * n)%nat -> allHexDigits s = true ->
    exists d, hex.Decode s = inr d.
Proof.
  induction n as [|n IH]; intros s Hlen Hall.
  - destruct s; [now exists [] | discriminate].
  - destruct s as [|p [|q rest]]; try (simpl in Hlen; lia).
    cbn [allHexDigits] in Hall. apply andb_prop in Hall as [Hp Hall].
    apply andb_prop in Hall as [Hq Hall].
    apply fromHexChar_isHexDigit in Hp as [a Hp], Hq as [b Hq].
    destruct (IH rest) as [d Hd]; [simpl in Hlen; lia | exact Hall |].
    cbn [hex.Decode]. rewrite Hp, Hq, Hd. eauto.
Qed.

Lemma length_append (a b : string) :
  String.length (a +:+ b) = (String.length a + String.length b)%nat.
Proof.
  induction a as [|x a IH]; [reflexivity |].
  rewrite append_cons. simpl. now rewrite IH.
Qed.

Lemma EncodeToString_length (d : list byte) :
  String.length (hex.EncodeToString d) = (2 * length d)%nat.
Proof. induction d as [|b d IH]; simpl; [reflexivity | rewrite IH; lia]. Qed.

(** The verdict on a header of the right length and prefix. *)
Lemma verify_well_formed (secret : list byte) (digits : string) (body : list byte) :
  String.length (signaturePrefix +:+ digits) = signatureLength ->
  verifyWebhookSignature secret (signaturePrefix +:+ digits) body
  = match hex.Decode digits with
    | inl err => (false, Some err)
    | inr actual => (hmac.Equal (signBody secret body) actual, None)
    end.
Proof.
  intros Hlen. unfold verifyWebhookSignature. rewrite Hlen, Nat.eqb_refl.
  rewrite (proj2 (HasPrefix_spec _ _)) by eauto.
  reflexivity.
Qed.

End Signature.

(** C3.  A signature header whose length is not 45 or that does not start
    with "sha1=" is rejected with no error.  Otherwise, if the 40
    characters after the prefix are not all hexadecimal digits, an error is
    returned; if they are, no error is returned and the verdict is true
    exactly when those digits spell the HMAC-SHA1 of the raw body under the
    secret.  Hence the header computed from the untampered body is accepted,
    and it is accepted over another body only if that body has the same
    HMAC-SHA1. *)
Theorem verifyWebhookSignature_sound (secret : list byte) (signature : string)
    (body : list byte) :
  (String.length signature <> 45%nat
   \/ ~ (exists digits, signature = "sha1=" +:+ digits) ->
   verifyWebhookSignature secret signature body = (false, None))
  /\ (forall digits,
        signature = "sha1=" +:+ digits -> String.length signature = 45%nat ->
        (allHexDigits digits = false ->
         exists err, verifyWebhookSignature secret signature body = (false, Some err))
        /\ (allHexDigits digits = true ->
            exists valid,
              verifyWebhookSignature secret signature body = (valid, None)
              /\ (valid = true
                  <-> strings.ToLower digits
                      = hex.EncodeToString (hmac.Sum secret body))))
  /\ verifyWebhookSignature secret
       ("sha1=" +:+ hex.EncodeToString (signBody secret body)) body = (true, None)
  /\ (forall tampered,
        verifyWebhookSignature secret
          ("sha1=" +:+ hex.EncodeToString (signBody secret body)) tampered
        = (true, None)
        <-> signBody secret tampered = signBody secret body).
Proof.
  assert (Hsigned : forall other,
             verifyWebhookSignature secret
               ("sha1=" +:+ hex.EncodeToString (signBody secret body)) other
             = (hmac.Equal (signBody secret other) (signBody secret body), None)).
  { intros other. change "sha1="%string with signaturePrefix.
    rewrite verify_well_formed, Decode_EncodeToString; [reflexivity |].
    rewrite length_append, EncodeToString_length, signBody_length. reflexivity. }
  split; [| split; [| split]].
  - intros Hbad. unfold verifyWebhookSignature.
    destruct (Nat.eqb_spec (String.length signature) signatureLength) as [Hlen | Hlen];
      [| reflexivity].
    destruct (strings.HasPrefix signature signaturePrefix) eqn:Hp; [| reflexivity].
    apply HasPrefix_spec in Hp. destruct Hbad as [Hbad | Hbad]; contradiction.
  - intros digits -> Hlen. change "sha1="%string with signaturePrefix in *.
    rewrite verify_well_formed by exact Hlen.
    rewrite length_append in Hlen. simpl in Hlen.
    split.
    + intros Hnot. destruct (hex.Decode digits) as [err | actual] eqn:Hd; [eauto |].
      apply Decode_inr in Hd as (_ & Hall & _). congruence.
    + intros Hall.
      destruct (Decode_allHexDigits 20 digits) as [actual Hd];
        [lia | exact Hall |].
      rewrite Hd. eexists. split; [reflexivity |].
      rewrite hmac_Equal_eq. unfold signBody.
      pose proof (Decode_inr _ _ Hd) as (Henc & _ & _). split.
      * intros ->. now symmetry.
      * intros Heq. rewrite <- Henc in Heq.
        apply (f_equal hex.Decode) in Heq.
        rewrite !Decode_EncodeToString in Heq. congruence.
  - rewrite Hsigned. now rewrite (proj2 (hmac_Equal_eq _ _)).
  - intros tampered. rewrite Hsigned. split.
    + intros [= H]. now apply hmac_Equal_eq.
    + intros H. now rewrite (proj2 (hmac_Equal_eq _ _)).
Qed.

Lemma verifyWebhookSignature_sound_witness :
  verifyWebhookSignature (list_byte_of_string "key") "sha256=abcdef"
    (list_byte_of_string "The quick brown fox jumps over the lazy dog")
  = (false, None)
  /\ (exists err,
        verifyWebhookSignature (list_byte_of_string "key")
          "sha1=zz7c9b85b8b78aa6bc8a7a36f70a90701c9db4d9"
          (list_byte_of_string "The quick brown fox jumps over the lazy dog")
        = (false, Some err))
  /\ (exists valid,
        verifyWebhookSignature (list_byte_of_string "key")
          "sha1=DE7C9B85B8B78AA6BC8A7A36F70A90701C9DB4D9"
          (list_byte_of_string "The quick brown fox jumps over the lazy dog")
        = (valid, None)
        /\ (valid = true
            <-> strings.ToLower "DE7C9B85B8B78AA6BC8A7A36F70A90701C9DB4D9"
                = hex.EncodeToString
                    (hmac.Sum (list_byte_of_string "key")
                       (list_byte_of_string
                          "The quick brown fox jumps over the lazy dog")))).
Proof.
  split; [| split].
  - apply (proj1 (verifyWebhookSignature_sound (list_byte_of_string "key")
                    "sha256=abcdef"
                    (list_byte_of_string
                       "The quick brown fox jumps over the lazy dog"))).
    left. simpl. lia.
  - apply (proj1 (proj1 (proj2
             (verifyWebhookSignature_sound (list_byte_of_string "key")
                "sha1=zz7c9b85b8b78aa6bc8a7a36f70a90701c9db4d9"
                (list_byte_of_string
                   "The quick brown fox jumps over the lazy dog")))
             "zz7c9b85b8b78aa6bc8a7a36f70a90701c9db4d9" eq_refl eq_refl)).
    reflexivity.
  - apply (proj2 (proj1 (proj2
             (verifyWebhookSignature_sound (list_byte_of_string "key")
                "sha1=DE7C9B85B8B78AA6BC8A7A36F70A90701C9DB4D9"
                (list_byte_of_string
                   "The quick brown fox jumps over the lazy dog")))
             "DE7C9B85B8B78AA6BC8A7A36F70A90701C9DB4D9" eq_refl eq_refl)).
    reflexivity.
Defined.

Example verify_accepts_either_case :
  verifyWebhookSignature (list_byte_of_string "key")
    "sha1=DE7C9B85b8b78aa6bc8a7a36f70a90701c9db4d9"
    (list_byte_of_string "The quick brown fox jumps over the lazy dog")
  = (true, None)
  /\ verifyWebhookSignature (list_byte_of_string "key")
       "sha1=de7c9b85b8b78aa6bc8a7a36f70a90701c9db4d9"
       (list_byte_of_string "The quick brown fox jumps over the lazy cog")
     = (false, None)
  /\ verifyWebhookSignature (list_byte_of_string "key")
       "sha1=de7c9b85b8b78aa6bc8a7a36f70a90701c9db4dg"
       (list_byte_of_string "The quick brown fox jumps over the lazy dog")
     = (false, Some (hex.InvalidByteError "g")).
Proof. repeat split; vm_compute; reflexivity. Qed.

(** ** Mute lists and the actor notifications (C2) *)

Section MutedSender.

Lemma commentAssignee_respects_mute (p : Plugin) (kv : KVStore)
    (event : IssueCommentEvent.t) (author repoName templateName assignee : string)
    (receiver message postType : string) :
  senderMutedByReceiver p kv receiver (IssueCommentEvent.Sender event) = true ->
  CreateBotDMPost receiver message postType
    ∉ commentAssignee p kv event author repoName templateName assignee.
Proof.
  intros Hmuted Hin. unfold commentAssignee in Hin.
  repeat match type of Hin with
         | _ ∈ (if ?c then [] else _) =>
             destruct c eqn:?; [now apply elem_of_nil in Hin |]
         end.
  destruct (renderTemplate p templateName (EvIssueComment event));
    [| now apply elem_of_nil in Hin].
  apply elem_of_cons in Hin as [Heq | Hin].
  - injection Heq as Hreceiver _ _. rewrite Hreceiver in Hmuted. congruence.
  - apply list_elem_of_singleton in Hin. discriminate.
Qed.

Lemma handleCommentAuthorNotification_respects_mute (p : Plugin) (kv : KVStore)
    (event : IssueCommentEvent.t) (receiver message postType : string) :
  senderMutedByReceiver p kv receiver (IssueCommentEvent.Sender event) = true ->
  CreateBotDMPost receiver message postType
    ∉ handleCommentAuthorNotification p kv event.
Proof.
  intros Hmuted Hin. unfold handleCommentAuthorNotification in Hin.
  repeat match type of Hin with
         | _ ∈ (if ?c then [] else _) =>
             destruct c eqn:?; [now apply elem_of_nil in Hin |]
         end.
  match type of Hin with
  | _ ∈ match ?t with _ => _ end => destruct t; [| now apply elem_of_nil in Hin]
  end.
  repeat match type of Hin with
         | _ ∈ (if ?c then [] else _) =>
             destruct c eqn:?; [now apply elem_of_nil in Hin |]
         end.
  match type of Hin with
  | _ ∈ match ?t with _ => _ end => destruct t; [| now apply elem_of_nil in Hin]
  end.
  apply elem_of_cons in Hin as [Heq | Hin].
  - injection Heq as Hreceiver _ _. rewrite Hreceiver in Hmuted. congruence.
  - apply list_elem_of_singleton in Hin. discriminate.
Qed.

Lemma handleCommentAssigneeNotification_respects_mute (p : Plugin) (kv : KVStore)
    (event : IssueCommentEvent.t) (receiver message postType : string) :
  senderMutedByReceiver p kv receiver (IssueCommentEvent.Sender event) = true ->
  CreateBotDMPost receiver message postType
    ∉ handleCommentAssigneeNotification p kv event.
Proof.
  intros Hmuted Hin. unfold handleCommentAssigneeNotification in Hin.
  destruct (length _ <? 2)%nat; [now apply elem_of_nil in Hin |].
  match type of Hin with
  | _ ∈ match ?t with _ => _ end => destruct t; [| now apply elem_of_nil in Hin]
  end.
  apply list_elem_of_In, in_flat_map in Hin as (assignee & _ & Hin).
  apply list_elem_of_In in Hin.
  now apply commentAssignee_respects_mute in Hin.
Qed.

End MutedSender.

(** A name on the stored mute list of a user whose list can be read is
    muted for that user. *)
Lemma senderMutedByReceiver_listed (p : Plugin) (kv : KVStore)
    (receiver sender : string) :
  KVGet_error p (mutedUsersKey receiver) = None ->
  sender ∈ mutedList kv receiver ->
  senderMutedByReceiver p kv receiver sender = true.
Proof.
  intros Hget Hin. unfold senderMutedByReceiver, KVGet_muted. rewrite Hget.
  unfold mutedList, usernamesOf in Hin.
  destruct (String.length _ =? 0)%nat; [now apply elem_of_nil in Hin |].
  apply list_elem_of_In in Hin. apply Contains_spec.
  exact (split_comma_piece _ [] sender Hin).
Qed.

(** C2 (amended).  When the mute list of the receiving user can be read and
    the sender of an issue comment is on it, the two paths that notify the
    author and the assignees of the commented issue or pull request send
    that user no direct message. *)
Theorem muted_commenter_is_not_notified (p : Plugin) (kv : KVStore)
    (event : IssueCommentEvent.t) (receiver : string) :
  KVGet_error p (mutedUsersKey receiver) = None ->
  IssueCommentEvent.Sender event ∈ mutedList kv receiver ->
  forall message postType,
    CreateBotDMPost receiver message postType
      ∉ handleCommentAuthorNotification p kv event
          ++ handleCommentAssigneeNotification p kv event.
Proof.
  intros Hget Hlisted message postType Hin.
  pose proof (senderMutedByReceiver_listed p kv receiver _ Hget Hlisted) as Hmuted.
  apply elem_of_app in Hin as [Hin | Hin].
  - now apply handleCommentAuthorNotification_respects_mute in Hin.
  - now apply handleCommentAssigneeNotification_respects_mute in Hin.
Qed.

Lemma muted_commenter_is_not_notified_witness :
  CreateBotDMPost "id-bob" "commentAuthorIssueNotification" "custom_git_author"
    ∉ handleCommentAuthorNotification samplePlugin bobMutedAlice commentOnBobsIssue
        ++ handleCommentAssigneeNotification samplePlugin bobMutedAlice
             commentOnBobsIssue.
Proof.
  apply (muted_commenter_is_not_notified samplePlugin bobMutedAlice
           commentOnBobsIssue "id-bob").
  - reflexivity.
  - vm_compute. constructor.
Defined.

(** The hypothesis on the read is needed: [senderMutedByReceiver] drops the
    error of the read, so while bob's list cannot be read alice's comment
    on his issue is sent to him although the list holds her name. *)
Example unreadable_mute_list_still_notifies :
  "alice"%string ∈ mutedList bobMutedAlice "id-bob"
  /\ handleCommentAuthorNotification
       (samplePluginWith (fun _ => Some "unavailable"%string) (fun _ => true))
       bobMutedAlice commentOnBobsIssue
     = [CreateBotDMPost "id-bob" "commentAuthorIssueNotification"
          "custom_git_author";
        sendRefreshEvent "id-bob"].
Proof. split; [vm_compute; constructor | vm_compute; reflexivity]. Qed.

Example comment_on_bobs_issue_reaches_only_carol :
  dispatched (dispatchEvent samplePlugin bobMutedAlice 0
                (EvIssueComment commentOnBobsIssue))
  = [CreateBotDMPost "id-carol" "commentAssigneeIssueNotification"
       "custom_git_assignee";
     sendRefreshEvent "id-carol"].
Proof. vm_compute. reflexivity. Qed.

(** C2 as stated fails: bob has muted alice, and still receives a direct
    message when alice's comment mentions him, when alice requests his
    review, and when alice assigns him an issue. *)
Lemma muted_sender_still_notifies :
  senderMutedByReceiver samplePlugin bobMutedAlice "id-bob" "alice" = true
  /\ dispatched (dispatchEvent samplePlugin bobMutedAlice 0
                   (EvIssueComment mentionByAlice))
     = [CreatePost {| UserId := "bot"; ChannelId := "dm-id-bob";
                      PostType := "custom_git_mention";
                      Message := "commentMentionNotification" |};
        sendRefreshEvent "id-bob"]
  /\ dispatched (dispatchEvent samplePlugin bobMutedAlice 0
                   (EvPullRequest reviewRequestByAlice))
     = [CreateBotDMPost "id-bob" "pullRequestNotification"
          "custom_git_review_request";
        sendRefreshEvent "id-bob"]
  /\ dispatched (dispatchEvent samplePlugin bobMutedAlice 0
                   (EvIssues assignmentByAlice))
     = [CreateBotDMPost "id-bob" "issueNotification" "custom_git_assigned";
        sendRefreshEvent "id-bob"].
Proof. repeat split; vm_compute; reflexivity. Qed.

(** ** The kill-switch (C1) *)


(** C1 at the failing input.  The repository is on the
    notification-disabled list, and a star event for it is still posted to
    the subscribed channel: the star case of the type switch does not
    consult the list. *)
Theorem star_event_ignores_kill_switch :
  IsNotificationOff samplePlugin acmeStore "acme/widgets" = true
  /\ dispatchEvent samplePlugin acmeStore 0 (EvStar starOfWidgets)
     = Completed
         [CreatePost {| UserId := "bot"; ChannelId := "town-square";
                        PostType := "custom_git_star";
                        Message := "newRepoStar" |}].
Proof. split; vm_compute; reflexivity. Qed.


(** * Further properties of the routing core *)

(** ** The HTTP entry point *)

Section Entry.

Lemma slice_from_prefix (digits : string) :
  strings.slice_from 5 (signaturePrefix +:+ digits) = digits.
Proof. reflexivity. Qed.

(** An accepted header spells the HMAC-SHA1 of the body. *)
Lemma verify_true_inv (secret : list byte) (signature : string) (body : list byte) :
  verifyWebhookSignature secret signature body = (true, None) ->
  exists digits,
    signature = "sha1=" +:+ digits
    /\ String.length digits = 40%nat
    /\ strings.ToLower digits = hex.EncodeToString (hmac.Sum secret body).
Proof.
  unfold verifyWebhookSignature.
  destruct (Nat.eqb_spec (String.length signature) signatureLength) as [Hlen | Hlen];
    [| discriminate].
  destruct (strings.HasPrefix signature signaturePrefix) eqn:Hp; [| discriminate].
  apply HasPrefix_spec in Hp as [digits ->]. cbn [negb orb].
  rewrite slice_from_prefix.
  destruct (hex.Decode digits) as [err | actual] eqn:Hd; [discriminate |].
  intros [= Heq]. apply hmac_Equal_eq in Heq.
  apply Decode_inr in Hd as (Henc & _ & _).
  exists digits. split; [reflexivity |]. split.
  - rewrite length_append in Hlen. unfold signatureLength in Hlen.
    simpl in Hlen. lia.
  - rewrite <- Henc, <- Heq. reflexivity.
Qed.

Lemma dispatchEvent_handler (p : Plugin) (kv : KVStore) (now : time.Time)
    (event : Event) :
  dispatchEvent p kv now event
  = if isStarEvent event
    then runHandler p (switchRepository event)
           (channelFanOut p kv now event ++ actorNotifications p kv event)
    else match event with
         | EvOther => Completed []
         | _ => guarded p kv (switchRepository event)
                  (channelFanOut p kv now event ++ actorNotifications p kv event)
         end.
Proof.
  destruct event; cbn [dispatchEvent isStarEvent switchRepository channelFanOut
                         actorNotifications]; rewrite ?app_nil_r; reflexivity.
Qed.

End Entry.

(** X1.  [handleWebhook] issues an effect only for a request it answers
    with 200 and whose signature header is "sha1=" followed by 40
    hexadecimal digits that spell the HMAC-SHA1 of the request body under
    the configured secret. *)
Theorem handleWebhook_effects_need_signature (p : Plugin) (kv : KVStore)
    (now : time.Time) (r : Request) :
  dispatched (outcome (handleWebhook p kv now r)) <> [] ->
  StatusCode (handleWebhook p kv now r) = StatusOK
  /\ exists body digits,
       Body r = Some body
       /\ X_Hub_Signature r = "sha1=" +:+ digits
       /\ String.length digits = 40%nat
       /\ strings.ToLower digits
          = hex.EncodeToString
              (hmac.Sum (list_byte_of_string (WebhookSecret p)) body).
Proof.
  unfold handleWebhook.
  destruct (Body r) as [body |]; [| now intros []].
  destruct (ParseWebHook p (WebHookType r) body) as [event |]; [| now intros []].
  destruct (if EnableWebhookEventLogging p then MarshalError p event else None);
    [now intros [] |].
  destruct (verifyWebhookSignature (list_byte_of_string (WebhookSecret p))
              (X_Hub_Signature r) body) as [[|] [err |]] eqn:Hv;
    try (now intros []).
  intros _. split; [reflexivity |].
  destruct (verify_true_inv _ _ _ Hv) as (digits & Hsig & Hlen & Hmac).
  now exists body, digits.
Qed.

Lemma handleWebhook_effects_need_signature_witness :
  StatusCode (handleWebhook starringPlugin acmeStore 0 signedStarRequest) = StatusOK
  /\ exists body digits,
       Body signedStarRequest = Some body
       /\ X_Hub_Signature signedStarRequest = "sha1=" +:+ digits
       /\ String.length digits = 40%nat
       /\ strings.ToLower digits
          = hex.EncodeToString
              (hmac.Sum (list_byte_of_string (WebhookSecret starringPlugin)) body).
Proof.
  apply (handleWebhook_effects_need_signature starringPlugin acmeStore 0
           signedStarRequest).
  vm_compute. discriminate.
Defined.

(** ** The guards of the type switch *)

(** X2.  With private repositories switched off in the configuration, an
    event of a private repository dispatches nothing, whatever its kind
    and whatever the subscriptions. *)
Theorem private_repository_disabled_is_silent (p : Plugin) (kv : KVStore)
    (now : time.Time) (event : Event) :
  EnablePrivateRepo p = false ->
  GetPrivate (switchRepository event) = true ->
  dispatched (dispatchEvent p kv now event) = [].
Proof.
  intros Hoff Hprivate. rewrite dispatchEvent_handler.
  assert (Hrun : forall handler,
             runHandler p (switchRepository event) handler = Completed []).
  { intros handler. unfold runHandler. rewrite Hprivate, Hoff.
    now destruct (switchRepository event). }
  destruct (isStarEvent event); [now rewrite Hrun |].
  destruct event; try reflexivity; unfold guarded;
    (destruct (deref_FullName _); [| reflexivity]);
    (destruct (IsNotificationOff p kv s); [reflexivity |]);
    now rewrite Hrun.
Qed.

Lemma private_repository_disabled_is_silent_witness :
  dispatched (dispatchEvent publicOnlyPlugin acmeStore 0 (EvStar privateStar)) = [].
Proof.
  apply private_repository_disabled_is_silent; reflexivity.
Defined.





(** ** The channel fan-out *)

Section FanOut.

Lemma containsLabel_elem (labels : list string) (label : string) :
  containsLabel labels label = true <-> label ∈ labels.
Proof.
  unfold containsLabel. rewrite existsb_exists, list_elem_of_In. split.
  - intros (v & Hv & Heq). apply String.eqb_eq in Heq. now subst.
  - intros Hin. exists label. split; [exact Hin | apply String.eqb_refl].
Qed.

Lemma label_filter_passed (labels : list string) (label : string) :
  negb (containsLabel labels label) && negb (label =? "")%string = false ->
  label = EmptyString \/ label ∈ labels.
Proof.
  destruct (containsLabel labels label) eqn:Hc.
  - intros _. right. now apply containsLabel_elem.
  - destruct (String.eqb_spec label ""); [now left | discriminate].
Qed.

Lemma postFeature_sub_origin (p : Plugin) (feature : Subscription -> bool)
    (sender : string) (post : Post) (sub : Subscription) (e : Effect) :
  e ∈ postFeature_sub p feature sender post sub ->
  e = CreatePost (withChannelId post (ChannelID sub))
  /\ feature sub = true
  /\ excludeConfigOrgMember p sender sub = false.
Proof.
  unfold postFeature_sub.
  destruct (feature sub); [| intros H; now apply elem_of_nil in H].
  destruct (excludeConfigOrgMember p sender sub);
    [intros H; now apply elem_of_nil in H |].
  intros H. apply list_elem_of_singleton in H. now subst.
Qed.

Lemma postLabelled_sub_origin (p : Plugin) (feature : Subscription -> bool)
    (sender : string) (labels : list string) (post : Post) (sub : Subscription)
    (e : Effect) :
  e ∈ postLabelled_sub p feature sender labels post sub ->
  e = CreatePost (withChannelId post (ChannelID sub))
  /\ feature sub = true
  /\ excludeConfigOrgMember p sender sub = false
  /\ (Label sub = EmptyString \/ Label sub ∈ labels).
Proof.
  unfold postLabelled_sub.
  destruct (feature sub); [| intros H; now apply elem_of_nil in H].
  destruct (excludeConfigOrgMember p sender sub);
    [intros H; now apply elem_of_nil in H |].
  destruct (negb (containsLabel labels (Label sub)) && negb (Label sub =? "")%string)
    eqn:Hl; [intros H; now apply elem_of_nil in H |].
  apply label_filter_passed in Hl.
  intros H. apply list_elem_of_singleton in H. now subst.
Qed.

Lemma postIssueEvent_sub_gate (p : Plugin) (event : IssuesEvent.t)
    (action eventLabel : string) (labels : list string) (post : Post)
    (sub : Subscription) (e : Effect) :
  e ∈ postIssueEvent_sub p event action eventLabel labels post sub ->
  e = CreatePost (withChannelId post (ChannelID sub))
  /\ (Issues sub = true \/ IssueCreations sub = true)
  /\ (IssueCreations sub = true -> action = actionOpened)
  /\ excludeConfigOrgMember p (IssuesEvent.Sender event) sub = false
  /\ (Label sub = EmptyString \/ Label sub ∈ labels).
Proof.
  unfold postIssueEvent_sub.
  destruct (Issues sub) eqn:Hi; destruct (IssueCreations sub) eqn:Hc; cbn [negb andb];
    try (intros H; now apply elem_of_nil in H).
  all: try (destruct (String.eqb_spec action actionOpened) as [Ha | Ha]; cbn [negb];
            [| intros H; now apply elem_of_nil in H]).
  all: destruct (excludeConfigOrgMember p (IssuesEvent.Sender event) sub);
    [intros H; now apply elem_of_nil in H |].
  all: destruct (negb (containsLabel labels (Label sub))
                 && negb (Label sub =? "")%string) eqn:Hl;
    [intros H; now apply elem_of_nil in H |].
  all: apply label_filter_passed in Hl.
  all: match goal with
       | |- _ ∈ (if ?c then [] else _) -> _ =>
           destruct c; [intros H; now apply elem_of_nil in H |]
       end.
  all: intros H; apply list_elem_of_singleton in H; subst e.
  all: repeat split; auto; intros; congruence.
Qed.

Lemma postPullRequestEvent_loop_gate (p : Plugin) (event : PullRequestEvent.t)
    (action eventLabel : string) (labels : list string)
    (newPRMessage closedPRMessage : string) (subs : list Subscription) :
  forall post e,
    e ∈ postPullRequestEvent_loop p event action eventLabel labels
          newPRMessage closedPRMessage post subs ->
    exists sub post',
      e = CreatePost post' /\ sub ∈ subs
      /\ ChannelId post' = ChannelID sub /\ UserId post' = UserId post
      /\ (Pulls sub = true \/ PullsMerged sub = true)
      /\ (PullsMerged sub = true -> action = actionClosed)
      /\ excludeConfigOrgMember p (PullRequestEvent.Sender event) sub = false
      /\ (Label sub = EmptyString \/ Label sub ∈ labels).
Proof.
  induction subs as [|sub subs IH]; intros post e Hin;
    [now apply elem_of_nil in Hin |].
  assert (Hrest : forall post',
             UserId post' = UserId post ->
             e ∈ postPullRequestEvent_loop p event action eventLabel labels
                   newPRMessage closedPRMessage post' subs ->
             exists sub0 q,
               e = CreatePost q /\ sub0 ∈ sub :: subs
               /\ ChannelId q = ChannelID sub0 /\ UserId q = UserId post
               /\ (Pulls sub0 = true \/ PullsMerged sub0 = true)
               /\ (PullsMerged sub0 = true -> action = actionClosed)
               /\ excludeConfigOrgMember p (PullRequestEvent.Sender event) sub0 = false
               /\ (Label sub0 = EmptyString \/ Label sub0 ∈ labels)).
  { intros post' Hu H.
    destruct (IH post' e H) as (s0 & q & -> & Hs0 & Hq & Hauthor & Hrest).
    exists s0, q. split; [reflexivity |].
    split; [now apply list_elem_of_further |]. split; [exact Hq |].
    split; [congruence | exact Hrest]. }
  cbn [postPullRequestEvent_loop] in Hin.
  destruct (negb (Pulls sub) && negb (PullsMerged sub)) eqn:Hfeature;
    [now apply Hrest in Hin |].
  destruct (PullsMerged sub && negb (action =? actionClosed)%string) eqn:Hmerged;
    [now apply Hrest in Hin |].
  destruct (excludeConfigOrgMember p (PullRequestEvent.Sender event) sub) eqn:Hex;
    [now apply Hrest in Hin |].
  destruct (negb (containsLabel labels (Label sub))
            && negb (Label sub =? "")%string) eqn:Hl;
    [now apply Hrest in Hin |].
  apply label_filter_passed in Hl.
  assert (Hgate : (Pulls sub = true \/ PullsMerged sub = true)
                  /\ (PullsMerged sub = true -> action = actionClosed)).
  { split.
    - destruct (Pulls sub); [now left |]. destruct (PullsMerged sub); [now right |].
      discriminate.
    - intros Hm. rewrite Hm in Hmerged.
      destruct (String.eqb_spec action actionClosed); [assumption | discriminate]. }
  match type of Hin with
  | _ ∈ match ?flow with _ => _ end =>
      destruct flow as [| | post1] eqn:Hflow
  end; [now apply Hrest in Hin | now apply elem_of_nil in Hin |].
  assert (Hu1 : UserId post1 = UserId post).
  { destruct (action =? actionLabeled)%string.
    - destruct (negb (Label sub =? "")%string && (Label sub =? eventLabel)%string);
        [| discriminate].
      destruct (renderTemplate p "pullRequestLabelled" (EvPullRequest event));
        [| discriminate].
      now injection Hflow as <-.
    - now injection Hflow as <-. }
  apply elem_of_cons in Hin as [-> | Hin].
  - eexists sub, _. split; [reflexivity |]. split; [apply list_elem_of_here |].
    split; [reflexivity |]. split.
    + destruct (action =? actionOpened)%string, (action =? actionClosed)%string;
        exact Hu1.
    + destruct Hgate. auto.
  - apply Hrest in Hin; [exact Hin |].
    destruct (action =? actionOpened)%string, (action =? actionClosed)%string;
      exact Hu1.
Qed.

Lemma flat_map_origin {A : Type} (f : A -> list Effect) (l : list A) (e : Effect) :
  e ∈ flat_map f l -> exists x, x ∈ l /\ e ∈ f x.
Proof.
  intros H. apply list_elem_of_In, in_flat_map in H as (x & Hx & H).
  exists x. split; now apply list_elem_of_In.
Qed.

(** Every effect of a channel fan-out is a post by the bot to the channel
    of a matched subscription that passed the gates of its loop. *)
Lemma channelFanOut_origin (p : Plugin) (kv : KVStore) (now : time.Time)
    (event : Event) (e : Effect) :
  e ∈ channelFanOut p kv now event ->
  exists sub post, fanOutOrigin p kv event e sub post.
Proof.
  destruct event as [ev | ev | ev | ev | ev | ev | ev | ev | ev |];
    cbn [channelFanOut]; intros Hin; [| | | | | | | | | now apply elem_of_nil in Hin].
  - unfold postPullRequestEvent in Hin.
    destruct (length _ =? 0)%nat; [now apply elem_of_nil in Hin |].
    destruct (negb _ && negb _ && negb _); [now apply elem_of_nil in Hin |].
    destruct (renderTemplate p "newPR" _); [| now apply elem_of_nil in Hin].
    destruct (renderTemplate p "closedPR" _); [| now apply elem_of_nil in Hin].
    apply postPullRequestEvent_loop_gate in Hin
      as (sub & post & -> & Hsub & Hch & Hu & Hg1 & Hg2 & Hex & Hl).
    exists sub, post. now split.
  - unfold postIssueEvent in Hin.
    destruct (_ && _); [now apply elem_of_nil in Hin |].
    destruct (length _ =? 0)%nat; [now apply elem_of_nil in Hin |].
    match type of Hin with
    | _ ∈ match ?t with _ => _ end => destruct t as [template |]
    end; [| now apply elem_of_nil in Hin].
    destruct (renderTemplate p template _); [| now apply elem_of_nil in Hin].
    apply flat_map_origin in Hin as (sub & Hsub & Hin).
    apply postIssueEvent_sub_gate in Hin as (-> & Hg1 & Hg2 & Hex & Hl).
    eexists sub, _. now split.
  - unfold postIssueCommentEvent in Hin.
    destruct (length _ =? 0)%nat; [now apply elem_of_nil in Hin |].
    destruct (negb _); [now apply elem_of_nil in Hin |].
    destruct (renderTemplate p "issueComment" _); [| now apply elem_of_nil in Hin].
    apply flat_map_origin in Hin as (sub & Hsub & Hin).
    apply postLabelled_sub_origin in Hin as (-> & Hg & Hex & Hl).
    eexists sub, _. split; try eassumption; try reflexivity.
    cbn [UserId withChannelId].
    now destruct (_ =? _)%string.
  - unfold postPullRequestReviewEvent in Hin.
    destruct (length _ =? 0)%nat; [now apply elem_of_nil in Hin |].
    destruct (negb _); [now apply elem_of_nil in Hin |].
    destruct (negb _); [now apply elem_of_nil in Hin |].
    destruct (renderTemplate p _ _); [| now apply elem_of_nil in Hin].
    apply flat_map_origin in Hin as (sub & Hsub & Hin).
    apply postLabelled_sub_origin in Hin as (-> & Hg & Hex & Hl).
    eexists sub, _. now split.
  - unfold postPullRequestReviewCommentEvent in Hin.
    destruct (length _ =? 0)%nat; [now apply elem_of_nil in Hin |].
    destruct (renderTemplate p _ _); [| now apply elem_of_nil in Hin].
    apply flat_map_origin in Hin as (sub & Hsub & Hin).
    apply postLabelled_sub_origin in Hin as (-> & Hg & Hex & Hl).
    eexists sub, _. now split.
  - unfold postPushEvent in Hin.
    destruct (length _ =? 0)%nat; [now apply elem_of_nil in Hin |].
    destruct (length _ =? 0)%nat; [now apply elem_of_nil in Hin |].
    destruct (renderTemplate p _ _); [| now apply elem_of_nil in Hin].
    apply flat_map_origin in Hin as (sub & Hsub & Hin).
    apply postFeature_sub_origin in Hin as (-> & Hg & Hex).
    eexists sub, _. now split.
  - unfold postCreateEvent in Hin.
    destruct (length _ =? 0)%nat; [now apply elem_of_nil in Hin |].
    destruct (negb _ && negb _); [now apply elem_of_nil in Hin |].
    destruct (renderTemplate p _ _); [| now apply elem_of_nil in Hin].
    apply flat_map_origin in Hin as (sub & Hsub & Hin).
    apply postFeature_sub_origin in Hin as (-> & Hg & Hex).
    eexists sub, _. now split.
  - unfold postDeleteEvent in Hin.
    destruct (length _ =? 0)%nat; [now apply elem_of_nil in Hin |].
    destruct (negb _ && negb _); [now apply elem_of_nil in Hin |].
    destruct (renderTemplate p _ _); [| now apply elem_of_nil in Hin].
    apply flat_map_origin in Hin as (sub & Hsub & Hin).
    apply postFeature_sub_origin in Hin as (-> & Hg & Hex).
    eexists sub, _. now split.
  - unfold postStarEvent in Hin.
    destruct (length _ =? 0)%nat; [now apply elem_of_nil in Hin |].
    destruct (renderTemplate p _ _); [| now apply elem_of_nil in Hin].
    apply flat_map_origin in Hin as (sub & Hsub & Hin).
    apply postFeature_sub_origin in Hin as (-> & Hg & Hex).
    eexists sub, _. now split.
Qed.

End FanOut.

Section FanOutFacts.

Lemma excludeConfigOrgMember_true (p : Plugin) (user : string) (sub : Subscription) :
  excludeConfigOrgMember p user sub = true
  <-> ExcludeOrgMembers sub = true
      /\ exists info,
           getGitHubUserInfo p (CreatorID sub) = Some info
           /\ isUserOrganizationMember p (githubConnectUser p info) user (GitHubOrg p)
              = true.
Proof.
  unfold excludeConfigOrgMember.
  destruct (ExcludeOrgMembers sub); cbn [negb].
  - destruct (getGitHubUserInfo p (CreatorID sub)) as [info |].
    + split; [intros H; split; [reflexivity | now exists info] |].
      intros [_ (info' & [= <-] & H)]. exact H.
    + split; [discriminate | intros [_ (info' & Hinfo & _)]; discriminate].
  - split; [discriminate | intros [H _]; discriminate].
Qed.

Lemma GetSubscribedChannelsForRepository_unreadable (p : Plugin) (kv : KVStore)
    (repo : option Repository.t) :
  KVGet_error p SubscriptionsKey <> None ->
  GetSubscribedChannelsForRepository p kv repo = [].
Proof.
  intros Herr. rewrite GetSubscribedChannelsForRepository_candidates.
  now destruct (KVGet_error p SubscriptionsKey).
Qed.

Lemma GetSubscribedChannelsForRepository_no_candidates (p : Plugin) (kv : KVStore)
    (repo : option Repository.t) :
  candidateSubscriptions kv repo = [] ->
  GetSubscribedChannelsForRepository p kv repo = [].
Proof.
  intros Hnone. rewrite GetSubscribedChannelsForRepository_candidates, Hnone.
  now destruct (KVGet_error p SubscriptionsKey).
Qed.

Lemma channelFanOut_no_subscriptions (p : Plugin) (kv : KVStore) (now : time.Time)
    (event : Event) :
  GetSubscribedChannelsForRepository p kv (switchRepository event) = [] ->
  channelFanOut p kv now event = [].
Proof.
  destruct event as [ev | ev | ev | ev | ev | ev | ev | ev | ev |];
    cbn [channelFanOut switchRepository]; intros Hnone; try reflexivity;
    [ unfold postPullRequestEvent | unfold postIssueEvent
    | unfold postIssueCommentEvent | unfold postPullRequestReviewEvent
    | unfold postPullRequestReviewCommentEvent | unfold postPushEvent
    | unfold postCreateEvent | unfold postDeleteEvent | unfold postStarEvent ];
    rewrite Hnone; try reflexivity.
  now destruct (_ && _).
Qed.

End FanOutFacts.

(** X5.  Every effect of a channel fan-out, for each of the nine event
    kinds, is a post authored by the bot into the channel of one of the
    subscriptions matched for the repository of the event. *)
Theorem fan_out_posts_to_matched_channels (p : Plugin) (kv : KVStore)
    (now : time.Time) (event : Event) (e : Effect) :
  e ∈ channelFanOut p kv now event ->
  exists sub post,
    e = CreatePost post
    /\ sub ∈ GetSubscribedChannelsForRepository p kv (switchRepository event)
    /\ ChannelId post = ChannelID sub
    /\ UserId post = BotUserID p.
Proof.
  intros Hin. apply channelFanOut_origin in Hin as (sub & post & Horigin).
  exists sub, post. now destruct Horigin.
Qed.

Lemma fan_out_posts_to_matched_channels_witness :
  exists sub post,
    CreatePost {| UserId := "bot"; ChannelId := "triage";
                  PostType := "custom_git_pr";
                  Message := "pullRequestLabelled" |} = CreatePost post
    /\ sub ∈ GetSubscribedChannelsForRepository samplePlugin bugStore publicWidgets
    /\ ChannelId post = ChannelID sub
    /\ UserId post = "bot".
Proof.
  apply (fan_out_posts_to_matched_channels samplePlugin bugStore 0
           (EvPullRequest (labeledPullRequest "bug"))).
  apply list_elem_of_In. vm_compute. now left.
Defined.

(** X6.  A subscription receives the post of a fan-out only through the
    feature gate of the event kind: pulls or pulls_merged for pull
    requests (pulls_merged only when closed), issues or issue_creations
    for issues (issue_creations only when opened), issue_comments,
    pull_reviews, pushes, creates, deletes and stars for the others. *)
Theorem fan_out_respects_feature_gate (p : Plugin) (kv : KVStore)
    (now : time.Time) (event : Event) (e : Effect) :
  e ∈ channelFanOut p kv now event ->
  exists sub post,
    e = CreatePost post
    /\ sub ∈ GetSubscribedChannelsForRepository p kv (switchRepository event)
    /\ ChannelId post = ChannelID sub
    /\ fanOutGate event sub.
Proof.
  intros Hin. apply channelFanOut_origin in Hin as (sub & post & Horigin).
  exists sub, post. now destruct Horigin.
Qed.

Lemma fan_out_respects_feature_gate_witness :
  exists sub post,
    CreatePost {| UserId := "bot"; ChannelId := "town-square";
                  PostType := "custom_git_star";
                  Message := "newRepoStar" |} = CreatePost post
    /\ sub ∈ GetSubscribedChannelsForRepository samplePlugin acmeStore publicWidgets
    /\ ChannelId post = ChannelID sub
    /\ Stars sub = true.
Proof.
  apply (fan_out_respects_feature_gate samplePlugin acmeStore 0
           (EvStar starOfWidgets)).
  apply list_elem_of_In. vm_compute. now left.
Defined.

(** X7.  A subscription that excludes organization members receives no
    post of a fan-out for an event whose sender the hosting platform
    reports, to the subscription's creator, as a member of the configured
    organization. *)
Theorem fan_out_skips_organization_members (p : Plugin) (kv : KVStore)
    (now : time.Time) (event : Event) (e : Effect) :
  e ∈ channelFanOut p kv now event ->
  exists sub post,
    e = CreatePost post
    /\ sub ∈ GetSubscribedChannelsForRepository p kv (switchRepository event)
    /\ ChannelId post = ChannelID sub
    /\ ~ (ExcludeOrgMembers sub = true
          /\ exists info,
               getGitHubUserInfo p (CreatorID sub) = Some info
               /\ isUserOrganizationMember p (githubConnectUser p info)
                    (eventSender event) (GitHubOrg p) = true).
Proof.
  intros Hin. apply channelFanOut_origin in Hin as (sub & post & Horigin).
  exists sub, post. destruct Horigin as [He Hsub Hch _ _ Hex _].
  repeat split; try assumption.
  intros Hmember. apply excludeConfigOrgMember_true in Hmember. congruence.
Qed.

Lemma fan_out_skips_organization_members_witness :
  exists sub post,
    CreatePost {| UserId := "bot"; ChannelId := "town-square";
                  PostType := "custom_git_star";
                  Message := "newRepoStar" |} = CreatePost post
    /\ sub ∈ GetSubscribedChannelsForRepository samplePlugin acmeStore publicWidgets
    /\ ChannelId post = ChannelID sub
    /\ ~ (ExcludeOrgMembers sub = true
          /\ exists info,
               getGitHubUserInfo samplePlugin (CreatorID sub) = Some info
               /\ isUserOrganizationMember samplePlugin
                    (githubConnectUser samplePlugin info) "alice" "" = true).
Proof.
  apply (fan_out_skips_organization_members samplePlugin acmeStore 0
           (EvStar starOfWidgets)).
  apply list_elem_of_In. vm_compute. now left.
Defined.

(** X8.  For pull-request, issue, issue-comment and review events, a
    subscription with a label filter receives a post only if the issue or
    pull request of the event carries that label. *)
Theorem fan_out_respects_label_filter (p : Plugin) (kv : KVStore)
    (now : time.Time) (event : Event) (labels : list string) (e : Effect) :
  eventLabels event = Some labels ->
  e ∈ channelFanOut p kv now event ->
  exists sub post,
    e = CreatePost post
    /\ sub ∈ GetSubscribedChannelsForRepository p kv (switchRepository event)
    /\ ChannelId post = ChannelID sub
    /\ (Label sub = EmptyString \/ Label sub ∈ labels).
Proof.
  intros Hlabels Hin. apply channelFanOut_origin in Hin as (sub & post & Horigin).
  exists sub, post. destruct Horigin as [He Hsub Hch _ _ _ Hl].
  rewrite Hlabels in Hl. auto.
Qed.

Lemma fan_out_respects_label_filter_witness :
  exists sub post,
    CreatePost {| UserId := "bot"; ChannelId := "triage";
                  PostType := "custom_git_pr";
                  Message := "newPR" |} = CreatePost post
    /\ sub ∈ GetSubscribedChannelsForRepository samplePlugin bugStore publicWidgets
    /\ ChannelId post = ChannelID sub
    /\ (Label sub = EmptyString \/ Label sub ∈ ["docs"; "bug"]).
Proof.
  apply (fan_out_respects_label_filter samplePlugin bugStore 0
           (EvPullRequest (openedPullRequest ["docs"; "bug"] "alice"))).
  - reflexivity.
  - apply list_elem_of_In. vm_compute. now left.
Defined.

(** X9.  A fan-out posts nothing for an event that is not eligible: a
    pull-request action other than opened, labeled or closed; an issue
    action other than opened, closed, reopened or labeled; an issue-comment
    action other than created; a review that is not submitted or whose
    state is not APPROVED, COMMENTED or CHANGES_REQUESTED; a push without
    commits; a created or deleted reference that is neither tag nor
    branch. *)
Theorem fan_out_needs_eligible_event (p : Plugin) (kv : KVStore)
    (now : time.Time) (event : Event) :
  eligible event = false ->
  channelFanOut p kv now event = [].
Proof.
  destruct event as [ev | ev | ev | ev | ev | ev | ev | ev | ev |];
    cbn [eligible channelFanOut]; intros Hno; try discriminate; try reflexivity.
  - unfold postPullRequestEvent.
    destruct (length _ =? 0)%nat; [reflexivity |].
    apply orb_false_elim in Hno as [Hno Hc]. apply orb_false_elim in Hno as [Ho Hl].
    now rewrite Ho, Hl, Hc.
  - unfold postIssueEvent.
    destruct (_ && _); [reflexivity |].
    destruct (length _ =? 0)%nat; [reflexivity |].
    apply orb_false_elim in Hno as [Hno Hl]. apply orb_false_elim in Hno as [Hno Hr].
    apply orb_false_elim in Hno as [Ho Hc].
    now rewrite Ho, Hc, Hr, Hl.
  - unfold postIssueCommentEvent.
    destruct (length _ =? 0)%nat; [reflexivity |]. now rewrite Hno.
  - unfold postPullRequestReviewEvent.
    destruct (length _ =? 0)%nat; [reflexivity |].
    destruct (PullRequestReviewEvent.Action ev =? actionSubmitted)%string;
      [| reflexivity].
    cbn [andb negb] in *. now rewrite Hno.
  - unfold postPushEvent.
    destruct (length (GetSubscribedChannelsForRepository _ _ _) =? 0)%nat;
      [reflexivity |].
    apply negb_false_iff in Hno. now rewrite Hno.
  - unfold postCreateEvent.
    destruct (length _ =? 0)%nat; [reflexivity |].
    apply orb_false_elim in Hno as [Ht Hb]. now rewrite Ht, Hb.
  - unfold postDeleteEvent.
    destruct (length _ =? 0)%nat; [reflexivity |].
    apply orb_false_elim in Hno as [Ht Hb]. now rewrite Ht, Hb.
Qed.

Lemma fan_out_needs_eligible_event_witness :
  channelFanOut samplePlugin bugStore 0 (EvPullRequest editedPullRequest) = [].
Proof.
  apply fan_out_needs_eligible_event. reflexivity.
Defined.

(** X10.  When the subscription document cannot be read, or holds nothing
    under the repository and organization keys of the event, the fan-out
    posts nothing: the event degrades to "no subscribers". *)
Theorem fan_out_without_subscribers (p : Plugin) (kv : KVStore)
    (now : time.Time) (event : Event) :
  KVGet_error p SubscriptionsKey <> None
  \/ candidateSubscriptions kv (switchRepository event) = [] ->
  channelFanOut p kv now event = [].
Proof.
  intros [Herr | Hnone]; apply channelFanOut_no_subscriptions.
  - now apply GetSubscribedChannelsForRepository_unreadable.
  - now apply GetSubscribedChannelsForRepository_no_candidates.
Qed.

Lemma fan_out_without_subscribers_witness :
  channelFanOut
    (samplePluginWith (fun _ => Some "down") (fun _ => true)) acmeStore 0
    (EvStar starOfWidgets) = [].
Proof.
  apply fan_out_without_subscribers. left. discriminate.
Defined.

(** ** The timing guard of [postIssueEvent], beyond the first 4 seconds *)

Section Guard.

Lemma Seconds_lt_4 (d : time.Duration) :
  (time.Seconds d < inject_Z 4)%Q <-> d < 4 * time.Second.
Proof.
  unfold time.Seconds, time.Second.
  pose proof (Z.quot_rem' d 1000000000) as Hqr.
  unfold Qlt, Qplus, inject_Z. simpl Qnum. simpl Qden. lia.
Qed.

Lemma guard_test (d : time.Duration) :
  (if Qlt_le_dec (time.Seconds d) (inject_Z 4) then true else false)
  = (d <? 4 * time.Second).
Proof.
  destruct (Qlt_le_dec (time.Seconds d) (inject_Z 4)) as [Hlt | Hge];
    destruct (Z.ltb_spec d (4 * time.Second)) as [H | H]; try reflexivity.
  - apply (proj1 (Seconds_lt_4 d)) in Hlt. unfold time.Second in *. lia.
  - apply (proj2 (Seconds_lt_4 d)) in H. exfalso. now apply (Qlt_not_le _ _ H).
Qed.

Lemma timeDiff_in_range (now createdAt : time.Time) :
  0 <= now - createdAt < 2 ^ 63 ->
  time.mul (time.Until now createdAt) (-1) = now - createdAt.
Proof.
  unfold time.mul, time.Until, time.Sub, time.minDuration, time.maxDuration,
    time.wrap64.
  intros Hd.
  destruct (Z.ltb_spec (createdAt - now) (- 2 ^ 63)); [lia |].
  destruct (Z.ltb_spec (2 ^ 63 - 1) (createdAt - now)); [lia |].
  replace ((createdAt - now) * -1 + 2 ^ 63) with (now - createdAt + 2 ^ 63) by lia.
  rewrite Z.mod_small by lia. lia.
Qed.

Lemma timeDiff_overflow (now createdAt : time.Time) :
  2 ^ 63 <= now - createdAt ->
  time.mul (time.Until now createdAt) (-1) = - 2 ^ 63.
Proof.
  unfold time.mul, time.Until, time.Sub, time.minDuration, time.maxDuration.
  intros Hd.
  destruct (Z.ltb_spec (createdAt - now) (- 2 ^ 63)); [reflexivity |].
  destruct (Z.ltb_spec (2 ^ 63 - 1) (createdAt - now)); [lia |].
  replace (createdAt - now) with (- 2 ^ 63) by lia. reflexivity.
Qed.

End Guard.

(** X11.  Outside its guard the issue fan-out does not depend on the
    clock: for an action other than "labeled", and for a labeling of an
    issue at least 4 seconds old, [postIssueEvent] posts the same at any
    two such instants. *)
Theorem postIssueEvent_ignores_clock_outside_guard (p : Plugin) (kv : KVStore)
    (now1 now2 : time.Time) (event : IssuesEvent.t) :
  guardOpen now1 event -> guardOpen now2 event ->
  postIssueEvent p kv now1 event = postIssueEvent p kv now2 event.
Proof.
  assert (Hopen : forall now,
             guardOpen now event ->
             (IssuesEvent.Action event =? actionLabeled)%string
             && (if Qlt_le_dec
                      (time.Seconds
                         (time.mul
                            (time.Until now (Issue.CreatedAt (IssuesEvent.Issue event)))
                            (-1)))
                      (inject_Z 4)
                 then true else false) = false).
  { intros now [Hne | Hold].
    - apply String.eqb_neq in Hne. now rewrite Hne.
    - rewrite guard_test, timeDiff_in_range by (unfold time.Second in Hold; lia).
      apply andb_false_iff. right. apply Z.ltb_ge. lia. }
  intros H1 H2. unfold postIssueEvent. now rewrite (Hopen _ H1), (Hopen _ H2).
Qed.

Lemma postIssueEvent_ignores_clock_outside_guard_witness :
  postIssueEvent samplePlugin bugStore 1700000004000000000
    (labeledIssue 1700000000000000000 "bug")
  = postIssueEvent samplePlugin bugStore 1800000000000000000
      (labeledIssue 1700000000000000000 "bug").
Proof.
  apply postIssueEvent_ignores_clock_outside_guard;
    right; unfold time.Second; simpl; lia.
Defined.

(** X12.  The age of the issue is an [int64] count of nanoseconds: once
    the issue is 2^63 nanoseconds old or older (about 292 years, as for an
    event without a creation date, whose date reads as year 1), the
    saturated difference overflows on negation and a "labeled" event is
    suppressed like a fresh one. *)
Theorem issue_labeled_overflowing_age_is_suppressed (p : Plugin) (kv : KVStore)
    (now : time.Time) (event : IssuesEvent.t) :
  IssuesEvent.Action event = actionLabeled ->
  2 ^ 63 <= now - Issue.CreatedAt (IssuesEvent.Issue event) ->
  postIssueEvent p kv now event = [].
Proof.
  intros Ha Hold. unfold postIssueEvent.
  rewrite Ha, guard_test, timeDiff_overflow by exact Hold.
  reflexivity.
Qed.

Lemma issue_labeled_overflowing_age_is_suppressed_witness :
  postIssueEvent samplePlugin bugStore 1700000000000000000
    (labeledIssue (-62135596800000000000) "bug") = [].
Proof.
  apply issue_labeled_overflowing_age_is_suppressed; [reflexivity |].
  simpl. lia.
Defined.

(** ** Actor notifications: who is reached *)

Section Recipients.














End Recipients.





Section DirectMessages.

Lemma postIssueNotification_one (message userID : string) :
  (length (List.filter isDirectMessage
             (postIssueNotification message userID "")) <= 1)%nat
  /\ (length (List.filter isDirectMessage
                (postIssueNotification message "" userID)) <= 1)%nat.
Proof.
  unfold postIssueNotification. destruct userID; cbn; lia.
Qed.

End DirectMessages.

(** X15.  The action paths send at most one direct message per event: the
    action of a pull-request or issue event selects a single target (the
    requested reviewer, the author or the assignee). *)
Theorem action_paths_send_at_most_one_message (p : Plugin)
    (pull : PullRequestEvent.t) (issues : IssuesEvent.t) :
  (length (List.filter isDirectMessage (handlePullRequestNotification p pull)) <= 1)%nat
  /\ (length (List.filter isDirectMessage (handleIssueNotification p issues)) <= 1)%nat.
Proof.
  split.
  - unfold handlePullRequestNotification.
    destruct (PullRequestEvent.Action pull =? "review_requested")%string.
    { destruct (_ =? _)%string; [cbn; lia |].
      destruct (renderTemplate p _ _); [| cbn; lia].
      cbn [requestedUserID authorUserID assigneeUserID].
      destruct (permittedUserID _ _ _ _); cbn; lia. }
    destruct (PullRequestEvent.Action pull =? actionClosed)%string.
    { destruct (_ =? _)%string; [cbn; lia |].
      destruct (renderTemplate p _ _); [| cbn; lia].
      cbn [requestedUserID authorUserID assigneeUserID String.length Nat.ltb
             Nat.leb app].
      apply postIssueNotification_one. }
    destruct (PullRequestEvent.Action pull =? actionReopened)%string.
    { destruct (_ =? _)%string; [cbn; lia |].
      destruct (renderTemplate p _ _); [| cbn; lia].
      cbn [requestedUserID authorUserID assigneeUserID String.length Nat.ltb
             Nat.leb app].
      apply postIssueNotification_one. }
    destruct (PullRequestEvent.Action pull =? actionAssigned)%string; [| cbn; lia].
    destruct (_ =? _)%string; [cbn; lia |].
    destruct (renderTemplate p _ _); [| cbn; lia].
    cbn [requestedUserID authorUserID assigneeUserID String.length Nat.ltb
           Nat.leb app].
    apply postIssueNotification_one.
  - unfold handleIssueNotification.
    destruct (_ =? _)%string; [cbn; lia |].
    destruct (IssuesEvent.Action issues =? actionClosed)%string.
    { destruct (renderTemplate p _ _); [| cbn; lia].
      cbn [authorUserID assigneeUserID]. apply postIssueNotification_one. }
    destruct (IssuesEvent.Action issues =? actionReopened)%string.
    { destruct (renderTemplate p _ _); [| cbn; lia].
      cbn [authorUserID assigneeUserID]. apply postIssueNotification_one. }
    destruct (IssuesEvent.Action issues =? actionAssigned)%string; [| cbn; lia].
    destruct (_ =? _)%string; [cbn; lia |].
    destruct (renderTemplate p _ _); [| cbn; lia].
    cbn [authorUserID assigneeUserID]. apply postIssueNotification_one.
Qed.

(** X16.  An edited or deleted comment is posted to no channel and
    notifies neither the mentioned users nor the author of the issue: of
    the four handlers of an issue-comment event only the assignee path
    has no action check, so everything the event issues comes from
    it. *)
Theorem edited_comment_reaches_only_assignees (p : Plugin) (kv : KVStore)
    (now : time.Time) (event : IssueCommentEvent.t) :
  IssueCommentEvent.Action event = actionEdited
  \/ IssueCommentEvent.Action event = actionDeleted ->
  channelFanOut p kv now (EvIssueComment event)
  ++ actorNotifications p kv (EvIssueComment event)
  = handleCommentAssigneeNotification p kv event.
Proof.
  intros Haction. cbn [channelFanOut actorNotifications].
  assert (Hpost : postIssueCommentEvent p kv event = []).
  { unfold postIssueCommentEvent. destruct (length _ =? 0)%nat; [reflexivity |].
    now destruct Haction as [-> | ->]. }
  assert (Hmention : handleCommentMentionNotification p event = []).
  { unfold handleCommentMentionNotification. now destruct Haction as [-> | ->]. }
  assert (Hauthor : handleCommentAuthorNotification p kv event = []).
  { unfold handleCommentAuthorNotification. destruct (_ =? _)%string; [reflexivity |].
    now destruct Haction as [-> | ->]. }
  now rewrite Hpost, Hmention, Hauthor.
Qed.

Lemma edited_comment_reaches_only_assignees_witness :
  channelFanOut samplePlugin bobMutedAlice 0 (EvIssueComment editedComment)
  ++ actorNotifications samplePlugin bobMutedAlice (EvIssueComment editedComment)
  = handleCommentAssigneeNotification samplePlugin bobMutedAlice editedComment.
Proof.
  apply edited_comment_reaches_only_assignees. now left.
Defined.

(** ** Splitting and joining on a one-character separator *)

Section SplitOnChar.

Variable c : ascii.

Let sep : string := String c EmptyString.

Lemma HasPrefix_char (x : ascii) (a : string) :
  strings.HasPrefix (String x a) sep = true <-> x = c.
Proof.
  rewrite HasPrefix_spec. unfold sep. split.
  - intros [r Hr]. rewrite append_cons in Hr. congruence.
  - intros ->. now exists a.
Qed.

Lemma Contains_char_cons (x : ascii) (a : string) :
  strings.Contains (String x a) sep = false
  <-> x <> c /\ strings.Contains a sep = false.
Proof.
  rewrite Contains_String, orb_false_iff. split.
  - intros [Hp Ha]. split; [| exact Ha].
    intros ->. now rewrite (proj2 (HasPrefix_char c a)) in Hp.
  - intros [Hx Ha]. split; [| exact Ha].
    destruct (strings.HasPrefix (String x a) sep) eqn:Hp; [| reflexivity].
    now apply HasPrefix_char in Hp.
Qed.

Lemma Contains_char_empty : strings.Contains "" sep = false.
Proof. reflexivity. Qed.

Lemma Contains_char_append (a b : string) :
  strings.Contains (a +:+ b) sep = false
  <-> strings.Contains a sep = false /\ strings.Contains b sep = false.
Proof.
  induction a as [|x a IH].
  - rewrite append_empty_l. split; [now split | now intros [_ ?]].
  - rewrite append_cons, !Contains_char_cons, IH. tauto.
Qed.

Lemma split_loop_step (cur : list ascii) (x : ascii) (s : string) :
  strings.split_loop sep 0 cur (String x s)
  = if strings.HasPrefix (String x s) sep
    then strings.rev_string cur "" :: strings.split_loop sep 0 [] s
    else strings.split_loop sep 0 (x :: cur) s.
Proof. reflexivity. Qed.

Lemma rev_string_cons (x : ascii) (cur : list ascii) (t : string) :
  strings.rev_string (x :: cur) "" +:+ t = strings.rev_string cur "" +:+ String x t.
Proof.
  cbn [strings.rev_string]. rewrite (rev_string_append cur (String x "")).
  now rewrite append_assoc.
Qed.

(** Splitting distributes over a separator in the text. *)
Lemma split_loop_app (b : string) (s : string) :
  forall cur,
    strings.split_loop sep 0 cur (s +:+ sep +:+ b)
    = strings.split_loop sep 0 cur s ++ strings.split_loop sep 0 [] b.
Proof.
  induction s as [|x s IH]; intros cur.
  - rewrite append_empty_l. unfold sep at 2. rewrite append_cons, append_empty_l.
    rewrite split_loop_step, (proj2 (HasPrefix_char c b)) by reflexivity.
    reflexivity.
  - rewrite append_cons, !split_loop_step.
    destruct (Ascii.ascii_dec x c) as [-> | Hx].
    + rewrite !(proj2 (HasPrefix_char c _)) by reflexivity.
      now rewrite IH.
    + assert (Hp : forall t, strings.HasPrefix (String x t) sep = false).
      { intros t. destruct (strings.HasPrefix (String x t) sep) eqn:Hp;
          [apply HasPrefix_char in Hp; contradiction | reflexivity]. }
      rewrite !Hp. apply IH.
Qed.

Lemma split_loop_free (s : string) :
  forall cur,
    strings.Contains s sep = false ->
    strings.split_loop sep 0 cur s = [strings.rev_string cur "" +:+ s].
Proof.
  induction s as [|x s IH]; intros cur Hfree.
  - now rewrite append_empty_r.
  - apply Contains_char_cons in Hfree as [Hx Hfree].
    rewrite split_loop_step.
    destruct (strings.HasPrefix (String x s) sep) eqn:Hp;
      [apply HasPrefix_char in Hp; contradiction |].
    rewrite (IH _ Hfree). now rewrite rev_string_cons.
Qed.

Lemma Split_char (s : string) : strings.Split s sep = strings.split_loop sep 0 [] s.
Proof. reflexivity. Qed.

(** A text without the separator is a single field. *)
Lemma Split_free (s : string) :
  strings.Contains s sep = false -> strings.Split s sep = [s].
Proof. intros Hfree. now rewrite Split_char, split_loop_free. Qed.

Lemma Split_app (a b : string) :
  strings.Split (a +:+ sep +:+ b) sep = strings.Split a sep ++ strings.Split b sep.
Proof. rewrite !Split_char. apply split_loop_app. Qed.

Lemma Split_first (a b : string) :
  strings.Contains a sep = false ->
  strings.Split (a +:+ sep +:+ b) sep = a :: strings.Split b sep.
Proof. intros Hfree. now rewrite Split_app, (Split_free a). Qed.

Lemma split_loop_nonempty (s : string) :
  forall cur, strings.split_loop sep 0 cur s <> [].
Proof.
  induction s as [|x s IH]; intros cur; [discriminate |].
  rewrite split_loop_step. destruct (strings.HasPrefix _ _); [discriminate | apply IH].
Qed.

Lemma Join_cons (e : string) (rest : list string) :
  rest <> [] -> strings.Join (e :: rest) sep = e +:+ sep +:+ strings.Join rest sep.
Proof. now destruct rest. Qed.

(** Joining the fields gives the text back. *)
Lemma Join_split_loop (s : string) :
  forall cur,
    strings.Join (strings.split_loop sep 0 cur s) sep
    = strings.rev_string cur "" +:+ s.
Proof.
  induction s as [|x s IH]; intros cur.
  - now rewrite append_empty_r.
  - rewrite split_loop_step.
    destruct (strings.HasPrefix (String x s) sep) eqn:Hp.
    + apply HasPrefix_char in Hp. subst x.
      rewrite Join_cons by apply split_loop_nonempty.
      rewrite IH. reflexivity.
    + rewrite IH. apply rev_string_cons.
Qed.

Lemma Join_Split (s : string) : strings.Join (strings.Split s sep) sep = s.
Proof. rewrite Split_char. apply Join_split_loop. Qed.

Lemma rev_string_free (cur : list ascii) :
  forall t,
    (forall x, x ∈ cur -> x <> c) -> strings.Contains t sep = false ->
    strings.Contains (strings.rev_string cur t) sep = false.
Proof.
  induction cur as [|x cur IH]; intros t Hcur Ht; [exact Ht |].
  cbn [strings.rev_string]. apply IH.
  - intros y Hy. apply Hcur. now apply list_elem_of_further.
  - apply Contains_char_cons. split; [apply Hcur, list_elem_of_here | exact Ht].
Qed.

(** No field contains the separator. *)
Lemma split_loop_fields_free (s : string) :
  forall cur e,
    (forall x, x ∈ cur -> x <> c) ->
    e ∈ strings.split_loop sep 0 cur s ->
    strings.Contains e sep = false.
Proof.
  induction s as [|x s IH]; intros cur e Hcur Hin.
  - apply list_elem_of_singleton in Hin. subst e.
    now apply rev_string_free.
  - rewrite split_loop_step in Hin.
    destruct (strings.HasPrefix (String x s) sep) eqn:Hp.
    + apply elem_of_cons in Hin as [-> | Hin].
      * now apply rev_string_free.
      * apply (IH [] e); [| exact Hin]. intros y Hy. now apply elem_of_nil in Hy.
    + apply (IH (x :: cur) e); [| exact Hin].
      intros y Hy. apply elem_of_cons in Hy as [-> | Hy]; [| now apply Hcur].
      intros ->. now rewrite (proj2 (HasPrefix_char c s)) in Hp.
Qed.

Lemma Split_fields_free (s e : string) :
  e ∈ strings.Split s sep -> strings.Contains e sep = false.
Proof.
  rewrite Split_char. apply split_loop_fields_free.
  intros y Hy. now apply elem_of_nil in Hy.
Qed.

(** Splitting what was joined gives the fields back. *)
Lemma Split_Join (l : list string) :
  l <> [] ->
  (forall e, e ∈ l -> strings.Contains e sep = false) ->
  strings.Split (strings.Join l sep) sep = l.
Proof.
  induction l as [|e l IH]; [congruence |]. intros _ Hfree.
  destruct l as [|e' l].
  - apply Split_free, Hfree, list_elem_of_here.
  - rewrite Join_cons by discriminate.
    rewrite Split_first by apply Hfree, list_elem_of_here.
    f_equal. apply IH; [discriminate |].
    intros x Hx. now apply Hfree, list_elem_of_further.
Qed.

End SplitOnChar.

(** ** Label filters, as written in the features *)

Section LabelText.

Lemma quote_char : quote = String doubleQuote EmptyString.
Proof. reflexivity. Qed.

Lemma Split_length_positive (c : ascii) (s : string) :
  (1 <= length (strings.Split s (String c "")))%nat.
Proof.
  pose proof (split_loop_nonempty c s []) as Hne. rewrite Split_char.
  destruct (strings.split_loop _ _ _ _); [congruence | simpl; lia].
Qed.

End LabelText.

(** X17.  The label of a subscription is the text between the first two
    double quotes of its features: features of the form
    [... label:"X" ...], with no quote before the filter, give the label
    X; features that hold [label:] but no quoted text (as in [label:bug])
    give no label filter at all. *)
Theorem Label_reads_the_quoted_text (sub : Subscription) :
  (forall before label after,
     Features sub = before +:+ "label:" +:+ quote +:+ label +:+ quote +:+ after ->
     strings.Contains before quote = false ->
     strings.Contains label quote = false ->
     Label sub = label)
  /\ (strings.Contains (Features sub) quote = false -> Label sub = EmptyString).
Proof.
  split.
  - intros before label after Hf Hbefore Hlabel. unfold Label.
    assert (Hhas : strings.Contains (Features sub) "label:" = true).
    { apply Contains_spec. exists before, (quote +:+ label +:+ quote +:+ after).
      exact Hf. }
    rewrite Hhas. cbn [negb].
    assert (Hsplit : strings.Split (Features sub) quote
                     = (before +:+ "label:") :: label :: strings.Split after quote).
    { rewrite Hf, quote_char in *.
      rewrite <- (append_assoc before "label:").
      rewrite Split_first.
      - now rewrite Split_first.
      - apply Contains_char_append. split; [exact Hbefore | reflexivity]. }
    rewrite Hsplit. cbn [length nth].
    pose proof (Split_length_positive doubleQuote after) as Hpos.
    rewrite <- quote_char in Hpos.
    destruct (Nat.ltb_spec (S (S (length (strings.Split after quote)))) 3);
      [lia | reflexivity].
  - intros Hfree. unfold Label.
    destruct (strings.Contains (Features sub) "label:"); [| reflexivity].
    cbn [negb]. rewrite quote_char in *. now rewrite Split_free.
Qed.

Lemma Label_reads_the_quoted_text_witness :
  Label (labelSubscription "triage" "good first issue") = "good first issue"
  /\ Label (sampleSubscription "triage" "id-alice" "issues,label:bug" "acme/widgets")
     = EmptyString.
Proof.
  split.
  - apply (proj1 (Label_reads_the_quoted_text
                    (labelSubscription "triage" "good first issue"))
             "pulls,issues," "good first issue" "");
      reflexivity.
  - apply (proj2 (Label_reads_the_quoted_text
                    (sampleSubscription "triage" "id-alice" "issues,label:bug"
                       "acme/widgets"))).
    reflexivity.
Defined.

(** ** The matcher on public repositories *)

Section Keys.

Lemma ToLower_append (a b : string) :
  strings.ToLower (a +:+ b) = strings.ToLower a +:+ strings.ToLower b.
Proof.
  induction a as [|x a IH]; [reflexivity |].
  rewrite append_cons. cbn [strings.ToLower]. now rewrite append_cons, IH.
Qed.

Lemma lower_slash (x : ascii) : strings.lower x = slash <-> x = slash.
Proof.
  destruct x as [b0 b1 b2 b3 b4 b5 b6 b7].
  destruct b0, b1, b2, b3, b4, b5, b6, b7; vm_compute;
    split; intros H; try discriminate H; reflexivity.
Qed.

Lemma ToLower_slash_free (a : string) :
  strings.Contains a "/" = false -> strings.Contains (strings.ToLower a) "/" = false.
Proof.
  change "/"%string with (String slash "").
  induction a as [|x a IH]; [reflexivity |].
  cbn [strings.ToLower]. rewrite !Contains_char_cons. intros [Hx Ha].
  split; [| now apply IH]. intros Hl. apply (proj1 (lower_slash x)) in Hl. contradiction.
Qed.

Lemma candidateSubscriptions_keys (kv : KVStore) (repo : option Repository.t)
    (owner name : string) :
  GetFullName repo = owner +:+ "/" +:+ name ->
  strings.Contains owner "/" = false ->
  candidateSubscriptions kv repo
  = storedFor kv (strings.ToLower owner +:+ "/" +:+ strings.ToLower name)
    ++ storedFor kv (strings.ToLower owner +:+ "/").
Proof.
  intros Hname Hfree. unfold candidateSubscriptions. rewrite Hname.
  rewrite !ToLower_append.
  change (strings.ToLower "/") with (String slash "").
  change "/"%string with (String slash "").
  rewrite (Split_first slash) by now apply ToLower_slash_free.
  reflexivity.
Qed.

Lemma visibleSubscriptions_public (p : Plugin) (name : string)
    (subs : list Subscription) :
  visibleSubscriptions p false name subs = subs.
Proof.
  induction subs as [|sub subs IH]; [reflexivity |].
  cbn [visibleSubscriptions andb]. now rewrite IH.
Qed.

End Keys.

(** X18.  For a public repository "Owner/Name" the matcher returns, with
    no permission check, the subscriptions stored under the lower-cased
    key "owner/name" followed by those stored under the organization key
    "owner/", whatever the letter case of the event's repository name. *)
Theorem public_repository_matches_repo_then_org (p : Plugin) (kv : KVStore)
    (repo : option Repository.t) (owner name : string) :
  GetPrivate repo = false ->
  GetFullName repo = owner +:+ "/" +:+ name ->
  strings.Contains owner "/" = false ->
  KVGet_error p SubscriptionsKey = None ->
  GetSubscribedChannelsForRepository p kv repo
  = storedFor kv (strings.ToLower owner +:+ "/" +:+ strings.ToLower name)
    ++ storedFor kv (strings.ToLower owner +:+ "/").
Proof.
  intros Hpublic Hname Hfree Hread.
  rewrite GetSubscribedChannelsForRepository_candidates, Hread, Hpublic.
  rewrite visibleSubscriptions_public.
  apply (candidateSubscriptions_keys kv repo owner name Hname Hfree).
Qed.

Lemma public_repository_matches_repo_then_org_witness :
  GetSubscribedChannelsForRepository mallorySeesNothing acmeStore mixedCaseWidgets
  = storedFor acmeStore "acme/widgets" ++ storedFor acmeStore "acme/".
Proof.
  apply (public_repository_matches_repo_then_org mallorySeesNothing acmeStore
           mixedCaseWidgets "Acme" "Widgets");
    reflexivity.
Defined.

(** ** Subscribing and unsubscribing, end to end *)

Section RoundTrips.

Lemma listAfterAdd_contains (sub : Subscription)
    (previous : option (list Subscription)) :
  sub ∈ listAfterAdd sub previous.
Proof.
  destruct previous as [l |]; simpl; [| apply list_elem_of_here].
  destruct (replaceExisting sub l) as [[|] l'] eqn:Hr; simpl.
  - now apply replaceExisting_found in Hr as (_ & _ & Hin).
  - apply elem_of_app. right. apply list_elem_of_here.
Qed.

Lemma AddSubscription_success (p : Plugin) (kv kv' : KVStore) (repo : string)
    (sub : Subscription) :
  AddSubscription p kv repo sub = (None, kv') ->
  KVGet_error p SubscriptionsKey = None
  /\ kv_muted kv' = kv_muted kv /\ kv_excluded kv' = kv_excluded kv
  /\ forall key,
       storedFor kv' key
       = if decide (repo = key) then listAfterAdd sub (entryFor kv repo)
         else storedFor kv key.
Proof.
  intros Hadd.
  destruct (AddSubscription_cases p kv repo sub)
    as [[err Herr] | (kv2 & Hadd2 & Hm & He & Hstored)]; [congruence |].
  rewrite Hadd in Hadd2. injection Hadd2 as <-.
  split; [| now repeat split].
  unfold AddSubscription, GetSubscriptions in Hadd.
  now destruct (KVGet_error p SubscriptionsKey).
Qed.

Lemma AddSubscription_failure (p : Plugin) (kv kv' : KVStore) (repo : string)
    (sub : Subscription) (err : error) :
  AddSubscription p kv repo sub = (Some err, kv') -> kv' = kv.
Proof.
  intros Hadd.
  destruct (AddSubscription_cases p kv repo sub)
    as [[err' Herr] | (kv2 & Hadd2 & _)]; congruence.
Qed.

(** What a successful [Subscribe] passed to [AddSubscription]. *)
Lemma Subscribe_success (p : Plugin) (kv kv' : KVStore) (githubClient : GitHubClient)
    (userID owner repo channelID features : string) (flags : SubscriptionFlags) :
  Subscribe p kv githubClient userID owner repo channelID features flags = (None, kv') ->
  AddSubscription p kv
    (fullNameFromOwnerAndRepo (strings.ToLower owner) (strings.ToLower repo))
    {| ChannelID := channelID; CreatorID := userID; Features := features;
       Flags := flags;
       Repository :=
         fullNameFromOwnerAndRepo (strings.ToLower owner) (strings.ToLower repo) |}
  = (None, kv').
Proof.
  unfold Subscribe.
  destruct (owner =? "")%string; [discriminate |].
  destruct (checkOrg p (strings.ToLower owner)); [discriminate |].
  destruct (Flags_ExcludeOrgMembers flags && negb (isOrganizationLocked p));
    [discriminate |].
  match goal with
  | |- match ?lookup with _ => _ end = _ -> _ => destruct lookup as [e | [|]]
  end; try discriminate.
  destruct (AddSubscription p kv _ _) as [[e |] kv2]; [discriminate |].
  now intros [= <-].
Qed.

Lemma Subscribe_failure (p : Plugin) (kv kv' : KVStore) (githubClient : GitHubClient)
    (userID owner repo channelID features : string) (flags : SubscriptionFlags)
    (err : error) :
  Subscribe p kv githubClient userID owner repo channelID features flags
  = (Some err, kv') ->
  kv' = kv.
Proof.
  unfold Subscribe.
  destruct (owner =? "")%string; [now intros [= _ <-] |].
  destruct (checkOrg p (strings.ToLower owner)); [now intros [= _ <-] |].
  destruct (Flags_ExcludeOrgMembers flags && negb (isOrganizationLocked p));
    [now intros [= _ <-] |].
  match goal with
  | |- match ?lookup with _ => _ end = _ -> _ => destruct lookup as [e | [|]]
  end; try (now intros [= _ <-]).
  destruct (AddSubscription p kv _ _) as [[e |] kv2] eqn:Hadd; [| discriminate].
  intros [= _ <-]. now apply AddSubscription_failure in Hadd.
Qed.

Lemma removeFirst_absent (c : string) (l l' : list Subscription) :
  removeFirst c l = (false, l') -> l' = l.
Proof.
  revert l'. induction l as [|s l IH]; intros l'; simpl; [now intros [= <-] |].
  destruct (ChannelID s =? c)%string; [discriminate |].
  destruct (removeFirst c l) as [e r]. intros [= -> <-]. now rewrite (IH r).
Qed.

Lemma removeFirst_gone (c : string) (l : list Subscription) :
  NoDup (ChannelID <$> l) ->
  filter (fun s => ChannelID s = c) (snd (removeFirst c l)) = [].
Proof.
  induction l as [|s l IH]; [reflexivity |].
  rewrite fmap_cons, NoDup_cons. intros [Hs Hnd]. simpl.
  destruct (String.eqb_spec (ChannelID s) c) as [Heq | Hne]; simpl.
  - apply filter_channel_absent. now rewrite <- Heq.
  - destruct (removeFirst c l) as [e r]. simpl in *.
    rewrite filter_cons_False by exact Hne. now apply IH.
Qed.

Lemma removeFirst_others (c c' : string) (l : list Subscription) :
  c' <> c ->
  filter (fun s => ChannelID s = c') (snd (removeFirst c l))
  = filter (fun s => ChannelID s = c') l.
Proof.
  intros Hne. induction l as [|s l IH]; [reflexivity |]. simpl.
  destruct (String.eqb_spec (ChannelID s) c) as [Heq | Hs]; simpl.
  - rewrite filter_cons_False by congruence. reflexivity.
  - destruct (removeFirst c l) as [e r]. simpl in *.
    destruct (decide (ChannelID s = c')) as [Hc | Hc].
    + rewrite !filter_cons_True by exact Hc. now rewrite IH.
    + rewrite !filter_cons_False by exact Hc. exact IH.
Qed.

(** What a successful [Unsubscribe] leaves under each key. *)
Lemma Unsubscribe_success (p : Plugin) (kv kv' : KVStore)
    (channelID repoArg owner repo : string) :
  parseOwnerAndRepo p repoArg (getBaseURL p) = (owner, repo) ->
  Unsubscribe p kv channelID repoArg = (None, kv') ->
  kv_muted kv' = kv_muted kv /\ kv_excluded kv' = kv_excluded kv
  /\ forall key,
       storedFor kv' key
       = if decide (strings.ToLower owner +:+ "/" +:+ strings.ToLower repo = key)
         then snd (removeFirst channelID (storedFor kv key))
         else storedFor kv key.
Proof.
  intros Hparse. unfold Unsubscribe. rewrite Hparse.
  destruct ((owner =? "")%string && (repo =? "")%string); [discriminate |].
  unfold GetSubscriptions, StoreSubscriptions.
  destruct (KVGet_error p SubscriptionsKey); [discriminate |].
  set (key0 := strings.ToLower owner +:+ "/" +:+ strings.ToLower repo).
  assert (Hsame : forall key,
             entryFor kv key0 = None \/
             (exists l, entryFor kv key0 = Some l /\ removeFirst channelID l = (false, l)) ->
             storedFor kv key
             = if decide (key0 = key)
               then snd (removeFirst channelID (storedFor kv key))
               else storedFor kv key).
  { intros key Hcase. case_decide as Hk; [| reflexivity]. subst key.
    rewrite <- storedFor_previous.
    destruct Hcase as [-> | (l & -> & Hl)]; [reflexivity |].
    simpl. now rewrite Hl. }
  unfold entryFor in Hsame.
  destruct (kv_subscriptions kv) as [subs |] eqn:Hkv; simpl.
  - destruct (Repositories subs !! key0) as [l |] eqn:Hl.
    + destruct (removeFirst channelID l) as [[|] r] eqn:Hr.
      * destruct (KVSet_error p SubscriptionsKey); [discriminate |].
        intros [= <-]. split; [reflexivity |]. split; [reflexivity |].
        intros key. unfold storedFor. rewrite Hkv. simpl. rewrite lookup_insert.
        case_decide as Hk; [| reflexivity]. subst key. rewrite Hl. simpl.
        now rewrite Hr.
      * intros [= <-]. split; [reflexivity |]. split; [reflexivity |].
        intros key. apply Hsame. right. exists l. split; [reflexivity |].
        now rewrite (removeFirst_absent _ _ _ Hr) in Hr.
    + intros [= <-]. split; [reflexivity |]. split; [reflexivity |].
      intros key. apply Hsame. now left.
  - rewrite lookup_empty. intros [= <-].
    split; [reflexivity |]. split; [reflexivity |].
    intros key. apply Hsame. now left.
Qed.

End RoundTrips.

(** X19.  After a successful [Subscribe] the subscription, with the
    caller as creator, the given features and flags, and the lower-cased
    "owner/repo" as repository, is matched for every event of that public
    repository, whatever the letter case of the event's repository
    name. *)
Theorem Subscribe_then_matched (p : Plugin) (kv kv' : KVStore)
    (githubClient : GitHubClient)
    (userID owner repo channelID features : string) (flags : SubscriptionFlags)
    (repository : option Repository.t) :
  Subscribe p kv githubClient userID owner repo channelID features flags = (None, kv') ->
  GetPrivate repository = false ->
  strings.ToLower (GetFullName repository)
  = fullNameFromOwnerAndRepo (strings.ToLower owner) (strings.ToLower repo) ->
  {| ChannelID := channelID; CreatorID := userID; Features := features;
     Flags := flags;
     Repository :=
       fullNameFromOwnerAndRepo (strings.ToLower owner) (strings.ToLower repo) |}
    ∈ GetSubscribedChannelsForRepository p kv' repository.
Proof.
  intros Hsub Hpublic Hname.
  apply Subscribe_success, AddSubscription_success in Hsub
    as (Hread & _ & _ & Hstored).
  rewrite GetSubscribedChannelsForRepository_candidates, Hread, Hpublic.
  rewrite visibleSubscriptions_public. unfold candidateSubscriptions.
  apply elem_of_app. left. rewrite Hname, Hstored.
  rewrite decide_True by reflexivity. apply listAfterAdd_contains.
Qed.

Lemma Subscribe_then_matched_witness :
  {| ChannelID := "town-square"; CreatorID := "id-alice"; Features := "pulls";
     Flags := noFlags; Repository := "acme/widgets" |}
    ∈ GetSubscribedChannelsForRepository samplePlugin
        (snd (Subscribe samplePlugin emptyStore sampleClient "id-alice" "Acme"
                "Widgets" "town-square" "pulls" noFlags))
        mixedCaseWidgets.
Proof.
  apply (Subscribe_then_matched samplePlugin emptyStore _ sampleClient
           "id-alice" "Acme" "Widgets" "town-square" "pulls" noFlags
           mixedCaseWidgets);
    reflexivity.
Defined.

(** X20.  A subscribe operation that returns an error, whichever it is
    (invalid owner, organization not supported, flag without lock, unknown
    repository or organization, lookup or store failure), leaves the store
    as it was; so does [SubscribeOrg]. *)
Theorem failed_Subscribe_changes_nothing (p : Plugin) (kv kv' : KVStore)
    (githubClient : GitHubClient)
    (userID owner repo channelID features : string) (flags : SubscriptionFlags)
    (err : error) :
  (Subscribe p kv githubClient userID owner repo channelID features flags
   = (Some err, kv') -> kv' = kv)
  /\ (SubscribeOrg p kv githubClient userID owner channelID features flags
      = (Some err, kv') -> kv' = kv).
Proof.
  split.
  - apply Subscribe_failure.
  - unfold SubscribeOrg. destruct (owner =? "")%string; [now intros [= _ <-] |].
    apply Subscribe_failure.
Qed.

Lemma failed_Subscribe_changes_nothing_witness :
  snd (Subscribe samplePlugin acmeStore failingClient
         "id-alice" "acme" "gadgets" "town-square" "pulls" noFlags)
  = acmeStore.
Proof.
  apply (proj1 (failed_Subscribe_changes_nothing samplePlugin acmeStore
                  (snd (Subscribe samplePlugin acmeStore failingClient
                          "id-alice" "acme" "gadgets" "town-square" "pulls"
                          noFlags))
                  failingClient
                  "id-alice" "acme" "gadgets" "town-square" "pulls" noFlags
                  "unknown repository acme/gadgets")).
  reflexivity.
Defined.

(** X21.  In a reachable store, a successful [Unsubscribe] leaves the
    channel without subscription under the lower-cased key of the
    repository, and leaves the subscriptions of the other channels and of
    the other keys as they were. *)
Theorem Unsubscribe_removes_the_channel (p : Plugin) (kv kv' : KVStore)
    (channelID repoArg owner repo : string) :
  reachable kv ->
  parseOwnerAndRepo p repoArg (getBaseURL p) = (owner, repo) ->
  Unsubscribe p kv channelID repoArg = (None, kv') ->
  let key := strings.ToLower owner +:+ "/" +:+ strings.ToLower repo in
  subscriptionsOf kv' channelID key = []
  /\ (forall other, other <> channelID ->
        subscriptionsOf kv' other key = subscriptionsOf kv other key)
  /\ (forall k, k <> key -> storedFor kv' k = storedFor kv k).
Proof.
  intros Hreach Hparse Hun key.
  destruct (Unsubscribe_success p kv kv' channelID repoArg owner repo Hparse Hun)
    as (_ & _ & Hstored).
  pose proof (reachable_atMostOnePerChannel kv Hreach key) as Hnd.
  unfold subscriptionsOf. repeat split.
  - rewrite Hstored. fold key. rewrite decide_True by reflexivity.
    now apply removeFirst_gone.
  - intros other Hother. rewrite Hstored. fold key.
    rewrite decide_True by reflexivity. now apply removeFirst_others.
  - intros k Hk. rewrite Hstored. fold key. now rewrite decide_False by congruence.
Qed.

Lemma Unsubscribe_removes_the_channel_witness :
  subscriptionsOf
    (snd (Unsubscribe samplePlugin
            (snd (AddSubscription samplePlugin emptyStore "acme/widgets"
                    (sampleSubscription "town-square" "id-alice" "pulls"
                       "acme/widgets")))
            "town-square" "Acme/Widgets"))
    "town-square" "acme/widgets" = [].
Proof.
  refine (proj1 (Unsubscribe_removes_the_channel samplePlugin
                   (snd (AddSubscription samplePlugin emptyStore "acme/widgets"
                           (sampleSubscription "town-square" "id-alice" "pulls"
                              "acme/widgets")))
                   _ "town-square" "Acme/Widgets" "Acme" "Widgets" _ _ _)).
  - apply reachable_AddSubscription, reachable_initial. reflexivity.
  - reflexivity.
  - reflexivity.
Defined.

(** ** The notification-disabled list *)

Section Excluded.

Lemma ItemExists_from_found (items : list string) (s : string) :
  forall index,
    fst (ItemExists_from index items s) = true <-> s ∈ items.
Proof.
  induction items as [|a items IH]; intros index; simpl.
  - split; [discriminate | intros H; now apply elem_of_nil in H].
  - destruct (String.eqb_spec a s) as [-> | Hne]; simpl.
    + split; [intros _; apply list_elem_of_here | reflexivity].
    + rewrite IH, elem_of_cons. split; [now right | intros [? | ?]; congruence].
Qed.

(** The index returned is that of the first occurrence. *)
Lemma ItemExists_from_index (items : list string) (s : string) :
  forall index found,
    ItemExists_from index items s = (true, found) ->
    exists n,
      found = index + Z.of_nat n /\ items !! n = Some s /\ s ∉ take n items.
Proof.
  induction items as [|a items IH]; intros index found; simpl; [discriminate |].
  destruct (String.eqb_spec a s) as [-> | Hne].
  - intros [= <-]. exists 0%nat. split; [lia |]. split; [reflexivity |].
    apply not_elem_of_nil.
  - intros H. destruct (IH _ _ H) as (n & -> & Hn & Hfirst).
    exists (S n). split; [lia |]. split; [exact Hn |].
    simpl. rewrite not_elem_of_cons. split; [congruence | exact Hfirst].
Qed.

Lemma removeAt_first (items : list string) (s : string) (found : Z) :
  NoDup items ->
  ItemExists items s = (true, found) ->
  (s ∉ removeAt found items)
  /\ (forall r, r <> s -> (r ∈ removeAt found items <-> r ∈ items))
  /\ NoDup (removeAt found items).
Proof.
  intros Hnd Hfound. unfold ItemExists in Hfound.
  destruct (ItemExists_from_index _ _ _ _ Hfound) as (n & -> & Hn & Hfirst).
  unfold removeAt. rewrite Z.add_0_l, Nat2Z.id.
  rewrite <- (take_drop_middle items n s Hn) in Hnd.
  apply NoDup_app in Hnd as (Hnd1 & Hdisjoint & Hnd2).
  apply NoDup_cons in Hnd2 as [Hs Hnd2].
  replace (n + 1)%nat with (S n) by lia.
  split; [| split].
  - rewrite elem_of_app. intros [Hin | Hin]; contradiction.
  - intros r Hr. rewrite <- (take_drop_middle items n s Hn) at 3.
    rewrite !elem_of_app, elem_of_cons. tauto.
  - apply NoDup_app. split; [exact Hnd1 |]. split; [| exact Hnd2].
    intros x Hx Hx'. apply (Hdisjoint x Hx). now apply list_elem_of_further.
Qed.

Lemma IsNotificationOff_listed (p : Plugin) (kv : KVStore) (repoName : string) :
  KVGet_error p SubscribedRepoNotificationOff = None ->
  (IsNotificationOff p kv repoName = true <-> repoName ∈ excludedList kv).
Proof.
  intros Hread. unfold IsNotificationOff, GetExcludedNotificationRepos, excludedList.
  rewrite Hread.
  destruct (kv_excluded kv) as [repos |]; simpl.
  - destruct repos as [|r repos]; simpl.
    + split; [discriminate | intros H; now apply elem_of_nil in H].
    + apply (ItemExists_from_found (r :: repos) repoName 0).
  - split; [discriminate | intros H; now apply elem_of_nil in H].
Qed.

Lemma IsNotificationOff_same (p : Plugin) (kv kv' : KVStore) (repoName : string) :
  KVGet_error p SubscribedRepoNotificationOff = None ->
  (repoName ∈ excludedList kv' <-> repoName ∈ excludedList kv) ->
  IsNotificationOff p kv' repoName = IsNotificationOff p kv repoName.
Proof.
  intros Hread Hsame.
  pose proof (IsNotificationOff_listed p kv repoName Hread) as H.
  pose proof (IsNotificationOff_listed p kv' repoName Hread) as H'.
  destruct (IsNotificationOff p kv repoName), (IsNotificationOff p kv' repoName);
    try reflexivity; exfalso.
  - assert (Hf : false = true) by (apply H', Hsame, H; reflexivity). discriminate.
  - assert (Hf : false = true) by (apply H, Hsame, H'; reflexivity). discriminate.
Qed.

(** The list a successful [StoreExcludedNotificationRepo] stores. *)
Lemma StoreExcludedNotificationRepo_success (p : Plugin) (kv kv' : KVStore)
    (s : string) :
  StoreExcludedNotificationRepo p kv s = (None, kv') ->
  KVGet_error p SubscribedRepoNotificationOff = None
  /\ kv_subscriptions kv' = kv_subscriptions kv /\ kv_muted kv' = kv_muted kv
  /\ excludedList kv'
     = if decide (s ∈ excludedList kv) then excludedList kv
       else excludedList kv ++ [s].
Proof.
  unfold StoreExcludedNotificationRepo, GetExcludedNotificationRepos, KVSet_excluded,
    excludedList.
  destruct (KVGet_error p SubscribedRepoNotificationOff); [discriminate |].
  set (repoNames := match kv_excluded kv with
                    | Some subscriptions => subscriptions
                    | None => []
                    end).
  assert (Hlist : default [] (kv_excluded kv) = repoNames)
    by (unfold repoNames; now destruct (kv_excluded kv)).
  assert (Hsame : match kv_excluded kv with
                  | Some subscriptions => inr subscriptions
                  | None => inr []
                  end = (inr repoNames : error + list string))
    by (unfold repoNames; now destruct (kv_excluded kv)).
  rewrite Hsame, Hlist.
  destruct (KVSet_error p SubscribedRepoNotificationOff); [discriminate |].
  intros [= <-]. split; [reflexivity |]. split; [reflexivity |].
  split; [reflexivity |]. simpl.
  pose proof (ItemExists_from_found repoNames s 0) as Hfound.
  fold (ItemExists repoNames s) in Hfound.
  destruct repoNames as [|r repoNames]; simpl.
  - reflexivity.
  - destruct (fst (ItemExists (r :: repoNames) s)) eqn:Hex; simpl.
    + rewrite decide_True by now apply Hfound. reflexivity.
    + rewrite decide_False; [reflexivity |].
      intros Hin. apply Hfound in Hin. congruence.
Qed.

(** The list a successful [EnableNotificationTurnedOffRepo] leaves. *)
Lemma EnableNotificationTurnedOffRepo_success (p : Plugin) (kv kv' : KVStore)
    (s : string) :
  NoDup (excludedList kv) ->
  EnableNotificationTurnedOffRepo p kv s = (None, kv') ->
  KVGet_error p SubscribedRepoNotificationOff = None
  /\ kv_subscriptions kv' = kv_subscriptions kv /\ kv_muted kv' = kv_muted kv
  /\ (s ∉ excludedList kv')
  /\ (forall r, r <> s -> (r ∈ excludedList kv' <-> r ∈ excludedList kv))
  /\ NoDup (excludedList kv').
Proof.
  unfold EnableNotificationTurnedOffRepo, GetExcludedNotificationRepos,
    KVSet_excluded, excludedList.
  intros Hnd.
  destruct (KVGet_error p SubscribedRepoNotificationOff); [discriminate |].
  set (repoNames := match kv_excluded kv with
                    | Some subscriptions => subscriptions
                    | None => []
                    end).
  assert (Hlist : default [] (kv_excluded kv) = repoNames)
    by (unfold repoNames; now destruct (kv_excluded kv)).
  assert (Hsame : match kv_excluded kv with
                  | Some subscriptions => inr subscriptions
                  | None => inr []
                  end = (inr repoNames : error + list string))
    by (unfold repoNames; now destruct (kv_excluded kv)).
  rewrite Hsame. rewrite Hlist in *. clearbody repoNames. clear Hsame.
  intros Henable. split; [reflexivity |].
  destruct (0 <? length repoNames)%nat eqn:Hlen.
  - destruct (ItemExists repoNames s) as [[|] found] eqn:Hex.
    + destruct (KVSet_error p SubscribedRepoNotificationOff); [discriminate |].
      injection Henable as <-. simpl.
      destruct (removeAt_first repoNames s found Hnd Hex) as (Hs & Hothers & Hnd').
      split; [reflexivity |]. split; [reflexivity |].
      split; [exact Hs |]. split; [exact Hothers | exact Hnd'].
    + injection Henable as <-. rewrite Hlist.
      split; [reflexivity |]. split; [reflexivity |].
      split; [| split; [tauto | exact Hnd]].
      intros Hin. apply (ItemExists_from_found repoNames s 0) in Hin.
      fold (ItemExists repoNames s) in Hin. rewrite Hex in Hin. discriminate.
  - injection Henable as <-. rewrite Hlist.
    destruct repoNames; [| discriminate].
    split; [reflexivity |]. split; [reflexivity |].
    split; [apply not_elem_of_nil | split; [tauto | exact Hnd]].
Qed.

End Excluded.

(** X22.  After a successful [StoreExcludedNotificationRepo] the
    repository is reported as notification-disabled, the answer for every
    other repository is unchanged, and a list without duplicates stays
    without duplicates (a name already listed is not added again). *)
Theorem StoreExcludedNotificationRepo_disables (p : Plugin) (kv kv' : KVStore)
    (s : string) :
  StoreExcludedNotificationRepo p kv s = (None, kv') ->
  IsNotificationOff p kv' s = true
  /\ (forall r, r <> s -> IsNotificationOff p kv' r = IsNotificationOff p kv r)
  /\ (NoDup (excludedList kv) -> NoDup (excludedList kv')).
Proof.
  intros Hstore.
  apply StoreExcludedNotificationRepo_success in Hstore as (Hread & _ & _ & Hlist).
  repeat split.
  - apply IsNotificationOff_listed; [exact Hread |]. rewrite Hlist.
    case_decide; [assumption |]. apply elem_of_app. right. apply list_elem_of_here.
  - intros r Hr. apply IsNotificationOff_same; [exact Hread |]. rewrite Hlist.
    case_decide; [reflexivity |]. rewrite elem_of_app, list_elem_of_singleton. tauto.
  - intros Hnd. rewrite Hlist. case_decide as Hin; [exact Hnd |].
    apply NoDup_app. repeat split; [exact Hnd | | apply NoDup_singleton].
    intros x Hx Hx'. apply list_elem_of_singleton in Hx'. now subst.
Qed.

Lemma StoreExcludedNotificationRepo_disables_witness :
  IsNotificationOff samplePlugin
    (snd (StoreExcludedNotificationRepo samplePlugin carolAndDave "acme/sprockets"))
    "acme/sprockets" = true.
Proof.
  refine (proj1 (StoreExcludedNotificationRepo_disables samplePlugin carolAndDave
                   _ "acme/sprockets" _)).
  reflexivity.
Defined.

(** X23.  On a list without duplicates, a successful
    [EnableNotificationTurnedOffRepo] leaves the repository reported as
    not disabled, and the answer for every other repository
    unchanged. *)
Theorem EnableNotificationTurnedOffRepo_enables (p : Plugin) (kv kv' : KVStore)
    (s : string) :
  NoDup (excludedList kv) ->
  EnableNotificationTurnedOffRepo p kv s = (None, kv') ->
  IsNotificationOff p kv' s = false
  /\ (forall r, r <> s -> IsNotificationOff p kv' r = IsNotificationOff p kv r)
  /\ NoDup (excludedList kv').
Proof.
  intros Hnd Henable.
  destruct (EnableNotificationTurnedOffRepo_success p kv kv' s Hnd Henable)
    as (Hread & _ & _ & Hs & Hothers & Hnd').
  repeat split; [| | exact Hnd'].
  - destruct (IsNotificationOff p kv' s) eqn:Hoff; [| reflexivity].
    apply IsNotificationOff_listed in Hoff; [contradiction | exact Hread].
  - intros r Hr. apply IsNotificationOff_same; [exact Hread | now apply Hothers].
Qed.

Lemma EnableNotificationTurnedOffRepo_enables_witness :
  IsNotificationOff samplePlugin
    (snd (EnableNotificationTurnedOffRepo samplePlugin carolAndDave "acme/widgets"))
    "acme/widgets" = false.
Proof.
  refine (proj1 (EnableNotificationTurnedOffRepo_enables samplePlugin carolAndDave
                   _ "acme/widgets" _ _)).
  - unfold excludedList. simpl. apply NoDup_cons. split.
    + rewrite list_elem_of_singleton. discriminate.
    + apply NoDup_singleton.
  - reflexivity.
Defined.

(** ** Mute lists: add, remove, clear *)

Section MuteLists.

Variable p : Plugin.
Variable userInfo : GitHubUserInfo.

Let key : string := mutedUsersKey (UserID userInfo).

Lemma comma_char : ","%string = String comma EmptyString.
Proof. reflexivity. Qed.

Lemma getMutedUsernames_stored (kv : KVStore) :
  KVGet_error p key = None ->
  getMutedUsernames p kv userInfo
  = usernamesOf (default EmptyString (kv_muted kv !! key)).
Proof.
  intros Hget. unfold getMutedUsernames, KVGet_muted. fold key. now rewrite Hget.
Qed.

Lemma KVSet_muted_done (kv : KVStore) (value : string) :
  KVSet_error p key = None ->
  KVSet_muted p kv (UserID userInfo) value
  = (None, {| kv_subscriptions := kv_subscriptions kv;
              kv_excluded := kv_excluded kv;
              kv_muted := <[key := value]> (kv_muted kv) |}).
Proof. intros Hset. unfold KVSet_muted. fold key. now rewrite Hset. Qed.

Lemma getMutedUsernames_written (kv : KVStore) (value : string) :
  KVGet_error p key = None ->
  KVSet_error p key = None ->
  getMutedUsernames p (snd (KVSet_muted p kv (UserID userInfo) value)) userInfo
  = usernamesOf value.
Proof.
  intros Hget Hset. rewrite KVSet_muted_done by exact Hset.
  rewrite getMutedUsernames_stored by exact Hget. simpl.
  now rewrite lookup_insert_eq.
Qed.

Lemma contains_found (s : list string) (e : string) :
  forall i, fst (contains_from i s e) = true <-> e ∈ s.
Proof.
  induction s as [|a s IH]; intros i; simpl.
  - split; [discriminate | intros H; now apply elem_of_nil in H].
  - destruct (String.eqb_spec a e) as [-> | Hne]; simpl.
    + split; [intros _; apply list_elem_of_here | reflexivity].
    + rewrite IH, elem_of_cons. split; [now right | intros [? | ?]; congruence].
Qed.

Lemma length_zero (s : string) : (String.length s =? 0)%nat = true <-> s = EmptyString.
Proof. destruct s; simpl; split; congruence. Qed.

Lemma usernamesOf_Join (stored : string) :
  strings.Join (usernamesOf stored) "," = stored.
Proof.
  unfold usernamesOf. destruct (String.length stored =? 0)%nat eqn:Hlen.
  - apply length_zero in Hlen. now subst.
  - rewrite comma_char. apply Join_Split.
Qed.

Lemma usernamesOf_free (stored e : string) :
  e ∈ usernamesOf stored -> strings.Contains e "," = false.
Proof.
  unfold usernamesOf. destruct (String.length stored =? 0)%nat.
  - intros H. now apply elem_of_nil in H.
  - rewrite comma_char. apply Split_fields_free.
Qed.

Lemma usernamesOf_free_text (e : string) :
  e <> EmptyString -> strings.Contains e "," = false -> usernamesOf e = [e].
Proof.
  intros Hne Hfree. unfold usernamesOf.
  destruct (String.length e =? 0)%nat eqn:Hlen.
  - apply length_zero in Hlen. contradiction.
  - rewrite comma_char in *. now apply Split_free.
Qed.

(** Reading back the joined list: the list itself, except that the list
    holding only the empty name reads back as no name at all. *)
Lemma usernamesOf_joined (l : list string) :
  (forall e, e ∈ l -> strings.Contains e "," = false) ->
  usernamesOf (strings.Join l ",")
  = if decide (l = [EmptyString]) then [] else l.
Proof.
  intros Hfree. unfold usernamesOf.
  destruct (String.length (strings.Join l ",") =? 0)%nat eqn:Hlen.
  - apply length_zero in Hlen.
    destruct l as [|e l]; [now rewrite decide_False by discriminate |].
    destruct l as [|e' l].
    + simpl in Hlen. rewrite append_empty_r in Hlen || idtac. subst e.
      now rewrite decide_True by reflexivity.
    + exfalso. rewrite comma_char in Hlen.
      rewrite Join_cons in Hlen by discriminate.
      apply (f_equal String.length) in Hlen.
      rewrite !length_append in Hlen. simpl in Hlen. lia.
  - destruct l as [|e l]; [discriminate |].
    rewrite decide_False.
    + rewrite comma_char in *. apply Split_Join; [discriminate | exact Hfree].
    + intros Heq. rewrite Heq in Hlen. discriminate.
Qed.

Lemma arrayDifference_filter (a : list string) (username : string) :
  forall e, e ∈ arrayDifference a [username] <-> e ∈ a /\ e <> username.
Proof.
  intros e. unfold arrayDifference. rewrite list_elem_of_filter.
  rewrite elem_of_list_to_set, list_elem_of_singleton. tauto.
Qed.

Lemma append_cancel_r (a b s : string) : a +:+ s = b +:+ s -> a = b.
Proof.
  revert b. induction a as [|x a IH]; intros [|y b] H.
  - reflexivity.
  - apply (f_equal String.length) in H. rewrite append_empty_l, append_cons in H.
    simpl in H. rewrite length_append in H. lia.
  - apply (f_equal String.length) in H. rewrite append_empty_l, append_cons in H.
    simpl in H. rewrite length_append in H. lia.
  - rewrite !append_cons in H. injection H as -> H. f_equal. now apply IH.
Qed.

Lemma mutedUsersKey_inj (a b : string) : mutedUsersKey a = mutedUsersKey b -> a = b.
Proof. apply append_cancel_r. Qed.

Lemma getMutedUsernames_unreadable (kv : KVStore) (appErr : error) :
  KVGet_error p key = Some appErr -> getMutedUsernames p kv userInfo = [].
Proof.
  intros Hget. unfold getMutedUsernames, KVGet_muted. fold key. now rewrite Hget.
Qed.

(** What the list reads as after the three writers. *)
Lemma handleUnmute_list (kv : KVStore) (username : string) :
  KVGet_error p key = None ->
  KVSet_error p key = None ->
  getMutedUsernames p (snd (handleUnmute p kv username userInfo)) userInfo
  = let remaining := arrayDifference (getMutedUsernames p kv userInfo) [username] in
    if decide (remaining = [EmptyString]) then [] else remaining.
Proof.
  intros Hget Hset. unfold handleUnmute.
  pose proof (getMutedUsernames_written kv
                (strings.Join
                   (arrayDifference (getMutedUsernames p kv userInfo) [username]) ",")
                Hget Hset) as Hwritten.
  destruct (KVSet_muted p kv (UserID userInfo) _) as [[e |] kv'];
    cbn [snd] in *; rewrite Hwritten; apply usernamesOf_joined;
    intros e' He; apply arrayDifference_filter in He as [He _];
    rewrite getMutedUsernames_stored in He by exact Hget;
    exact (usernamesOf_free _ _ He).
Qed.

End MuteLists.

(** X24.  Muting a name that is not empty, holds no comma and is not yet
    in the list appends it: read back, the list is the old list followed
    by the new name. *)
Theorem handleMuteAdd_appends (p : Plugin) (kv : KVStore)
    (userInfo : GitHubUserInfo) (username : string) :
  KVGet_error p (mutedUsersKey (UserID userInfo)) = None ->
  KVSet_error p (mutedUsersKey (UserID userInfo)) = None ->
  username <> EmptyString ->
  strings.Contains username "," = false ->
  username ∉ getMutedUsernames p kv userInfo ->
  getMutedUsernames p (snd (handleMuteAdd p kv username userInfo)) userInfo
  = getMutedUsernames p kv userInfo ++ [username].
Proof.
  intros Hget Hset Hne Hcomma Hnew. unfold handleMuteAdd.
  destruct (fst (contains (getMutedUsernames p kv userInfo) username)) eqn:Hc.
  { apply contains_found in Hc. contradiction. }
  rewrite Hcomma.
  set (mutedUsers := if (0 <? length (getMutedUsernames p kv userInfo))%nat
                     then _ else _).
  pose proof (getMutedUsernames_written p userInfo kv mutedUsers Hget Hset)
    as Hwritten.
  assert (Hread :
    usernamesOf mutedUsers = getMutedUsernames p kv userInfo ++ [username]).
  { unfold mutedUsers. rewrite (getMutedUsernames_stored p userInfo kv Hget).
    set (stored := default EmptyString _).
    destruct (0 <? length (usernamesOf stored))%nat eqn:Hlen.
    - rewrite usernamesOf_Join.
      unfold usernamesOf in Hlen |- *.
      destruct (String.length stored =? 0)%nat eqn:Hstored; [discriminate |].
      destruct (String.length (stored +:+ "," +:+ username) =? 0)%nat eqn:Hall.
      + apply length_zero in Hall. apply (f_equal String.length) in Hall.
        rewrite !length_append in Hall. simpl in Hall. lia.
      + rewrite comma_char, Split_app. f_equal.
        apply Split_free. now rewrite <- comma_char.
    - destruct (usernamesOf stored); [| discriminate].
      now apply usernamesOf_free_text. }
  destruct (KVSet_muted p kv (UserID userInfo) mutedUsers) as [[e |] kv'];
    cbn [snd] in *; now rewrite Hwritten.
Qed.

Lemma handleMuteAdd_appends_witness :
  getMutedUsernames samplePlugin
    (snd (handleMuteAdd samplePlugin carolAndDave "erin" (sampleUser "id-bob")))
    (sampleUser "id-bob")
  = ["carol"; "dave"; "erin"]%string.
Proof.
  refine (handleMuteAdd_appends samplePlugin carolAndDave (sampleUser "id-bob")
            "erin" _ _ _ _ _).
  - reflexivity.
  - reflexivity.
  - discriminate.
  - reflexivity.
  - change (getMutedUsernames samplePlugin carolAndDave (sampleUser "id-bob"))
      with ["carol"; "dave"]%string.
    rewrite !not_elem_of_cons. repeat split; try discriminate.
    apply not_elem_of_nil.
Defined.

(** X25.  When the mute list can be read and written, after an unmute
    the name is no longer in the list read back, and every other non-empty
    name is in the list exactly when it was before. *)
Theorem handleUnmute_removes (p : Plugin) (kv : KVStore)
    (userInfo : GitHubUserInfo) (username : string) :
  KVGet_error p (mutedUsersKey (UserID userInfo)) = None ->
  KVSet_error p (mutedUsersKey (UserID userInfo)) = None ->
  let kv' := snd (handleUnmute p kv username userInfo) in
  (username ∉ mutedList kv' (UserID userInfo))
  /\ (forall other,
        other <> username -> other <> EmptyString ->
        (other ∈ mutedList kv' (UserID userInfo)
         <-> other ∈ mutedList kv (UserID userInfo))).
Proof.
  intros Hget Hset kv'. unfold mutedList.
  rewrite <- !(getMutedUsernames_stored p userInfo _ Hget).
  unfold kv'. rewrite (handleUnmute_list p userInfo kv username Hget Hset).
  cbn zeta. case_decide as Hremaining.
  - split; [apply not_elem_of_nil |].
    intros other Hother Hne. split.
    + intros H. now apply elem_of_nil in H.
    + intros Hin. exfalso.
      assert (Hin' : other ∈ arrayDifference (getMutedUsernames p kv userInfo)
                               [username])
        by (apply arrayDifference_filter; now split).
      rewrite Hremaining in Hin'. apply list_elem_of_singleton in Hin'.
      contradiction.
  - split.
    + intros Hin. apply arrayDifference_filter in Hin as [_ Hin]. now apply Hin.
    + intros other Hother _. rewrite arrayDifference_filter. tauto.
Qed.

Lemma handleUnmute_removes_witness :
  "carol"%string
  ∉ mutedList
      (snd (handleUnmute samplePlugin carolAndDave "carol" (sampleUser "id-bob")))
      "id-bob".
Proof.
  refine (proj1 (handleUnmute_removes samplePlugin carolAndDave
                   (sampleUser "id-bob") "carol" _ _)).
  - reflexivity.
  - reflexivity.
Defined.

(** The hypothesis on the read is needed: [getMutedUsernames] answers the
    empty list while the read fails, and [handleUnmute] then stores the
    empty text: unmuting a name that was never muted wipes the list. *)
Example unmute_on_unreadable_list_wipes_it :
  mutedList carolAndDave "id-bob" = ["carol"; "dave"]%string
  /\ mutedList
       (snd (handleUnmute
               (samplePluginWith
                  (fun _ => Some "unavailable"%string) (fun _ => true))
               carolAndDave "zed" (sampleUser "id-bob")))
       "id-bob" = [].
Proof. split; vm_compute; reflexivity. Qed.

(** X26.  After a stored unmute-all the list read back is empty and no
    non-empty sender counts as muted by that user. *)
Theorem handleUnmuteAll_clears (p : Plugin) (kv : KVStore)
    (userInfo : GitHubUserInfo) :
  KVSet_error p (mutedUsersKey (UserID userInfo)) = None ->
  let kv' := snd (handleUnmuteAll p kv userInfo) in
  getMutedUsernames p kv' userInfo = []
  /\ (forall sender,
        sender <> EmptyString ->
        senderMutedByReceiver p kv' (UserID userInfo) sender = false).
Proof.
  intros Hset kv'. unfold kv', handleUnmuteAll.
  rewrite (KVSet_muted_done p userInfo kv EmptyString Hset). cbn [snd].
  unfold getMutedUsernames, senderMutedByReceiver, KVGet_muted.
  destruct (KVGet_error p (mutedUsersKey (UserID userInfo))) as [appErr |].
  - split; [reflexivity |]. intros sender Hne. rewrite Contains_empty_l.
    now apply String.eqb_neq.
  - cbn [kv_muted]. rewrite lookup_insert_eq. cbn [default].
    split; [reflexivity |]. intros sender Hne. rewrite Contains_empty_l.
    now apply String.eqb_neq.
Qed.

Lemma handleUnmuteAll_clears_witness :
  getMutedUsernames samplePlugin
    (snd (handleUnmuteAll samplePlugin carolAndDave (sampleUser "id-bob")))
    (sampleUser "id-bob")
  = [].
Proof.
  refine (proj1 (handleUnmuteAll_clears samplePlugin carolAndDave
                   (sampleUser "id-bob") _)).
  reflexivity.
Defined.

(** ** Writers and the documents they own *)

Section Frames.

Variable p : Plugin.

Lemma Unsubscribe_failure (kv kv' : KVStore) (channelID repo : string)
    (err : error) :
  Unsubscribe p kv channelID repo = (Some err, kv') -> kv' = kv.
Proof.
  unfold Unsubscribe, StoreSubscriptions.
  destruct (parseOwnerAndRepo p repo (getBaseURL p)) as [owner repo'].
  destruct ((owner =? "")%string && (repo' =? "")%string); [now intros [= _ <-] |].
  destruct (GetSubscriptions p kv) as [e | subs]; [now intros [= _ <-] |].
  destruct (Repositories subs !! _) as [repoSubs |]; [| discriminate].
  destruct (removeFirst channelID repoSubs) as [[|] repoSubs']; [| discriminate].
  destruct (KVSet_error p SubscriptionsKey); [now intros [= _ <-] | discriminate].
Qed.

Lemma Subscribe_frame (kv : KVStore) (githubClient : GitHubClient)
    (userID owner repo channelID features : string) (flags : SubscriptionFlags) :
  let kv' :=
    snd (Subscribe p kv githubClient userID owner repo channelID features flags) in
  kv_excluded kv' = kv_excluded kv /\ kv_muted kv' = kv_muted kv.
Proof.
  destruct (Subscribe p kv githubClient userID owner repo channelID features flags)
    as [[err |] kv'] eqn:Hsub; cbn.
  - apply Subscribe_failure in Hsub. now subst.
  - apply Subscribe_success, AddSubscription_success in Hsub as (_ & Hm & He & _).
    now split.
Qed.

Lemma Unsubscribe_frame (kv : KVStore) (channelID repo : string) :
  let kv' := snd (Unsubscribe p kv channelID repo) in
  kv_excluded kv' = kv_excluded kv /\ kv_muted kv' = kv_muted kv.
Proof.
  destruct (Unsubscribe p kv channelID repo) as [[err |] kv'] eqn:Hun; cbn.
  - apply Unsubscribe_failure in Hun. now subst.
  - destruct (parseOwnerAndRepo p repo (getBaseURL p)) as [owner repo'] eqn:Hparse.
    destruct (Unsubscribe_success p kv kv' channelID repo owner repo' Hparse Hun)
      as (Hm & He & _).
    now split.
Qed.

Lemma KVSet_excluded_frame (kv : KVStore) (repoNames : list string) :
  let kv' := snd (KVSet_excluded p kv repoNames) in
  kv_subscriptions kv' = kv_subscriptions kv /\ kv_muted kv' = kv_muted kv.
Proof.
  unfold KVSet_excluded.
  destruct (KVSet_error p SubscribedRepoNotificationOff); now split.
Qed.

Lemma StoreExcludedNotificationRepo_frame (kv : KVStore) (s : string) :
  let kv' := snd (StoreExcludedNotificationRepo p kv s) in
  kv_subscriptions kv' = kv_subscriptions kv /\ kv_muted kv' = kv_muted kv.
Proof.
  unfold StoreExcludedNotificationRepo.
  destruct (GetExcludedNotificationRepos p kv) as [err | repoNames];
    [now split | apply KVSet_excluded_frame].
Qed.

Lemma EnableNotificationTurnedOffRepo_frame (kv : KVStore) (s : string) :
  let kv' := snd (EnableNotificationTurnedOffRepo p kv s) in
  kv_subscriptions kv' = kv_subscriptions kv /\ kv_muted kv' = kv_muted kv.
Proof.
  unfold EnableNotificationTurnedOffRepo.
  destruct (GetExcludedNotificationRepos p kv) as [err | repoNames]; [now split |].
  destruct (0 <? length repoNames)%nat; [| now split].
  destruct (ItemExists repoNames s) as [[|] index];
    [apply KVSet_excluded_frame | now split].
Qed.

Lemma EnableNotificationTurnedOffRepo_failure (kv kv' : KVStore) (s : string)
    (err : error) :
  EnableNotificationTurnedOffRepo p kv s = (Some err, kv') -> kv' = kv.
Proof.
  unfold EnableNotificationTurnedOffRepo, KVSet_excluded.
  destruct (GetExcludedNotificationRepos p kv) as [e | repoNames];
    [now intros [= _ <-] |].
  destruct (0 <? length repoNames)%nat; [| discriminate].
  destruct (ItemExists repoNames s) as [[|] index]; [| discriminate].
  destruct (KVSet_error p SubscribedRepoNotificationOff);
    [now intros [= _ <-] | discriminate].
Qed.

Lemma KVSet_muted_frame (kv : KVStore) (userID value : string) :
  let kv' := snd (KVSet_muted p kv userID value) in
  kv_subscriptions kv' = kv_subscriptions kv
  /\ kv_excluded kv' = kv_excluded kv
  /\ forall other,
       other <> userID ->
       kv_muted kv' !! mutedUsersKey other = kv_muted kv !! mutedUsersKey other.
Proof.
  unfold KVSet_muted. destruct (KVSet_error p (mutedUsersKey userID)); cbn.
  - now repeat split.
  - split; [reflexivity |]. split; [reflexivity |].
    intros other Hother. apply lookup_insert_ne.
    intros Heq. apply mutedUsersKey_inj in Heq. congruence.
Qed.

Lemma handleMuteCommand_frame (kv : KVStore) (parameters : list string)
    (userInfo : GitHubUserInfo) :
  let kv' := snd (handleMuteCommand p kv parameters userInfo) in
  kv_subscriptions kv' = kv_subscriptions kv
  /\ kv_excluded kv' = kv_excluded kv
  /\ forall other,
       other <> UserID userInfo ->
       kv_muted kv' !! mutedUsersKey other = kv_muted kv !! mutedUsersKey other.
Proof.
  assert (Hsame : kv_subscriptions kv = kv_subscriptions kv
                  /\ kv_excluded kv = kv_excluded kv
                  /\ forall other : string,
                       other <> UserID userInfo ->
                       kv_muted kv !! mutedUsersKey other
                       = kv_muted kv !! mutedUsersKey other)
    by now repeat split.
  unfold handleMuteCommand.
  destruct parameters as [|command rest]; [exact Hsame |].
  destruct (command =? subCommandList)%string; [exact Hsame |].
  destruct (command =? subCommandAdd)%string.
  { destruct (negb (length (command :: rest) =? 2)%nat); [exact Hsame |].
    unfold handleMuteAdd.
    destruct (fst (contains _ _)); [exact Hsame |].
    destruct (strings.Contains _ ","); [exact Hsame |].
    match goal with
    | |- context [KVSet_muted p kv ?u ?v] =>
        pose proof (KVSet_muted_frame kv u v) as Hframe;
        destruct (KVSet_muted p kv u v) as [[e |] kv']
    end; exact Hframe. }
  destruct (command =? subCommandDelete)%string.
  { destruct (negb (length (command :: rest) =? 2)%nat); [exact Hsame |].
    unfold handleUnmute.
    match goal with
    | |- context [KVSet_muted p kv ?u ?v] =>
        pose proof (KVSet_muted_frame kv u v) as Hframe;
        destruct (KVSet_muted p kv u v) as [[e |] kv']
    end; exact Hframe. }
  destruct (command =? subCommandDeleteAll)%string; [| exact Hsame].
  unfold handleUnmuteAll.
  match goal with
  | |- context [KVSet_muted p kv ?u ?v] =>
      pose proof (KVSet_muted_frame kv u v) as Hframe;
      destruct (KVSet_muted p kv u v) as [[e |] kv']
  end; exact Hframe.
Qed.

End Frames.

(** X27.  Every writer keeps to its own document: subscribing and
    unsubscribing leave the notification-disabled list and the mute lists
    as they were; the two writers of the notification-disabled list leave
    the subscriptions and the mute lists as they were; a mute command
    leaves the subscriptions, the notification-disabled list and the mute
    list of every other user as they were. *)
Theorem writers_keep_to_their_document (p : Plugin) (kv : KVStore) :
  (forall githubClient userID owner repo channelID features flags,
     let kv' :=
       snd (Subscribe p kv githubClient userID owner repo channelID features flags) in
     kv_excluded kv' = kv_excluded kv /\ kv_muted kv' = kv_muted kv)
  /\ (forall channelID repo,
        let kv' := snd (Unsubscribe p kv channelID repo) in
        kv_excluded kv' = kv_excluded kv /\ kv_muted kv' = kv_muted kv)
  /\ (forall s,
        let kv' := snd (StoreExcludedNotificationRepo p kv s) in
        kv_subscriptions kv' = kv_subscriptions kv /\ kv_muted kv' = kv_muted kv)
  /\ (forall s,
        let kv' := snd (EnableNotificationTurnedOffRepo p kv s) in
        kv_subscriptions kv' = kv_subscriptions kv /\ kv_muted kv' = kv_muted kv)
  /\ (forall parameters userInfo,
        let kv' := snd (handleMuteCommand p kv parameters userInfo) in
        kv_subscriptions kv' = kv_subscriptions kv
        /\ kv_excluded kv' = kv_excluded kv
        /\ forall other,
             other <> UserID userInfo ->
             kv_muted kv' !! mutedUsersKey other
             = kv_muted kv !! mutedUsersKey other).
Proof.
  split; [intros; apply Subscribe_frame |].
  split; [intros; apply Unsubscribe_frame |].
  split; [intros; apply StoreExcludedNotificationRepo_frame |].
  split; [intros; apply EnableNotificationTurnedOffRepo_frame |].
  intros; apply handleMuteCommand_frame.
Qed.

(** X28.  The unsubscribe command first takes the repository off the
    notification-disabled list and then removes the subscription.  With
    the success message both have happened; with the message of a failed
    unsubscribe the subscriptions are as before but the repository is
    already off the list; with the message of a failed list update the
    store is as before. *)
Theorem handleUnsubscribe_effects (p : Plugin) (kv kv' : KVStore)
    (channelId repoArg owner repo message : string) (rest : list string) :
  atMostOnePerChannel kv ->
  NoDup (excludedList kv) ->
  parseOwnerAndRepo p repoArg (getBaseURL p) = (owner, repo) ->
  handleUnsubscribe p kv channelId (repoArg :: rest) = (message, kv') ->
  (message = "Successfully unsubscribed from " +:+ repoArg +:+ "." ->
   IsNotificationOff p kv' repoArg = false
   /\ subscriptionsOf kv' channelId
        (strings.ToLower owner +:+ "/" +:+ strings.ToLower repo) = [])
  /\ (message = "Encountered an error trying to unsubscribe. Please try again." ->
      IsNotificationOff p kv' repoArg = false
      /\ kv_subscriptions kv' = kv_subscriptions kv)
  /\ (message
      = "Encountered an error trying to remove from notify disabled list. Please try again." ->
      kv' = kv).
Proof.
  intros Hone Hnd Hparse. unfold handleUnsubscribe.
  destruct (EnableNotificationTurnedOffRepo p kv repoArg) as [[e |] kv1] eqn:Henable.
  - intros [= <- <-]. apply EnableNotificationTurnedOffRepo_failure in Henable.
    split; [rewrite append_cons; discriminate |]. split; [discriminate |].
    intros _. exact Henable.
  - destruct (EnableNotificationTurnedOffRepo_success p kv kv1 repoArg Hnd Henable)
      as (Hread & Hsubs & _ & Hoff & _ & _).
    assert (Hoff1 : forall kv2,
              kv_excluded kv2 = kv_excluded kv1 ->
              IsNotificationOff p kv2 repoArg = false).
    { intros kv2 Hsame.
      destruct (IsNotificationOff p kv2 repoArg) eqn:His; [| reflexivity].
      apply IsNotificationOff_listed in His; [| exact Hread].
      unfold excludedList in *. rewrite Hsame in His. contradiction. }
    destruct (Unsubscribe p kv1 channelId repoArg) as [[e |] kv2] eqn:Hun.
    + intros [= <- <-]. apply Unsubscribe_failure in Hun. subst kv2.
      split; [rewrite append_cons; discriminate |].
      split; [| discriminate].
      intros _. split; [now apply Hoff1 | exact Hsubs].
    + intros [= <- <-].
      destruct (Unsubscribe_success p kv1 kv2 channelId repoArg owner repo Hparse Hun)
        as (_ & Hexcluded & Hstored).
      split; [| split; rewrite append_cons; discriminate].
      intros _. split; [now apply Hoff1 |].
      unfold subscriptionsOf. rewrite Hstored, decide_True by reflexivity.
      apply removeFirst_gone.
      specialize (Hone (strings.ToLower owner +:+ "/" +:+ strings.ToLower repo)).
      unfold storedFor in *. now rewrite Hsubs.
Qed.

Lemma handleUnsubscribe_effects_witness :
  IsNotificationOff samplePlugin
    (snd (handleUnsubscribe samplePlugin
            (snd (AddSubscription samplePlugin carolAndDave "acme/widgets"
                    (sampleSubscription "town-square" "id-alice" "pulls"
                       "acme/widgets")))
            "town-square" ["Acme/Widgets"%string]))
    "Acme/Widgets" = false
  /\ subscriptionsOf
       (snd (handleUnsubscribe samplePlugin
               (snd (AddSubscription samplePlugin carolAndDave "acme/widgets"
                       (sampleSubscription "town-square" "id-alice" "pulls"
                          "acme/widgets")))
               "town-square" ["Acme/Widgets"%string]))
       "town-square" "acme/widgets" = [].
Proof.
  refine (proj1 (handleUnsubscribe_effects samplePlugin
                   (snd (AddSubscription samplePlugin carolAndDave "acme/widgets"
                           (sampleSubscription "town-square" "id-alice" "pulls"
                              "acme/widgets")))
                   _ "town-square" "Acme/Widgets" "Acme" "Widgets" _ [] _ _ _ _) _).
  - apply AddSubscription_invariant.
    intros repo. unfold storedFor. simpl. apply NoDup_nil_2.
  - unfold excludedList. simpl. apply NoDup_cons. split.
    + rewrite list_elem_of_singleton. discriminate.
    + apply NoDup_singleton.
  - reflexivity.
  - reflexivity.
  - reflexivity.
Defined.

(** ** Feature lists and repository names *)

Section Features.

Lemma known_not_label (f : string) (b : bool) :
  validFeatures !! f = Some b -> strings.HasPrefix f "label" = false.
Proof.
  unfold validFeatures. intros H. apply elem_of_list_to_map_2 in H.
  repeat (apply elem_of_cons in H as [H | H]; [injection H as -> _; reflexivity |]).
  now apply elem_of_nil in H.
Qed.

Lemma validateFeatures_scan_closed (features : list string) :
  forall valid invalidFeatures hasLabel,
    validateFeatures_scan features valid invalidFeatures hasLabel
    = (valid && forallb (fun f => negb (unknownFeature f)) features,
       invalidFeatures ++ List.filter unknownFeature features,
       hasLabel || existsb (fun f => strings.HasPrefix f "label") features).
Proof.
  induction features as [|f features IH]; intros valid invalidFeatures hasLabel.
  - simpl. now rewrite andb_true_r, orb_false_r, app_nil_r.
  - cbn [validateFeatures_scan forallb List.filter existsb]. unfold unknownFeature at 1 3.
    destruct (validFeatures !! f) as [b |] eqn:Hknown.
    + rewrite (known_not_label f b Hknown), IH. reflexivity.
    + destruct (strings.HasPrefix f "label") eqn:Hlabel; rewrite IH; cbn.
      * now rewrite !orb_true_r.
      * now rewrite andb_false_r, <- app_assoc.
Qed.

Lemma hasPullsOrIssues_found (features : list string) :
  hasPullsOrIssues features = true
  <-> featurePulls ∈ features \/ featureIssues ∈ features.
Proof.
  induction features as [|f features IH]; simpl.
  - split; [discriminate | intros [H | H]; now apply elem_of_nil in H].
  - rewrite !elem_of_cons.
    destruct (String.eqb_spec f featurePulls) as [-> | Hpulls]; simpl.
    + split; [intros _; left; now left | reflexivity].
    + destruct (String.eqb_spec f featureIssues) as [-> | Hissues]; simpl.
      * split; [intros _; right; now left | reflexivity].
      * rewrite IH. split; [tauto |]. intros [[? | ?] | [? | ?]]; (congruence || tauto).
Qed.

Lemma filter_none (f : string -> bool) (l : list string) :
  forallb (fun x => negb (f x)) l = true <-> List.filter f l = [].
Proof.
  induction l as [|x l IH]; simpl; [tauto |].
  destruct (f x); simpl; [split; discriminate | exact IH].
Qed.

Lemma existsb_elem (f : string -> bool) (l : list string) :
  existsb f l = true <-> exists x, x ∈ l /\ f x = true.
Proof.
  rewrite existsb_exists. split; intros (x & Hin & Hx); exists x; split;
    try assumption; now apply list_elem_of_In.
Qed.

End Features.

Section RepositoryNames.

Lemma slash_char : "/"%string = String slash EmptyString.
Proof. reflexivity. Qed.

Lemma slash_not_empty (a b : string) : ((a +:+ "/" +:+ b) =? "")%string = false.
Proof.
  destruct a as [|x a]; [rewrite append_empty_l | ]; rewrite append_cons; reflexivity.
Qed.

Lemma parseRepo_ok (repoParam owner repo : string) :
  parseRepo repoParam = inr (owner, repo)
  <-> repoParam = owner +:+ "/" +:+ repo
      /\ strings.Contains owner "/" = false /\ strings.Contains repo "/" = false.
Proof.
  unfold parseRepo. split.
  - destruct (repoParam =? "")%string; [discriminate |].
    pose proof (Join_Split slash repoParam) as Hjoin.
    pose proof (Split_fields_free slash repoParam) as Hfree.
    rewrite <- slash_char in *.
    destruct (strings.Split repoParam "/") as [|a [|b [|c l]]]; try discriminate.
    intros [= <- <-]. split; [now rewrite <- Hjoin |].
    split; apply Hfree; [apply list_elem_of_here |].
    apply list_elem_of_further, list_elem_of_here.
  - intros (-> & Howner & Hrepo). rewrite slash_not_empty.
    rewrite slash_char in *.
    rewrite (Split_first slash owner repo Howner), (Split_free slash repo Hrepo).
    reflexivity.
Qed.

Lemma getRepoOwnerAndNameFromURL_last_two (prefix owner repo : string) :
  strings.Contains owner "/" = false ->
  strings.Contains repo "/" = false ->
  getRepoOwnerAndNameFromURL (prefix +:+ "/" +:+ owner +:+ "/" +:+ repo)
  = Some (owner, repo).
Proof.
  intros Howner Hrepo. unfold getRepoOwnerAndNameFromURL. rewrite slash_char in *.
  rewrite (Split_app slash prefix), (Split_first slash owner repo Howner),
    (Split_free slash repo Hrepo).
  set (fields := strings.Split prefix _).
  rewrite length_app. cbn [length].
  destruct (length fields + 2 <? 2)%nat eqn:Hlen; [apply Nat.ltb_lt in Hlen; lia |].
  rewrite !app_nth2 by lia.
  replace (length fields + 2 - 2 - length fields)%nat with 0%nat by lia.
  replace (length fields + 2 - 1 - length fields)%nat with 1%nat by lia.
  reflexivity.
Qed.

Lemma getRepoOwnerAndNameFromURL_panics (url : string) :
  getRepoOwnerAndNameFromURL url = None <-> strings.Contains url "/" = false.
Proof.
  unfold getRepoOwnerAndNameFromURL. split.
  - destruct (length (strings.Split url "/") <? 2)%nat eqn:Hlen; [| discriminate].
    intros _. apply Nat.ltb_lt in Hlen.
    destruct (strings.Contains url "/") eqn:Hslash; [| reflexivity].
    apply Contains_spec in Hslash as (a & b & ->).
    rewrite slash_char, (Split_app slash a b), length_app in Hlen.
    pose proof (Split_length_positive slash a).
    pose proof (Split_length_positive slash b). lia.
  - intros Hfree. rewrite slash_char in *. now rewrite (Split_free slash url Hfree).
Qed.

End RepositoryNames.

(** X29.  The features [validateFeatures] reports as invalid are, in
    order, those that are neither in the table of features nor start with
    [label]; the list is accepted exactly when none is reported and, if
    some feature starts with [label], [pulls] or [issues] is among the
    features. *)
Theorem validateFeatures_characterised (features : list string) :
  snd (validateFeatures features) = List.filter unknownFeature features
  /\ (fst (validateFeatures features) = true
      <-> List.filter unknownFeature features = []
          /\ ((exists f, f ∈ features /\ strings.HasPrefix f "label" = true) ->
              featurePulls ∈ features \/ featureIssues ∈ features)).
Proof.
  unfold validateFeatures. rewrite validateFeatures_scan_closed.
  cbn [andb orb app].
  rewrite <- filter_none, <- hasPullsOrIssues_found, <- existsb_elem.
  destruct (forallb _ features); cbn [andb].
  - destruct (existsb _ features); cbn.
    + destruct (hasPullsOrIssues features); cbn; split; try reflexivity.
      * tauto.
      * split; [intros H; discriminate | intros [_ H]; now apply H].
    + split; [reflexivity |]. split; [| reflexivity].
      intros _. split; [reflexivity | discriminate].
  - cbn. split; [reflexivity |]. split; [discriminate | intros [H _]; discriminate].
Qed.

(** X30.  [parseRepo] accepts exactly the texts [owner/repo] with no
    slash in either part, and returns the two parts.
    [getRepoOwnerAndNameFromURL] returns the last two slash-separated
    fields of a URL, and indexes out of range exactly on a text without a
    slash. *)
Theorem repository_names_split_on_slash :
  (forall repoParam owner repo,
     parseRepo repoParam = inr (owner, repo)
     <-> repoParam = owner +:+ "/" +:+ repo
         /\ strings.Contains owner "/" = false
         /\ strings.Contains repo "/" = false)
  /\ (forall prefix owner repo,
        strings.Contains owner "/" = false ->
        strings.Contains repo "/" = false ->
        getRepoOwnerAndNameFromURL (prefix +:+ "/" +:+ owner +:+ "/" +:+ repo)
        = Some (owner, repo))
  /\ (forall url,
        getRepoOwnerAndNameFromURL url = None
        <-> strings.Contains url "/" = false).
Proof.
  split; [exact parseRepo_ok |].
  split; [exact getRepoOwnerAndNameFromURL_last_two |].
  exact getRepoOwnerAndNameFromURL_panics.
Qed.
